(** * BombSquad multiplayer server: a shallow embedding of [GameRoom] and of
    the socket handlers, with the properties of the room state machine.

    Two versions of the server live in the repository: [server.js] and the
    standalone server reproduced after the deployment notes. They share the
    [GameRoom] class up to three points (the initial blast power, the floor
    on the owner's bomb counter in [explodeBomb], the reconnection tracker
    fed by [startGame]), so the class is embedded once, parameterised by a
    [variant]; the handlers that differ are in the modules [Root] and
    [Standalone].

    Conventions.
    - JavaScript numbers that the program only ever uses as integers
      (coordinates, counters, identifiers, timestamps) are [Z]; payloads
      are taken to carry integers where a number is expected.
    - A JavaScript [Map] iterates in insertion order, and the program relies
      on it ([removePlayer], [alivePlayers[0]], the search of the transition
      table), so a [Map] is an association list in insertion order.
    - Objects held in a [Map] are mutated in place by the program; here the
      entry of the map is rewritten ([JSMap.mutate]).
    - [Math.random()] is an oracle [nat -> Z]: the k-th call of a callback
      returns [(rnd k) mod 1000] thousandths.
    - [Date.now()] is the time at which the callback being run started.
    - [setTimeout] and [setInterval] add a closure to the list of pending
      timers; a timer fires at or after its due time.
    - An uncaught exception ends the process: no turn follows.
    - Of socket.io the model keeps [io.sockets.sockets] (the open
      connections) and the channels joined with [socket.join]; a connection
      that ends has left both when its [disconnect] handler runs, and
      connection ids are not used twice.
    - [console.log] and the [lastUpdate] stamps of the standalone server,
      which nothing reads, are left out. *)

From Stdlib Require Import ZArith List String Lia Bool DecimalString.
Import ListNotations.
Open Scope string_scope.
Open Scope list_scope.
Open Scope Z_scope.

Set Implicit Arguments.

(* ================================================================= *)
(** ** JavaScript [Map] as an insertion-ordered association list *)

Class EqKey (K : Type) := { keqb : K -> K -> bool }.

#[export] Instance EqKey_Z : EqKey Z := {| keqb := Z.eqb |}.

#[export] Instance EqKey_string : EqKey string := {| keqb := String.eqb |}.

Definition pair_eqb (a b : Z * Z) : bool :=
  (fst a =? fst b) && (snd a =? snd b).

#[export] Instance EqKey_pair : EqKey (Z * Z) := {| keqb := pair_eqb |}.

Module JSMap.
Section Ops.
Context {K V : Type} `{EqKey K}.

Definition t := list (K * V).

Fixpoint get (k : K) (m : list (K * V)) : option V :=
  match m with
  | [] => None
  | (k', v) :: m' => if keqb k k' then Some v else get k m'
  end.

(** [Map.prototype.set]: an existing key keeps its place in the order. *)
Fixpoint set (k : K) (v : V) (m : list (K * V)) : list (K * V) :=
  match m with
  | [] => [(k, v)]
  | (k', v') :: m' =>
      if keqb k k' then (k, v) :: m' else (k', v') :: set k v m'
  end.

Definition delete (k : K) (m : list (K * V)) : list (K * V) :=
  filter (fun e => negb (keqb k (fst e))) m.

Definition has (k : K) (m : list (K * V)) : bool :=
  match get k m with Some _ => true | None => false end.

Definition size (m : list (K * V)) : Z := Z.of_nat (List.length m).

Definition keys (m : list (K * V)) : list K := map fst m.

Definition values (m : list (K * V)) : list V := map snd m.

(** In-place mutation of the object stored under [k]. *)
Definition mutate (k : K) (f : V -> V) (m : list (K * V)) : list (K * V) :=
  map (fun e => if keqb k (fst e) then (fst e, f (snd e)) else e) m.

(** In-place mutation of every stored object. *)
Definition mutate_all (f : V -> V) (m : list (K * V)) : list (K * V) :=
  map (fun e => (fst e, f (snd e))) m.
End Ops.
End JSMap.

(* ================================================================= *)
(** ** Data model *)

Inductive variant := RootServer | StandaloneServer.

Inductive Phase := waiting | playing | finished.

Definition Phase_eqb (a b : Phase) : bool :=
  match a, b with
  | waiting, waiting | playing, playing | finished, finished => true
  | _, _ => false
  end.

(** The strings ['speed'], ['bombs'], ['power'], ['health']. *)
Inductive PowerUpType := pu_speed | pu_bombs | pu_power | pu_health.

Definition SocketId := string.
Bind Scope string_scope with SocketId.
Definition RoomId := (Z * Z)%type.     (* room_<Date.now()>_<random> *)
Definition BombId := (Z * Z)%type.     (* bomb_<Date.now()>_<playerId> *)
Definition PowerUpId := (Z * Z)%type.  (* powerup_<Date.now()>_<random> *)

(** [powerUps: { speed, bombs, power }]; the speed multiplier is kept in
    tenths (1 is [10], the cap 2 is [20], a bonus is [3]). *)
Record Tally := {
  t_speed : Z;
  t_bombs : Z;
  t_power : Z
}.

Record Player := {
  p_id : Z;
  p_socket : SocketId;
  p_name : string;
  p_x : Z;
  p_y : Z;
  p_health : Z;
  p_isAlive : bool;
  p_bombCapacity : Z;
  p_bombCount : Z;
  p_bombPower : Z;
  p_powerUps : Tally
}.

Record Bomb := {
  b_id : BombId;
  b_x : Z;
  b_y : Z;
  b_owner : Z;
  b_power : Z;
  b_fuseTime : Z;
  b_placedAt : Z
}.

Record PowerUp := {
  u_id : PowerUpId;
  u_type : PowerUpType;
  u_x : Z;
  u_y : Z;
  u_spawnedAt : Z
}.

(** A block [{ x, y, id }]; the id is the text [block_<x>_<y>], a function
    of the position, and is not stored. *)
Record Block := {
  k_x : Z;
  k_y : Z
}.

Definition Cell := (Z * Z)%type.

Record GameRoom := {
  roomId : RoomId;
  maxPlayers : Z;
  players : list (Z * Player);
  gameState : Phase;
  gameStartTime : option Z;
  bombs : list (BombId * Bomb);
  powerUps : list (PowerUpId * PowerUp);
  destructibleBlocks : list Block;
  roundTimer : Z
}.

Definition set_players (r : GameRoom) (ps : list (Z * Player)) : GameRoom :=
  {| roomId := roomId r; maxPlayers := maxPlayers r; players := ps;
     gameState := gameState r; gameStartTime := gameStartTime r;
     bombs := bombs r; powerUps := powerUps r;
     destructibleBlocks := destructibleBlocks r; roundTimer := roundTimer r |}.

Definition set_bombs (r : GameRoom) (bs : list (BombId * Bomb)) : GameRoom :=
  {| roomId := roomId r; maxPlayers := maxPlayers r; players := players r;
     gameState := gameState r; gameStartTime := gameStartTime r;
     bombs := bs; powerUps := powerUps r;
     destructibleBlocks := destructibleBlocks r; roundTimer := roundTimer r |}.

Definition set_powerUps (r : GameRoom) (us : list (PowerUpId * PowerUp)) : GameRoom :=
  {| roomId := roomId r; maxPlayers := maxPlayers r; players := players r;
     gameState := gameState r; gameStartTime := gameStartTime r;
     bombs := bombs r; powerUps := us;
     destructibleBlocks := destructibleBlocks r; roundTimer := roundTimer r |}.

Definition set_blocks (r : GameRoom) (ks : list Block) : GameRoom :=
  {| roomId := roomId r; maxPlayers := maxPlayers r; players := players r;
     gameState := gameState r; gameStartTime := gameStartTime r;
     bombs := bombs r; powerUps := powerUps r;
     destructibleBlocks := ks; roundTimer := roundTimer r |}.

Definition set_gameState (r : GameRoom) (g : Phase) : GameRoom :=
  {| roomId := roomId r; maxPlayers := maxPlayers r; players := players r;
     gameState := g; gameStartTime := gameStartTime r;
     bombs := bombs r; powerUps := powerUps r;
     destructibleBlocks := destructibleBlocks r; roundTimer := roundTimer r |}.

(** Field updates of a player object. *)
Definition with_pos (p : Player) (x y : Z) : Player :=
  {| p_id := p_id p; p_socket := p_socket p; p_name := p_name p;
     p_x := x; p_y := y; p_health := p_health p; p_isAlive := p_isAlive p;
     p_bombCapacity := p_bombCapacity p; p_bombCount := p_bombCount p;
     p_bombPower := p_bombPower p; p_powerUps := p_powerUps p |}.

Definition with_socket (p : Player) (s : SocketId) : Player :=
  {| p_id := p_id p; p_socket := s; p_name := p_name p;
     p_x := p_x p; p_y := p_y p; p_health := p_health p;
     p_isAlive := p_isAlive p;
     p_bombCapacity := p_bombCapacity p; p_bombCount := p_bombCount p;
     p_bombPower := p_bombPower p; p_powerUps := p_powerUps p |}.

Definition with_health (p : Player) (h : Z) (alive : bool) : Player :=
  {| p_id := p_id p; p_socket := p_socket p; p_name := p_name p;
     p_x := p_x p; p_y := p_y p; p_health := h; p_isAlive := alive;
     p_bombCapacity := p_bombCapacity p; p_bombCount := p_bombCount p;
     p_bombPower := p_bombPower p; p_powerUps := p_powerUps p |}.

Definition with_bombCount (p : Player) (c : Z) : Player :=
  {| p_id := p_id p; p_socket := p_socket p; p_name := p_name p;
     p_x := p_x p; p_y := p_y p; p_health := p_health p;
     p_isAlive := p_isAlive p;
     p_bombCapacity := p_bombCapacity p; p_bombCount := c;
     p_bombPower := p_bombPower p; p_powerUps := p_powerUps p |}.

Definition with_upgrades (p : Player) (cap pow : Z) (t : Tally) : Player :=
  {| p_id := p_id p; p_socket := p_socket p; p_name := p_name p;
     p_x := p_x p; p_y := p_y p; p_health := p_health p;
     p_isAlive := p_isAlive p;
     p_bombCapacity := cap; p_bombCount := p_bombCount p;
     p_bombPower := pow; p_powerUps := t |}.

(** The payload of [getGameState()]. *)
Record Snapshot := {
  s_roomId : RoomId;
  s_gameState : Phase;
  s_players : list Player;
  s_bombs : list Bomb;
  s_powerUps : list PowerUp;
  s_blocks : list Block;
  s_roundTimer : Z
}.

(** Outbound events, by name, with their payloads. *)
Inductive Event :=
| EvRoomCreated (rid : RoomId) (playerId : Z) (gs : Snapshot)
| EvRoomJoined (playerId : Z) (gs : Snapshot) (isReconnecting : option bool)
| EvPlayerJoined (player : Player) (gs : Snapshot)
| EvGameStarted (gs : Snapshot)
| EvGameStateUpdate (gs : Snapshot)
| EvPlayerMoved (playerId : Z) (x y : option Z)
| EvBombPlaced (bomb : Bomb) (playerId : Z)
| EvBombExploded (bombId : BombId) (explosionAreas : list Cell)
    (destroyedBlocks : list Block) (ps : list Player) (us : list PowerUp)
| EvPowerUpCollected (powerUpId : PowerUpId) (playerId : Z) (ps : list Player)
| EvPlayerLeft (playerId : Z) (gs : Snapshot)
| EvGameOver (winner : option Z) (ps : list Player)
| EvPong (timestamp : Z)
| EvError (message : string).

(** One [socket.emit]: the receiving connection and the event. *)
Definition Emit := (SocketId * Event)%type.

(** A function that may end in a thrown [TypeError]. *)
Inductive completion (A : Type) :=
| Normal (a : A)
| Throw.
Arguments Throw {A}.

(** [Math.random()], k-th call, in thousandths. *)
Definition random (rnd : nat -> Z) (k : nat) : Z := (rnd k) mod 1000.

(* ================================================================= *)
(** ** class GameRoom *)

Definition spawnPositions : list Cell :=
  [(64, 64); (1024 - 64, 64); (64, 768 - 64); (1024 - 64, 768 - 64)].

Definition corners (width height : Z) : list Cell :=
  [(64, 64); (width - 64, 64); (64, height - 64); (width - 64, height - 64)].

Definition indestructible : list Cell :=
  [(200, 200); (200, 400); (200, 600);
   (400, 200); (400, 600);
   (600, 200); (600, 600);
   (800, 200); (800, 400); (800, 600)].

(** The body of the two nested loops of [initializeDestructibleBlocks] at
    the cell [(x, y)]; [Math.random()] is only called when the cell is not
    too close to a corner or a landmark. *)
Definition tooClose (x y : Z) : bool :=
  existsb (fun c => (Z.abs (x - fst c) <? 100) && (Z.abs (y - snd c) <? 100))
          (corners 1024 768)
  || existsb (fun c => (Z.abs (x - fst c) <? 50) && (Z.abs (y - snd c) <? 50))
          indestructible.

(** [for (let v = 100; v < limit; v += 64)]: the values taken by the loop
    variable. *)
Fixpoint loop_values (fuel : nat) (v limit : Z) : list Z :=
  match fuel with
  | O => []
  | S fuel' => if v <? limit then v :: loop_values fuel' (v + 64) limit else []
  end.

Definition grid_cells : list Cell :=
  flat_map (fun x => map (fun y => (x, y)) (loop_values 16 100 (768 - 100)))
           (loop_values 16 100 (1024 - 100)).

Fixpoint layout (rnd : nat -> Z) (k : nat) (cells : list Cell) : list Block :=
  match cells with
  | [] => []
  | (x, y) :: cells' =>
      if tooClose x y then layout rnd k cells'
      else if random rnd k <? 600
           then {| k_x := x; k_y := y |} :: layout rnd (S k) cells'
           else layout rnd (S k) cells'
  end.

Definition initializeDestructibleBlocks (rnd : nat -> Z) : list Block :=
  layout rnd 0 grid_cells.

Definition newGameRoom (rnd : nat -> Z) (rid : RoomId) (maxP : Z) : GameRoom :=
  {| roomId := rid; maxPlayers := maxP; players := [];
     gameState := waiting; gameStartTime := None;
     bombs := []; powerUps := [];
     destructibleBlocks := initializeDestructibleBlocks rnd;
     roundTimer := 120 |}.

(** Deferred work registered by a method of the room with [setTimeout]:
    [this.explodeBomb(bombId)] after [delay] milliseconds. *)
Inductive RoomTimer :=
| ExplodeAfter (delay : Z) (bombId : BombId).

(** [calculateExplosion]: one direction. The [for] loop over
    [i = 1 .. power] runs [n] more times from [i]; [acc] is the shared
    array [explosionAreas]. *)
Definition inBounds (checkX checkY : Z) : bool :=
  negb ((checkX <? 50) || (checkX >? 1024 - 50)
        || (checkY <? 50) || (checkY >? 768 - 50)).

Definition blockedAt (blocks : list Block) (checkX checkY : Z) : bool :=
  existsb (fun blk => (Z.abs (k_x blk - checkX) <? 32)
                      && (Z.abs (k_y blk - checkY) <? 32)) blocks.

Definition gridSize : Z := 64.

Definition directions : list Cell := [(1, 0); (-1, 0); (0, 1); (0, -1)].

Definition cellAt (x y : Z) (dir : Cell) (i : Z) : Cell :=
  (x + fst dir * gridSize * i, y + snd dir * gridSize * i).

Fixpoint explodeDir (blocks : list Block) (x y : Z) (dir : Cell)
         (n : nat) (i : Z) (acc : list Cell) : list Cell :=
  match n with
  | O => acc
  | S n' =>
      let checkX := x + fst dir * gridSize * i in
      let checkY := y + snd dir * gridSize * i in
      if negb (inBounds checkX checkY) then acc
      else
        let blocked := blockedAt blocks checkX checkY in
        let acc' := acc ++ [(checkX, checkY)] in
        if blocked then acc' else explodeDir blocks x y dir n' (i + 1) acc'
  end.

Definition calculateExplosion (blocks : list Block) (x y power : Z)
  : list Cell :=
  fold_left (fun acc dir => explodeDir blocks x y dir (Z.to_nat power) 1 acc)
            directions [(x, y)].

(** [Math.sqrt(dx^2 + dy^2) < 40] on integers. *)
Definition within40 (px py : Z) (areas : list Cell) : bool :=
  existsb (fun a => (px - fst a) * (px - fst a)
                    + (py - snd a) * (py - snd a) <? 1600) areas.

Definition hits (areas : list Cell) (blk : Block) : bool :=
  existsb (fun a => (Z.abs (k_x blk - fst a) <? 32)
                    && (Z.abs (k_y blk - snd a) <? 32)) areas.

Definition powerUpTypes : list PowerUpType :=
  [pu_speed; pu_bombs; pu_power; pu_health].

(** The [filter] callback of [explodeBomb] run over the blocks in order:
    the blocks kept, the blocks destroyed, and the power-up table. [k]
    counts the calls of [Math.random()] made so far. *)
Fixpoint destroyBlocks (rnd : nat -> Z) (now : Z) (areas : list Cell)
         (k : nat) (blocks : list Block) (us : list (PowerUpId * PowerUp))
  : list Block * list Block * list (PowerUpId * PowerUp) :=
  match blocks with
  | [] => ([], [], us)
  | blk :: rest =>
      if hits areas blk then
        if random rnd k <? 300 then
          let powerUpType :=
            nth (Z.to_nat (random rnd (k + 1) * 4 / 1000)) powerUpTypes pu_speed in
          let powerUpId := (now, random rnd (k + 2)) in
          let us' := JSMap.set powerUpId
                       {| u_id := powerUpId; u_type := powerUpType;
                          u_x := k_x blk; u_y := k_y blk;
                          u_spawnedAt := now |} us in
          let '(kept, destroyed, us'') :=
            destroyBlocks rnd now areas (k + 3) rest us' in
          (kept, blk :: destroyed, us'')
        else
          let '(kept, destroyed, us'') :=
            destroyBlocks rnd now areas (k + 1) rest us in
          (kept, blk :: destroyed, us'')
      else
        let '(kept, destroyed, us'') :=
          destroyBlocks rnd now areas k rest us in
        (blk :: kept, destroyed, us'')
  end.

Definition getGameState (r : GameRoom) : Snapshot :=
  {| s_roomId := roomId r; s_gameState := gameState r;
     s_players := JSMap.values (players r);
     s_bombs := JSMap.values (bombs r);
     s_powerUps := JSMap.values (powerUps r);
     s_blocks := destructibleBlocks r;
     s_roundTimer := roundTimer r |}.

(** [broadcastToRoom]; [io] is [io.sockets.sockets], the connections that
    are open. *)
Definition isOpen (io : list SocketId) (s : SocketId) : bool :=
  existsb (String.eqb s) io.

Definition broadcastToRoom (io : list SocketId) (r : GameRoom) (ev : Event)
  : list Emit :=
  flat_map (fun p => if isOpen io (p_socket p) then [(p_socket p, ev)] else [])
           (JSMap.values (players r)).

Definition checkWinCondition (io : list SocketId) (r : GameRoom)
  : GameRoom * list Emit :=
  let alivePlayers := filter p_isAlive (JSMap.values (players r)) in
  if Z.of_nat (List.length alivePlayers) <=? 1 then
    let r' := set_gameState r finished in
    let winner := match alivePlayers with
                  | [p] => Some (p_id p)
                  | _ => None
                  end in
    (r', broadcastToRoom io r' (EvGameOver winner (JSMap.values (players r'))))
  else (r, []).

Definition canStartGame (r : GameRoom) : bool :=
  (JSMap.size (players r) >=? 2) && Phase_eqb (gameState r) waiting.

Definition startGame (now : Z) (r : GameRoom) : GameRoom :=
  {| roomId := roomId r; maxPlayers := maxPlayers r; players := players r;
     gameState := playing; gameStartTime := Some now;
     bombs := bombs r; powerUps := powerUps r;
     destructibleBlocks := destructibleBlocks r; roundTimer := 120 |}.

(** [removePlayer]: the first player, in the order of the map, bound to
    the connection. *)
Fixpoint findBySocket (socketId : SocketId) (ps : list (Z * Player))
  : option Z :=
  match ps with
  | [] => None
  | (playerId, player) :: ps' =>
      if String.eqb (p_socket player) socketId then Some playerId
      else findBySocket socketId ps'
  end.

Definition removePlayer (r : GameRoom) (socketId : SocketId)
  : option Z * GameRoom :=
  match findBySocket socketId (players r) with
  | Some playerId =>
      (Some playerId, set_players r (JSMap.delete playerId (players r)))
  | None => (None, r)
  end.

(** [updateData.x || player.x]: an absent, zero (or otherwise falsy)
    coordinate falls back to the current one. *)
Definition orElse (a : option Z) (d : Z) : Z :=
  match a with
  | Some 0 => d
  | Some z => z
  | None => d
  end.

Definition updatePlayer (r : GameRoom) (playerId : Z) (ux uy : option Z)
  : bool * GameRoom :=
  match JSMap.get playerId (players r) with
  | Some player =>
      if p_isAlive player then
        (true,
         set_players r
           (JSMap.mutate playerId
              (fun p => with_pos p
                          (Z.max 32 (Z.min (1024 - 32) (orElse ux (p_x p))))
                          (Z.max 32 (Z.min (768 - 32) (orElse uy (p_y p)))))
              (players r)))
      else (false, r)
  | None => (false, r)
  end.

(** [Math.round(v / gridSize) * gridSize] on an integer [v]: halves round
    up. *)
Definition snapToGrid (v : Z) : Z := ((2 * v + gridSize) / (2 * gridSize)) * gridSize.

Definition placeBomb (r : GameRoom) (playerId x y now : Z)
  : option Bomb * GameRoom * list RoomTimer :=
  match JSMap.get playerId (players r) with
  | None => (None, r, [])
  | Some player =>
      if negb (p_isAlive player)
         || (p_bombCount player >=? p_bombCapacity player)
      then (None, r, [])
      else
        let bombX := snapToGrid x in
        let bombY := snapToGrid y in
        if existsb (fun bomb => (Z.abs (b_x bomb - bombX) <? 32)
                                && (Z.abs (b_y bomb - bombY) <? 32))
                   (JSMap.values (bombs r))
        then (None, r, [])
        else
          let bombId := (now, playerId) in
          let bomb := {| b_id := bombId; b_x := bombX; b_y := bombY;
                         b_owner := playerId; b_power := p_bombPower player;
                         b_fuseTime := 3000; b_placedAt := now |} in
          (Some bomb,
           set_players (set_bombs r (JSMap.set bombId bomb (bombs r)))
             (JSMap.mutate playerId
                (fun p => with_bombCount p (p_bombCount p + 1)) (players r)),
           [ExplodeAfter 3000 bombId])
  end.

Definition applyPowerUp (ty : PowerUpType) (p : Player) : Player :=
  match ty with
  | pu_speed =>
      with_upgrades p (p_bombCapacity p) (p_bombPower p)
        {| t_speed := Z.min (t_speed (p_powerUps p) + 3) 20;
           t_bombs := t_bombs (p_powerUps p);
           t_power := t_power (p_powerUps p) |}
  | pu_bombs =>
      with_upgrades p (p_bombCapacity p + 1) (p_bombPower p)
        {| t_speed := t_speed (p_powerUps p);
           t_bombs := t_bombs (p_powerUps p) + 1;
           t_power := t_power (p_powerUps p) |}
  | pu_power =>
      with_upgrades p (p_bombCapacity p) (p_bombPower p + 1)
        {| t_speed := t_speed (p_powerUps p);
           t_bombs := t_bombs (p_powerUps p);
           t_power := t_power (p_powerUps p) + 1 |}
  | pu_health =>
      with_health p (Z.min (p_health p + 30) 100) (p_isAlive p)
  end.

Definition collectPowerUp (r : GameRoom) (playerId : Z) (powerUpId : PowerUpId)
  : bool * GameRoom :=
  match JSMap.get powerUpId (powerUps r), JSMap.get playerId (players r) with
  | Some powerUp, Some player =>
      if negb (p_isAlive player) then (false, r)
      else
        (true,
         set_powerUps
           (set_players r
              (JSMap.mutate playerId (applyPowerUp (u_type powerUp)) (players r)))
           (JSMap.delete powerUpId (powerUps r)))
  | _, _ => (false, r)
  end.

Section GameRoomClass.
Variable v : variant.

(** [bombPower: 3] in server.js, [bombPower: 5] in the standalone server. *)
Definition initialBombPower : Z :=
  match v with RootServer => 3 | StandaloneServer => 5 end.

(** [owner.bombCount--] in server.js,
    [owner.bombCount = Math.max(0, owner.bombCount - 1)] in the standalone
    server. *)
Definition decrementBombCount (c : Z) : Z :=
  match v with
  | RootServer => c - 1
  | StandaloneServer => Z.max 0 (c - 1)
  end.

Definition defaultName (playerId : Z) : string :=
  ("Player " ++ NilZero.string_of_int (Z.to_int playerId))%string.

(** [playerData.name || `Player ${playerId}`]. *)
Definition nameOr (name : option string) (playerId : Z) : string :=
  match name with
  | Some s => if String.eqb s "" then defaultName playerId else s
  | None => defaultName playerId
  end.

(** [addPlayer]: [None] is the [false] returned by a full room; reading
    [.x] of a spawn position that does not exist throws. *)
Definition addPlayer (r : GameRoom) (socketId : SocketId)
           (name : option string)
  : completion (option Player * GameRoom) :=
  if JSMap.size (players r) >=? maxPlayers r then Normal (None, r)
  else
    let playerId := JSMap.size (players r) + 1 in
    match nth_error spawnPositions (Z.to_nat (playerId - 1)) with
    | None => Throw
    | Some (sx, sy) =>
        let player :=
          {| p_id := playerId; p_socket := socketId;
             p_name := nameOr name playerId;
             p_x := sx; p_y := sy;
             p_health := 100; p_isAlive := true;
             p_bombCapacity := 1; p_bombCount := 0;
             p_bombPower := initialBombPower;
             p_powerUps := {| t_speed := 10; t_bombs := 0; t_power := 0 |} |} in
        Normal (Some player,
                set_players r (JSMap.set playerId player (players r)))
    end.

(** The damage loop of [explodeBomb] on one player: the first area in
    range ends the inner loop. *)
Definition damage (areas : list Cell) (player : Player) : Player :=
  if negb (p_isAlive player) then player
  else if within40 (p_x player) (p_y player) areas then
    let h := p_health player - 25 in
    with_health player h (if h <=? 0 then false else p_isAlive player)
  else player.

(** The bombs for which [explodeBomb] schedules a chained explosion. *)
Definition chainBombs (bombId : BombId) (areas : list Cell)
           (bs : list (BombId * Bomb)) : list BombId :=
  map b_id
      (filter (fun otherBomb =>
                 negb (keqb (b_id otherBomb) bombId)
                 && within40 (b_x otherBomb) (b_y otherBomb) areas)
              (JSMap.values bs)).

Definition explodeBomb (io : list SocketId) (now : Z) (rnd : nat -> Z)
           (r : GameRoom) (bombId : BombId)
  : GameRoom * list Emit * list RoomTimer :=
  match JSMap.get bombId (bombs r) with
  | None => (r, [], [])
  | Some bomb =>
      let bs := JSMap.delete bombId (bombs r) in
      let ps1 :=
        JSMap.mutate (b_owner bomb)
          (fun owner =>
             with_bombCount owner (decrementBombCount (p_bombCount owner)))
          (players r) in
      let explosionAreas :=
        calculateExplosion (destructibleBlocks r)
                           (b_x bomb) (b_y bomb) (b_power bomb) in
      let ps2 := JSMap.mutate_all (damage explosionAreas) ps1 in
      let timers := map (ExplodeAfter 50) (chainBombs bombId explosionAreas bs) in
      let '(kept, destroyedBlocks, us) :=
        destroyBlocks rnd now explosionAreas 0
                      (destructibleBlocks r) (powerUps r) in
      let r1 :=
        {| roomId := roomId r; maxPlayers := maxPlayers r; players := ps2;
           gameState := gameState r; gameStartTime := gameStartTime r;
           bombs := bs; powerUps := us;
           destructibleBlocks := kept; roundTimer := roundTimer r |} in
      let out1 :=
        broadcastToRoom io r1
          (EvBombExploded bombId explosionAreas destroyedBlocks
                          (JSMap.values ps2) (JSMap.values us)) in
      let '(r2, out2) := checkWinCondition io r1 in
      (r2, out1 ++ out2, timers)
  end.
End GameRoomClass.

(* ================================================================= *)
(** ** The process: registries, connections, timers *)

(** A record of [transitioningPlayers] (standalone server). *)
Record TransitionData := {
  td_roomId : RoomId;
  td_playerId : Z;
  td_playerName : string;
  td_transitionStart : Z
}.

(** The closures handed to [setTimeout] and [setInterval]. A closure holds
    the room object itself ([room], [this]), here its index in [heap]. *)
Inductive Callback :=
| CbExplode (room : nat) (bombId : BombId)
| CbAutoStart (room : nat)
| CbStateUpdate (room : nat) (gameState : Snapshot)
| CbSync (room : nat)
| CbCleanup (socketId : SocketId) (roomId : RoomId) (playerId : Z)
| CbSweep.

Record World := {
  heap : list GameRoom;                         (* every room object created *)
  gameRooms : list (RoomId * nat);
  playerSockets : list (SocketId * (RoomId * Z));
  transitioningPlayers : list (SocketId * TransitionData);
  io : list SocketId;                           (* io.sockets.sockets *)
  closed : list SocketId;                       (* connections that ended *)
  ioRooms : list (SocketId * RoomId);           (* socket.join(roomId) *)
  timers : list (Z * Callback);                 (* due time, closure *)
  clock : Z
}.

Definition set_heap (w : World) (h : list GameRoom) : World :=
  {| heap := h; gameRooms := gameRooms w; playerSockets := playerSockets w;
     transitioningPlayers := transitioningPlayers w; io := io w;
     closed := closed w; ioRooms := ioRooms w; timers := timers w;
     clock := clock w |}.

Definition set_gameRooms (w : World) (g : list (RoomId * nat)) : World :=
  {| heap := heap w; gameRooms := g; playerSockets := playerSockets w;
     transitioningPlayers := transitioningPlayers w; io := io w;
     closed := closed w; ioRooms := ioRooms w; timers := timers w;
     clock := clock w |}.

Definition set_playerSockets (w : World) (p : list (SocketId * (RoomId * Z)))
  : World :=
  {| heap := heap w; gameRooms := gameRooms w; playerSockets := p;
     transitioningPlayers := transitioningPlayers w; io := io w;
     closed := closed w; ioRooms := ioRooms w; timers := timers w;
     clock := clock w |}.

Definition set_transitioning (w : World) (t : list (SocketId * TransitionData))
  : World :=
  {| heap := heap w; gameRooms := gameRooms w; playerSockets := playerSockets w;
     transitioningPlayers := t; io := io w;
     closed := closed w; ioRooms := ioRooms w; timers := timers w;
     clock := clock w |}.

Definition set_io (w : World) (i c : list SocketId)
           (j : list (SocketId * RoomId)) : World :=
  {| heap := heap w; gameRooms := gameRooms w; playerSockets := playerSockets w;
     transitioningPlayers := transitioningPlayers w; io := i;
     closed := c; ioRooms := j; timers := timers w;
     clock := clock w |}.

Definition set_timers (w : World) (t : list (Z * Callback)) : World :=
  {| heap := heap w; gameRooms := gameRooms w; playerSockets := playerSockets w;
     transitioningPlayers := transitioningPlayers w; io := io w;
     closed := closed w; ioRooms := ioRooms w; timers := t;
     clock := clock w |}.

Definition set_clock (w : World) (t : Z) : World :=
  {| heap := heap w; gameRooms := gameRooms w; playerSockets := playerSockets w;
     transitioningPlayers := transitioningPlayers w; io := io w;
     closed := closed w; ioRooms := ioRooms w; timers := timers w;
     clock := t |}.

(** Writing through a reference to a room object. *)
Fixpoint store (ref : nat) (r : GameRoom) (h : list GameRoom) : list GameRoom :=
  match h, ref with
  | [], _ => []
  | _ :: h', O => r :: h'
  | r0 :: h', S n => r0 :: store n r h'
  end.

Definition schedule (w : World) (now : Z) (ref : nat) (ts : list RoomTimer)
  : World :=
  set_timers w
    (timers w ++ map (fun t => match t with
                               | ExplodeAfter delay bombId =>
                                   (now + delay, CbExplode ref bombId)
                               end) ts).

Definition setTimeout (w : World) (due : Z) (cb : Callback) : World :=
  set_timers w (timers w ++ [(due, cb)]).

(** [socket.join(roomId)]. *)
Definition socketJoin (w : World) (s : SocketId) (rid : RoomId) : World :=
  set_io w (io w) (closed w)
         (if existsb (fun e => String.eqb (fst e) s && pair_eqb (snd e) rid)
                     (ioRooms w)
          then ioRooms w else ioRooms w ++ [(s, rid)]).

(** [socket.to(roomId).emit(...)]: every connection of the channel but the
    sender. *)
Definition socketTo (w : World) (s : SocketId) (rid : RoomId) (ev : Event)
  : list Emit :=
  flat_map (fun e => if pair_eqb (snd e) rid && negb (String.eqb (fst e) s)
                     then [(fst e, ev)] else [])
           (ioRooms w).

(** Inbound payloads. *)
Record JoinData := {
  jd_roomId : RoomId;
  jd_name : option string;
  jd_playerId : option Z;
  jd_maxPlayers : option Z
}.

(* ----------------------------------------------------------------- *)
(** *** Handlers shared by the two servers *)

(** The room bound to a connection, when its phase is [playing]: the
    common prologue of [playerMove], [placeBomb] and [collectPowerUp]. *)
Definition playingRoomOf (w : World) (s : SocketId)
  : option (RoomId * Z * nat * GameRoom) :=
  match JSMap.get s (playerSockets w) with
  | None => None
  | Some (rid, playerId) =>
      match JSMap.get rid (gameRooms w) with
      | None => None
      | Some ref =>
          match nth_error (heap w) ref with
          | None => None
          | Some room =>
              if Phase_eqb (gameState room) playing
              then Some (rid, playerId, ref, room)
              else None
          end
      end
  end.

Definition onPlayerMove (w : World) (s : SocketId) (x y : option Z)
  : World * list Emit :=
  match playingRoomOf w s with
  | None => (w, [])
  | Some (rid, playerId, ref, room) =>
      match updatePlayer room playerId x y with
      | (true, room') =>
          (set_heap w (store ref room' (heap w)),
           socketTo w s rid (EvPlayerMoved playerId x y))
      | (false, _) => (w, [])
      end
  end.

Definition onPlaceBomb (w : World) (s : SocketId) (now x y : Z)
  : World * list Emit :=
  match playingRoomOf w s with
  | None => (w, [])
  | Some (rid, playerId, ref, room) =>
      match placeBomb room playerId x y now with
      | (Some bomb, room', ts) =>
          (schedule (set_heap w (store ref room' (heap w))) now ref ts,
           broadcastToRoom (io w) room' (EvBombPlaced bomb playerId))
      | (None, _, _) => (w, [])
      end
  end.

Definition onCollectPowerUp (w : World) (s : SocketId) (powerUpId : PowerUpId)
  : World * list Emit :=
  match playingRoomOf w s with
  | None => (w, [])
  | Some (rid, playerId, ref, room) =>
      match collectPowerUp room playerId powerUpId with
      | (true, room') =>
          (set_heap w (store ref room' (heap w)),
           broadcastToRoom (io w) room'
             (EvPowerUpCollected powerUpId playerId
                                 (JSMap.values (players room'))))
      | (false, _) => (w, [])
      end
  end.

Definition onPing (w : World) (s : SocketId) (timestamp : Z)
  : World * list Emit :=
  (w, [(s, EvPong timestamp)]).

(** [createRoom]: the first call of [Math.random()] names the room, the
    following ones lay out the blocks. *)
Definition onCreateRoom (v : variant) (w : World) (s : SocketId) (now : Z)
           (rnd : nat -> Z) (data : JoinData)
  : completion (World * list Emit) :=
  let rid := (now, rnd O) in
  let room := newGameRoom (fun k => rnd (S k)) rid (orElse (jd_maxPlayers data) 4) in
  let ref := List.length (heap w) in
  let w1 := set_gameRooms (set_heap w (heap w ++ [room]))
                          (JSMap.set rid ref (gameRooms w)) in
  match addPlayer v room s (jd_name data) with
  | Throw =>
      match v with
      | RootServer => Throw
      | StandaloneServer =>
          Normal (w1, [(s, EvError "Failed to create room")])
      end
  | Normal (None, _) => Normal (w1, [])
  | Normal (Some player, room') =>
      let w2 := set_heap w1 (store ref room' (heap w1)) in
      let w3 := socketJoin w2 s rid in
      let w4 := set_playerSockets w3
                  (JSMap.set s (rid, p_id player) (playerSockets w3)) in
      Normal (w4, [(s, EvRoomCreated rid (p_id player) (getGameState room'))])
  end.

(* ----------------------------------------------------------------- *)
(** *** server.js *)

Module Root.

Definition onJoinRoom (w : World) (s : SocketId) (now : Z) (data : JoinData)
  : completion (World * list Emit) :=
  match JSMap.get s (playerSockets w) with
  | Some _ => Normal (w, [])           (* duplicate joinRoom: ignored *)
  | None =>
      match JSMap.get (jd_roomId data) (gameRooms w) with
      | None => Normal (w, [(s, EvError "Room not found")])
      | Some ref =>
          match nth_error (heap w) ref with
          | None => Normal (w, [(s, EvError "Room not found")])
          | Some room =>
              match addPlayer RootServer room s (jd_name data) with
              | Throw => Throw
              | Normal (None, _) => Normal (w, [(s, EvError "Room is full")])
              | Normal (Some player, room') =>
                  let w1 := set_heap w (store ref room' (heap w)) in
                  let w2 := socketJoin w1 s (jd_roomId data) in
                  let w3 := set_playerSockets w2
                              (JSMap.set s (jd_roomId data, p_id player)
                                         (playerSockets w2)) in
                  let out :=
                    (s, EvRoomJoined (p_id player) (getGameState room') None)
                    :: broadcastToRoom (io w) room'
                         (EvPlayerJoined player (getGameState room')) in
                  if canStartGame room'
                  then Normal (setTimeout w3 (now + 2000) (CbAutoStart ref), out)
                  else Normal (w3, out)
              end
          end
      end
  end.

Definition onDisconnect (w : World) (s : SocketId) : World * list Emit :=
  match JSMap.get s (playerSockets w) with
  | None => (w, [])
  | Some (rid, _) =>
      let '(w1, out) :=
        match JSMap.get rid (gameRooms w) with
        | None => (w, [])
        | Some ref =>
            match nth_error (heap w) ref with
            | None => (w, [])
            | Some room =>
                match removePlayer room s with
                | (None, _) => (w, [])
                | (Some removedPlayerId, room') =>
                    let w1 := set_heap w (store ref room' (heap w)) in
                    let out := broadcastToRoom (io w) room'
                                 (EvPlayerLeft removedPlayerId
                                               (getGameState room')) in
                    if (JSMap.size (players room') =? 0)
                       && negb (Phase_eqb (gameState room') playing)
                    then (set_gameRooms w1 (JSMap.delete rid (gameRooms w1)), out)
                    else (w1, out)
                end
            end
        end in
      (set_playerSockets w1 (JSMap.delete s (playerSockets w1)), out)
  end.

(** The body of a timer closure, run at time [now].

    The delayed [gameStateUpdate] re-sends the object built by
    [getGameState()] when the game started. Its [players] array holds the
    room's player objects, which the program mutates in place, so in
    server.js a field changed during the delay is sent with its new
    value; [CbStateUpdate] carries the snapshot as a value and sends the
    fields as they were at the start. The properties below use the name
    and the receivers of this emission, not its payload. *)
Definition onTimer (w : World) (now : Z) (rnd : nat -> Z) (cb : Callback)
  : World * list Emit :=
  match cb with
  | CbExplode ref bombId =>
      match nth_error (heap w) ref with
      | None => (w, [])
      | Some room =>
          let '(room', out, ts) := explodeBomb RootServer (io w) now rnd room bombId in
          (schedule (set_heap w (store ref room' (heap w))) now ref ts, out)
      end
  | CbAutoStart ref =>
      match nth_error (heap w) ref with
      | None => (w, [])
      | Some room =>
          if canStartGame room then
            let room' := startGame now room in
            let gameState := getGameState room' in
            let w1 := set_heap w (store ref room' (heap w)) in
            let w2 := setTimeout w1 (now + 10000) (CbSync ref) in
            (setTimeout w2 (now + 500) (CbStateUpdate ref gameState),
             broadcastToRoom (io w) room' (EvGameStarted gameState))
          else (w, [])
      end
  | CbStateUpdate ref gameState =>
      match nth_error (heap w) ref with
      | None => (w, [])
      | Some room => (w, broadcastToRoom (io w) room (EvGameStateUpdate gameState))
      end
  | CbSync ref =>
      match nth_error (heap w) ref with
      | None => (w, [])
      | Some room =>
          if Phase_eqb (gameState room) playing
          then (setTimeout w (now + 10000) (CbSync ref),
                broadcastToRoom (io w) room (EvGameStateUpdate (getGameState room)))
          else (w, [])                 (* clearInterval *)
      end
  | CbCleanup _ _ _ => (w, [])         (* not created by this server *)
  | CbSweep => (w, [])                 (* not created by this server *)
  end.

End Root.

(* ----------------------------------------------------------------- *)
(** *** The standalone server *)

Module Standalone.

(** [startGame] also files a transition record for every seated player. *)
Definition markTransitioning (now : Z) (r : GameRoom)
           (tp : list (SocketId * TransitionData))
  : list (SocketId * TransitionData) :=
  fold_left (fun tp player =>
               JSMap.set (p_socket player)
                 {| td_roomId := roomId r; td_playerId := p_id player;
                    td_playerName := p_name player;
                    td_transitionStart := now |} tp)
            (JSMap.values (players r)) tp.

(** [rejoinTransitioningPlayer]: the first slot whose key and name are
    those of the record; its [socket] field is overwritten. *)
Fixpoint findSlot (old : TransitionData) (ps : list (Z * Player))
  : option Z :=
  match ps with
  | [] => None
  | (playerId, player) :: ps' =>
      if String.eqb (p_name player) (td_playerName old)
         && (playerId =? td_playerId old)
      then Some playerId
      else findSlot old ps'
  end.

Definition rejoinTransitioningPlayer (r : GameRoom) (s : SocketId)
           (old : TransitionData) : option (Player * GameRoom) :=
  match findSlot old (players r) with
  | None => None
  | Some playerId =>
      let ps := JSMap.mutate playerId (fun p => with_socket p s) (players r) in
      match JSMap.get playerId ps with
      | Some player => Some (player, set_players r ps)
      | None => None
      end
  end.

(** The predicate of [Array.from(transitioningPlayers.entries()).find]. *)
Definition matchesJoin (data : JoinData) (e : SocketId * TransitionData)
  : bool :=
  pair_eqb (td_roomId (snd e)) (jd_roomId data)
  && ((match jd_name data with
       | Some n => String.eqb (td_playerName (snd e)) n
       | None => false
       end)
      || (match jd_playerId data with
          | Some i => td_playerId (snd e) =? i
          | None => false
          end)).

Definition cleanupOldPowerUps (now : Z) (r : GameRoom) : GameRoom :=
  set_powerUps r
    (filter (fun e => negb (now - u_spawnedAt (snd e) >? 15000)) (powerUps r)).

Definition onJoinRoom (w : World) (s : SocketId) (now : Z) (data : JoinData)
  : World * list Emit :=
  match JSMap.get (jd_roomId data) (gameRooms w) with
  | None => (w, [(s, EvError "Room not found")])
  | Some ref =>
      match nth_error (heap w) ref with
      | None => (w, [(s, EvError "Room not found")])
      | Some room =>
          let rejoined :=
            match find (matchesJoin data) (transitioningPlayers w) with
            | Some (oldSocketId, transData) =>
                match rejoinTransitioningPlayer room s transData with
                | Some (player, room') => Some (oldSocketId, player, room')
                | None => None
                end
            | None => None
            end in
          match rejoined with
          | Some (oldSocketId, player, room') =>
              let w1 := set_heap w (store ref room' (heap w)) in
              let w2 := set_transitioning w1
                          (JSMap.delete oldSocketId (transitioningPlayers w1)) in
              let w3 := socketJoin w2 s (jd_roomId data) in
              let w4 := set_playerSockets w3
                          (JSMap.set s (jd_roomId data, p_id player)
                                     (playerSockets w3)) in
              let out1 :=
                [(s, EvRoomJoined (p_id player) (getGameState room') (Some true))] in
              let out2 :=
                if Phase_eqb (gameState room') playing
                then [(s, EvGameStarted (getGameState room'))] else [] in
              let out3 :=
                if Phase_eqb (gameState room') playing
                then broadcastToRoom (io w) room'
                       (EvGameStateUpdate (getGameState room'))
                else [] in
              (w4, out1 ++ out2 ++ out3)
          | None =>
              match addPlayer StandaloneServer room s (jd_name data) with
              | Throw => (w, [(s, EvError "Failed to join room")])
              | Normal (None, _) => (w, [(s, EvError "Room is full")])
              | Normal (Some player, room') =>
                  let w1 := set_heap w (store ref room' (heap w)) in
                  let w2 := socketJoin w1 s (jd_roomId data) in
                  let w3 := set_playerSockets w2
                              (JSMap.set s (jd_roomId data, p_id player)
                                         (playerSockets w2)) in
                  let out1 :=
                    (s, EvRoomJoined (p_id player) (getGameState room') (Some false))
                    :: broadcastToRoom (io w) room'
                         (EvPlayerJoined player (getGameState room')) in
                  let w4 := if canStartGame room'
                            then setTimeout w3 (now + 2000) (CbAutoStart ref)
                            else w3 in
                  let out2 :=
                    if Phase_eqb (gameState room') playing
                    then broadcastToRoom (io w) room'
                           (EvGameStateUpdate (getGameState room'))
                    else [] in
                  (w4, out1 ++ out2)
              end
          end
      end
  end.

(** The removal shared by the immediate and the delayed cleanup. *)
Definition removeFrom (w : World) (rid : RoomId) (s : SocketId)
  : World * list Emit :=
  match JSMap.get rid (gameRooms w) with
  | None => (w, [])
  | Some ref =>
      match nth_error (heap w) ref with
      | None => (w, [])
      | Some room =>
          match removePlayer room s with
          | (None, _) => (w, [])
          | (Some removedPlayerId, room') =>
              let w1 := set_heap w (store ref room' (heap w)) in
              let out := broadcastToRoom (io w) room'
                           (EvPlayerLeft removedPlayerId (getGameState room')) in
              if JSMap.size (players room') =? 0
              then (set_gameRooms w1 (JSMap.delete rid (gameRooms w1)), out)
              else (w1, out)
          end
      end
  end.

Definition onDisconnect (w : World) (s : SocketId) (now : Z)
  : World * list Emit :=
  match JSMap.get s (playerSockets w) with
  | None => (w, [])
  | Some (rid, playerId) =>
      let '(w1, out) :=
        match JSMap.get rid (gameRooms w) with
        | None => (w, [])
        | Some _ =>
            match JSMap.get s (transitioningPlayers w) with
            | Some _ =>
                (setTimeout w (now + 30000) (CbCleanup s rid playerId), [])
            | None => removeFrom w rid s
            end
        end in
      (set_playerSockets w1 (JSMap.delete s (playerSockets w1)), out)
  end.

Definition onTimer (w : World) (now : Z) (rnd : nat -> Z) (cb : Callback)
  : World * list Emit :=
  match cb with
  | CbExplode ref bombId =>
      match nth_error (heap w) ref with
      | None => (w, [])
      | Some room =>
          let '(room', out, ts) :=
            explodeBomb StandaloneServer (io w) now rnd room bombId in
          (schedule (set_heap w (store ref room' (heap w))) now ref ts, out)
      end
  | CbAutoStart ref =>
      match nth_error (heap w) ref with
      | None => (w, [])
      | Some room =>
          if canStartGame room then
            let room' := startGame now room in
            let w1 := set_heap w (store ref room' (heap w)) in
            let w2 := set_transitioning w1
                        (markTransitioning now room' (transitioningPlayers w1)) in
            (w2, broadcastToRoom (io w) room' (EvGameStarted (getGameState room')))
          else (w, [])
      end
  | CbCleanup s rid _ =>
      if JSMap.has s (transitioningPlayers w) then
        removeFrom (set_transitioning w (JSMap.delete s (transitioningPlayers w)))
                   rid s
      else (w, [])
  | CbSweep =>
      let h := fold_left
                 (fun h e =>
                    match nth_error h (snd e) with
                    | Some room => store (snd e) (cleanupOldPowerUps now room) h
                    | None => h
                    end)
                 (gameRooms w) (heap w) in
      let tp := filter (fun e => negb (now - td_transitionStart (snd e) >? 120000))
                       (transitioningPlayers w) in
      (setTimeout (set_transitioning (set_heap w h) tp) (now + 30000) CbSweep, [])
  | CbStateUpdate _ _ => (w, [])       (* not created by this server *)
  | CbSync _ => (w, [])                (* not created by this server *)
  end.

End Standalone.

(* ----------------------------------------------------------------- *)
(** *** The event loop *)

Inductive Message :=
| MCreateRoom (data : JoinData)
| MJoinRoom (data : JoinData)
| MPlayerMove (x y : option Z)
| MPlaceBomb (x y : Z)
| MCollectPowerUp (powerUpId : PowerUpId)
| MPing (timestamp : Z).

(** What the event loop runs next: a connection opens, a message of an open
    connection is handled, a connection ends, or the [n]-th pending timer,
    which is due, fires. *)
Inductive Label :=
| Connect (s : SocketId)
| Recv (s : SocketId) (m : Message)
| Disconnect (s : SocketId)
| Fire (n : nat).

(** One turn of the event loop: the time at which it runs, the outcomes of
    [Math.random()] during the turn, and what is run. *)
Record Turn := {
  at_time : Z;
  randoms : nat -> Z;
  what : Label
}.

Fixpoint remove_nth {A : Type} (n : nat) (l : list A) : list A :=
  match l, n with
  | [], _ => []
  | _ :: l', O => l'
  | a :: l', S n' => a :: remove_nth n' l'
  end.

Definition onMessage (v : variant) (w : World) (s : SocketId) (now : Z)
           (rnd : nat -> Z) (m : Message) : completion (World * list Emit) :=
  match m with
  | MCreateRoom data => onCreateRoom v w s now rnd data
  | MJoinRoom data =>
      match v with
      | RootServer => Root.onJoinRoom w s now data
      | StandaloneServer => Normal (Standalone.onJoinRoom w s now data)
      end
  | MPlayerMove x y => Normal (onPlayerMove w s x y)
  | MPlaceBomb x y => Normal (onPlaceBomb w s now x y)
  | MCollectPowerUp powerUpId => Normal (onCollectPowerUp w s powerUpId)
  | MPing timestamp => Normal (onPing w s timestamp)
  end.

(** [None]: the turn cannot happen in this state (a closed connection
    speaks, time runs backwards, the timer is not due), or the handler ends
    in an uncaught exception. *)
Definition step (v : variant) (w : World) (tn : Turn)
  : option (World * list Emit) :=
  let now := at_time tn in
  if now <? clock w then None
  else
    let w := set_clock w now in
    match what tn with
    | Connect s =>
        if isOpen (io w) s || isOpen (closed w) s then None
        else Some (set_io w (io w ++ [s]) (closed w) (ioRooms w), [])
    | Recv s m =>
        if isOpen (io w) s then
          match onMessage v w s now (randoms tn) m with
          | Normal res => Some res
          | Throw => None
          end
        else None
    | Disconnect s =>
        (* the connection has left [io.sockets.sockets] and its channels
           when the handler runs *)
        if isOpen (io w) s then
          let w1 := set_io w
                      (filter (fun s' => negb (String.eqb s s')) (io w))
                      (s :: closed w)
                      (filter (fun e => negb (String.eqb s (fst e))) (ioRooms w)) in
          Some (match v with
                | RootServer => Root.onDisconnect w1 s
                | StandaloneServer => Standalone.onDisconnect w1 s now
                end)
        else None
    | Fire n =>
        match nth_error (timers w) n with
        | Some (due, cb) =>
            if due <=? now then
              let w1 := set_timers w (remove_nth n (timers w)) in
              Some (match v with
                    | RootServer => Root.onTimer w1 now (randoms tn) cb
                    | StandaloneServer => Standalone.onTimer w1 now (randoms tn) cb
                    end)
            else None
        | None => None
        end
    end.

Fixpoint run (v : variant) (w : World) (trace : list Turn)
  : option (World * list Emit) :=
  match trace with
  | [] => Some (w, [])
  | tn :: rest =>
      match step v w tn with
      | None => None
      | Some (w1, out1) =>
          match run v w1 rest with
          | None => None
          | Some (w2, out2) => Some (w2, out1 ++ out2)
          end
      end
  end.

(** The process at start-up; the standalone server starts its periodic
    sweep. *)
Definition init (v : variant) : World :=
  {| heap := []; gameRooms := []; playerSockets := [];
     transitioningPlayers := []; io := []; closed := []; ioRooms := [];
     timers := match v with
               | RootServer => []
               | StandaloneServer => [(30000, CbSweep)]
               end;
     clock := 0 |}.

Definition reachable (v : variant) (w : World) : Prop :=
  exists trace out, run v (init v) trace = Some (w, out).

(** A room object of the process. *)
Definition room_of (w : World) (r : GameRoom) : Prop := In r (heap w).

(* ================================================================= *)
(** ** Vocabulary of the properties *)

Definition cellInBounds (c : Cell) : bool := inBounds (fst c) (snd c).

Definition cellBlocked (blocks : list Block) (c : Cell) : bool :=
  blockedAt blocks (fst c) (snd c).

(** What one direction contributes to an explosion: the cells at steps
    [1 .. k], all inside the margin, none before the last holding a block;
    the run ends because the power is used up, or its last cell holds a
    block, or the next step leaves the margin. *)
Definition contiguous_run (blocks : list Block) (x y : Z) (dir : Cell)
           (power : Z) (cells : list Cell) : Prop :=
  exists k : nat,
    (k <= Z.to_nat power)%nat
    /\ cells = map (fun j => cellAt x y dir (Z.of_nat j)) (seq 1 k)
    /\ (forall j, (1 <= j <= k)%nat ->
                  cellInBounds (cellAt x y dir (Z.of_nat j)) = true)
    /\ (forall j, (1 <= j < k)%nat ->
                  cellBlocked blocks (cellAt x y dir (Z.of_nat j)) = false)
    /\ (k = Z.to_nat power
        \/ ((1 <= k)%nat
            /\ cellBlocked blocks (cellAt x y dir (Z.of_nat k)) = true)
        \/ cellInBounds (cellAt x y dir (Z.of_nat (S k))) = false).

(** The key comparison of a [Map] decides equality. *)
Class EqKeyOK (K : Type) {E : EqKey K} : Prop :=
  keqb_spec : forall a b : K, keqb a b = true <-> a = b.
Arguments EqKeyOK K {E}.

(** Sample data for the examples: a seated player and a room holding the
    given players, bombs and power-ups. *)
Definition samplePlayer (playerId : Z) (s : SocketId) (x y health : Z)
           (alive : bool) : Player :=
  {| p_id := playerId; p_socket := s; p_name := "P";
     p_x := x; p_y := y; p_health := health; p_isAlive := alive;
     p_bombCapacity := 1; p_bombCount := 0; p_bombPower := 3;
     p_powerUps := {| t_speed := 10; t_bombs := 0; t_power := 0 |} |}.

Definition sampleRoom (g : Phase) (ps : list (Z * Player))
           (bs : list (BombId * Bomb)) (us : list (PowerUpId * PowerUp))
  : GameRoom :=
  {| roomId := (1000, 7); maxPlayers := 4; players := ps; gameState := g;
     gameStartTime := None; bombs := bs; powerUps := us;
     destructibleBlocks := []; roundTimer := 120 |}.

(** Turns for the examples: nothing random happens ([Math.random()] is
    0.999: no block, no power-up) unless said otherwise. *)
Definition noRandom : nat -> Z := fun _ => 999.

Definition turn (t : Z) (l : Label) : Turn :=
  {| at_time := t; randoms := noRandom; what := l |}.

Definition named (rid : RoomId) (n : string) : JoinData :=
  {| jd_roomId := rid; jd_name := Some n; jd_playerId := None;
     jd_maxPlayers := None |}.

(** The room created at time 1000 when [Math.random()] gives 999. *)
Definition firstRoom : RoomId := (1000, 999).

(** The state reached by a trace, when the trace can happen. *)
Definition stateAfter (v : variant) (trace : list Turn) : option World :=
  option_map fst (run v (init v) trace).

(** Slot numbers and live-bomb counters of the players of every room. *)
Definition bombCounts (w : World) : list (list (Z * Z)) :=
  map (fun r => map (fun e => (fst e, p_bombCount (snd e))) (players r)) (heap w).

(** Slot numbers, connections and names of the players of every room. *)
Definition seating (w : World) : list (list (Z * SocketId * string)) :=
  map (fun r => map (fun e => (fst e, p_socket (snd e), p_name (snd e)))
                    (players r)) (heap w).

(** Three players are seated and the game starts; player 3 drops a bomb;
    player 1 leaves and a fourth connection joins while the fuse burns;
    the fuse expires. *)
Definition trace_slot_reuse : list Turn :=
  [ turn 0 (Connect "s1"); turn 0 (Connect "s2");
    turn 0 (Connect "s3"); turn 0 (Connect "s4");
    turn 1000 (Recv "s1" (MCreateRoom (named (0, 0) "A")));
    turn 1100 (Recv "s2" (MJoinRoom (named firstRoom "B")));
    turn 1200 (Recv "s3" (MJoinRoom (named firstRoom "C")));
    turn 3100 (Fire 0);                 (* auto-start: the game starts *)
    turn 3200 (Fire 0);                 (* second auto-start: nothing to do *)
    turn 3600 (Fire 1);                 (* delayed gameStateUpdate *)
    turn 4000 (Recv "s3" (MPlaceBomb 512 384));
    turn 4100 (Disconnect "s1");
    turn 4200 (Recv "s4" (MJoinRoom (named firstRoom "D")));
    turn 7000 (Fire 1) ].               (* the fuse of bomb (4000, 3) *)

(** The chain reaction of one room, left to itself: the room and the
    bombs named by the pending [explodeBomb] callbacks. Firing the [n]-th
    callback runs [explodeBomb] and queues the callbacks it schedules. *)
Definition timerBomb (t : RoomTimer) : BombId :=
  match t with ExplodeAfter _ bombId => bombId end.

Definition fireDetonation (v : variant) (io : list SocketId) (now : Z)
           (rnd : nat -> Z) (st : GameRoom * list BombId) (n : nat)
  : option (GameRoom * list BombId) :=
  match nth_error (snd st) n with
  | None => None
  | Some bombId =>
      let '(r', _, ts) := explodeBomb v io now rnd (fst st) bombId in
      Some (r', remove_nth n (snd st) ++ map timerBomb ts)
  end.

Inductive chain_step (v : variant)
  : GameRoom * list BombId -> GameRoom * list BombId -> Prop :=
| chain_fire : forall io now rnd st n st',
    fireDetonation v io now rnd st n = Some st' -> chain_step v st st'.

Inductive chain_steps (v : variant)
  : nat -> GameRoom * list BombId -> GameRoom * list BombId -> Prop :=
| chain_done : forall st, chain_steps v 0 st st
| chain_more : forall n st st' st'',
    chain_step v st st' -> chain_steps v n st' st'' ->
    chain_steps v (S n) st st''.

Definition pendingMeasure (st : GameRoom * list BombId) : nat :=
  (List.length (snd st)
   + List.length (bombs (fst st)) * List.length (bombs (fst st)))%nat.

Definition covered (st : GameRoom * list BombId) : Prop :=
  forall bombId, In bombId (JSMap.keys (bombs (fst st))) -> In bombId (snd st).

Fixpoint drain (v : variant) (io : list SocketId) (now : Z) (rnd : nat -> Z)
         (fuel : nat) (st : GameRoom * list BombId) : option GameRoom :=
  match snd st with
  | [] => Some (fst st)
  | _ :: _ =>
      match fuel with
      | O => None
      | S fuel' =>
          match fireDetonation v io now rnd st 0 with
          | Some st' => drain v io (now + 50) rnd fuel' st'
          | None => None
          end
      end
  end.

(** Two live bombs one cell apart, owned by player 1. *)
Definition sampleBomb (bombId : BombId) (x y : Z) : Bomb :=
  {| b_id := bombId; b_x := x; b_y := y; b_owner := 1; b_power := 3;
     b_fuseTime := 3000; b_placedAt := fst bombId |}.

Definition twoBombs : GameRoom :=
  sampleRoom playing
    [(1, samplePlayer 1 "s1" 64 64 100 true);
     (2, samplePlayer 2 "s2" 960 704 100 true)]
    [((4000, 1), sampleBomb (4000, 1) 512 384);
     ((4001, 1), sampleBomb (4001, 1) 576 384)] [].

(** The name under which an event goes out. *)
Definition eventName (ev : Event) : string :=
  match ev with
  | EvRoomCreated _ _ _ => "roomCreated"
  | EvRoomJoined _ _ _ => "roomJoined"
  | EvPlayerJoined _ _ => "playerJoined"
  | EvGameStarted _ => "gameStarted"
  | EvGameStateUpdate _ => "gameStateUpdate"
  | EvPlayerMoved _ _ _ => "playerMoved"
  | EvBombPlaced _ _ => "bombPlaced"
  | EvBombExploded _ _ _ _ _ => "bombExploded"
  | EvPowerUpCollected _ _ _ => "powerUpCollected"
  | EvPlayerLeft _ _ => "playerLeft"
  | EvGameOver _ _ => "gameOver"
  | EvPong _ => "pong"
  | EvError _ => "error"
  end.

(** Who is sent what, payloads left out; and the events a turn emits in
    the state reached by a trace. *)
Definition wire (out : list Emit) : list (SocketId * string) :=
  map (fun e => (fst e, eventName (snd e))) out.

Definition emittedBy (v : variant) (trace : list Turn) (tn : Turn)
  : option (list (SocketId * string)) :=
  match stateAfter v trace with
  | Some w => option_map (fun res => wire (snd res)) (step v w tn)
  | None => None
  end.

(** Standalone server: A creates a room, B joins, the game starts, and A's
    connection drops during the transition. *)
Definition trace_drop : list Turn :=
  [ turn 0 (Connect "s1"); turn 0 (Connect "s2"); turn 0 (Connect "s3");
    turn 1000 (Recv "s1" (MCreateRoom (named (0, 0) "A")));
    turn 1100 (Recv "s2" (MJoinRoom (named firstRoom "B")));
    turn 3100 (Fire 1);                 (* auto-start: the game starts *)
    turn 5000 (Disconnect "s1") ].

(** The calls by which the handlers and the timers change a room object. *)
Inductive room_move (v : variant) : GameRoom -> GameRoom -> Prop :=
| mv_addPlayer : forall r s name p r',
    addPlayer v r s name = Normal (Some p, r') -> room_move v r r'
| mv_removePlayer : forall r s k r',
    removePlayer r s = (Some k, r') -> room_move v r r'
| mv_startGame : forall r now,
    canStartGame r = true -> room_move v r (startGame now r)
| mv_updatePlayer : forall r playerId ux uy r',
    gameState r = playing ->
    updatePlayer r playerId ux uy = (true, r') -> room_move v r r'
| mv_placeBomb : forall r playerId x y now bomb r' ts,
    gameState r = playing ->
    placeBomb r playerId x y now = (Some bomb, r', ts) -> room_move v r r'
| mv_collectPowerUp : forall r playerId powerUpId r',
    gameState r = playing ->
    collectPowerUp r playerId powerUpId = (true, r') -> room_move v r r'
| mv_explodeBomb : forall io now rnd r bombId r' out ts,
    explodeBomb v io now rnd r bombId = (r', out, ts) -> room_move v r r'
| mv_rejoin : forall r s old p r',
    Standalone.rejoinTransitioningPlayer r s old = Some (p, r') ->
    room_move v r r'
| mv_cleanup : forall r now,
    room_move v r (Standalone.cleanupOldPowerUps now r).

Inductive moves (v : variant) : GameRoom -> GameRoom -> Prop :=
| moves_refl : forall r, moves v r r
| moves_step : forall r r' r'',
    moves v r r' -> room_move v r' r'' -> moves v r r''.

(** How the room objects of the process change over a turn: an object is
    reached from what it was by method calls, a new object from a freshly
    constructed room. *)
Definition evolves (v : variant) (h h' : list GameRoom) : Prop :=
  (forall ref r, nth_error h ref = Some r ->
                 exists r', nth_error h' ref = Some r' /\ moves v r r')
  /\ (forall ref r', nth_error h' ref = Some r' -> nth_error h ref = None ->
                     exists rnd rid maxP, moves v (newGameRoom rnd rid maxP) r').

(** The health invariant: at most 100, above -25, and positive while the
    player is alive. *)
Definition healthOK (p : Player) : Prop :=
  -25 < p_health p <= 100 /\ (p_isAlive p = true -> 0 < p_health p).

Definition roomHealthOK (r : GameRoom) : Prop :=
  Forall (fun e => healthOK (snd e)) (players r).

(** The order waiting, playing, finished. *)
Definition phase_le (a b : Phase) : Prop :=
  match a, b with
  | waiting, _ => True
  | playing, waiting => False
  | playing, _ => True
  | finished, finished => True
  | finished, _ => False
  end.

(** The gameplay intents: the messages whose handlers start by checking
    that the room is [playing]. *)
Definition gameplay (m : Message) : bool :=
  match m with
  | MPlayerMove _ _ | MPlaceBomb _ _ | MCollectPowerUp _ => true
  | _ => false
  end.

Definition healths (w : World) : list (list (Z * Z * bool)) :=
  map (fun r => map (fun e => (fst e, p_health (snd e), p_isAlive (snd e)))
                    (players r)) (heap w).

Definition phases (w : World) : list Phase := map gameState (heap w).

Definition bombIds (w : World) : list (list BombId) :=
  map (fun r => JSMap.keys (bombs r)) (heap w).

(** [Math.random()] is 0 throughout: every eligible cell gets a block. *)
Definition allBlocks : nat -> Z := fun _ => 0.

(** The first destroyed block drops a power-up (0 < 0.3), of type
    [powerUpTypes[3]], health; no other block drops one. *)
Definition healthDrop : nat -> Z :=
  fun k => match k with O => 0 | 2%nat => 7 | _ => 999 end.

Definition turnWith (t : Z) (rnd : nat -> Z) (l : Label) : Turn :=
  {| at_time := t; randoms := rnd; what := l |}.

(** The room created at time 1000 when [Math.random()] gives 0. *)
Definition blockRoom : RoomId := (1000, 0).

(** server.js: B stands on the cell (512, 384) while A drops six bombs
    there, one after the other; the first blast frees a health power-up,
    which B collects after the second blast. *)
Definition trace_blast : list Turn :=
  [ turn 0 (Connect "s1"); turn 0 (Connect "s2");
    turnWith 1000 allBlocks (Recv "s1" (MCreateRoom (named (0, 0) "A")));
    turn 1100 (Recv "s2" (MJoinRoom (named blockRoom "B")));
    turn 3100 (Fire 0);                 (* auto-start *)
    turn 3600 (Fire 1);                 (* delayed gameStateUpdate *)
    turn 3700 (Recv "s2" (MPlayerMove (Some 512) (Some 384)));
    turn 4000 (Recv "s1" (MPlaceBomb 512 384));
    turnWith 7000 healthDrop (Fire 1);  (* blast 1: 100 -> 75 *)
    turn 7100 (Recv "s1" (MPlaceBomb 512 384));
    turn 10100 (Fire 1);                (* blast 2: 75 -> 50 *)
    turn 10150 (Recv "s2" (MCollectPowerUp (7000, 7)));   (* 50 -> 80 *)
    turn 10200 (Recv "s1" (MPlaceBomb 512 384));
    turn 13100 (Fire 0);                (* periodic gameStateUpdate *)
    turn 13200 (Fire 0);                (* blast 3: 80 -> 55 *)
    turn 13300 (Recv "s1" (MPlaceBomb 512 384));
    turn 16300 (Fire 1);                (* blast 4: 55 -> 30 *)
    turn 16400 (Recv "s1" (MPlaceBomb 512 384));
    turn 19400 (Fire 1);                (* blast 5: 30 -> 5 *)
    turn 19500 (Recv "s1" (MPlaceBomb 512 384));
    turn 22500 (Fire 1) ].              (* blast 6: 5 -> -20 *)

(** server.js: A and B each drop a bomb, B leaves, A's bomb goes off: A is
    the only player left and the game is over while B's fuse still
    burns. *)
Definition trace_game_over : list Turn :=
  [ turn 0 (Connect "s1"); turn 0 (Connect "s2"); turn 0 (Connect "s3");
    turn 1000 (Recv "s1" (MCreateRoom (named (0, 0) "A")));
    turn 1100 (Recv "s2" (MJoinRoom (named firstRoom "B")));
    turn 3100 (Fire 0);                 (* auto-start *)
    turn 3600 (Fire 1);                 (* delayed gameStateUpdate *)
    turn 4000 (Recv "s1" (MPlaceBomb 512 384));
    turn 4500 (Recv "s2" (MPlaceBomb 256 256));
    turn 5000 (Disconnect "s2");
    turn 7000 (Fire 1) ].               (* A's bomb: game over *)

(** The states reached by the sample traces, evaluated. *)
Definition orInit (v : variant) (o : option World) : World :=
  match o with Some w => w | None => init v end.

Definition droppedWorld : World :=
  Eval vm_compute in orInit StandaloneServer (stateAfter StandaloneServer trace_drop).

Definition blastWorld : World :=
  Eval vm_compute in orInit RootServer (stateAfter RootServer trace_blast).

Definition gameOverWorld : World :=
  Eval vm_compute in orInit RootServer (stateAfter RootServer trace_game_over).

(* ----------------------------------------------------------------- *)
(** *** Vocabulary of the further properties *)

(** The number of living players of a room. *)
Definition aliveCount (r : GameRoom) : Z :=
  Z.of_nat (List.length (filter p_isAlive (JSMap.values (players r)))).


(** A room in which player 1 stands on a live bomb and player 2 is far
    away. *)
Definition standingOnBomb : GameRoom :=
  sampleRoom playing
    [(1, samplePlayer 1 "s1" 512 384 100 true);
     (2, samplePlayer 2 "s2" 960 704 100 true)]
    [((4000, 2), {| b_id := (4000, 2); b_x := 512; b_y := 384; b_owner := 2;
                    b_power := 3; b_fuseTime := 3000; b_placedAt := 4000 |})] [].

(** The open connections seated in a room, in the order of the seats: the
    receivers of [broadcastToRoom]. *)
Definition audience (io : list SocketId) (r : GameRoom) : list SocketId :=
  filter (isOpen io) (map p_socket (JSMap.values (players r))).

(** The cells on which [initializeDestructibleBlocks] may put a block. *)
Definition eligible (x y : Z) : Prop :=
  In (x, y) grid_cells /\ tooClose x y = false.

(** What holds of every seated player: it is stored under its own id, a
    slot number from 1 to 4; it stands inside the margin; it has no more
    live bombs than its capacity; capacity and blast power are the initial
    values plus the power-up tallies; the speed multiplier is between 1
    and 2. *)
Definition playerSound (v : variant) (e : Z * Player) : Prop :=
  p_id (snd e) = fst e
  /\ 1 <= fst e <= 4
  /\ (32 <= p_x (snd e) <= 1024 - 32 /\ 32 <= p_y (snd e) <= 768 - 32)
  /\ p_bombCount (snd e) <= p_bombCapacity (snd e)
  /\ (p_bombCapacity (snd e) = 1 + t_bombs (p_powerUps (snd e))
      /\ 0 <= t_bombs (p_powerUps (snd e)))
  /\ (p_bombPower (snd e) = initialBombPower v + t_power (p_powerUps (snd e))
      /\ 0 <= t_power (p_powerUps (snd e)))
  /\ 10 <= t_speed (p_powerUps (snd e)) <= 20.

Definition seatsSound (v : variant) (r : GameRoom) : Prop :=
  NoDup (JSMap.keys (players r))
  /\ Forall (playerSound v) (players r)
  /\ JSMap.size (players r) <= 4
  /\ JSMap.size (players r) <= Z.max 0 (maxPlayers r).

(** Two bombs within half a cell of each other, as [placeBomb] tests it. *)
Definition sameCell (a b : Bomb) : bool :=
  (Z.abs (b_x a - b_x b) <? 32) && (Z.abs (b_y a - b_y b) <? 32).

Definition bombSound (e : BombId * Bomb) : Prop :=
  b_id (snd e) = fst e
  /\ fst e = (b_placedAt (snd e), b_owner (snd e))
  /\ (exists i j, b_x (snd e) = 64 * i /\ b_y (snd e) = 64 * j)
  /\ b_fuseTime (snd e) = 3000.

Definition bombsSound (r : GameRoom) : Prop :=
  NoDup (JSMap.keys (bombs r))
  /\ Forall bombSound (bombs r)
  /\ ForallOrdPairs (fun e1 e2 => sameCell (snd e1) (snd e2) = false) (bombs r).

Definition arenaSound (r : GameRoom) : Prop :=
  Forall (fun blk => eligible (k_x blk) (k_y blk)) (destructibleBlocks r)
  /\ NoDup (destructibleBlocks r)
  /\ Forall (fun e => u_id (snd e) = fst e
                      /\ eligible (u_x (snd e)) (u_y (snd e)))
            (powerUps r).

Definition roomSound (v : variant) (r : GameRoom) : Prop :=
  seatsSound v r /\ bombsSound r /\ arenaSound r.

(** The state reached when both bombs of [trace_game_over] are live. *)
Definition twoFusesWorld : World :=
  Eval vm_compute in
    orInit RootServer (stateAfter RootServer (firstn 9 trace_game_over)).

Definition noRoom : GameRoom := sampleRoom waiting [] [] [].
Definition noPlayer : Player := samplePlayer 0 "" 0 0 0 false.

(** Equality of cells is decidable. *)
Definition cell_eq_dec : forall a b : Cell, {a = b} + {a <> b}.
Proof. decide equality; apply Z.eq_dec. Defined.

(** Four connections seated in one room, before the game starts: with the
    default capacity, and with [maxPlayers = 5]. *)
Definition trace_four (maxP : option Z) : list Turn :=
  [ turn 0 (Connect "s1"); turn 0 (Connect "s2"); turn 0 (Connect "s3");
    turn 0 (Connect "s4"); turn 0 (Connect "s5");
    turn 1000 (Recv "s1" (MCreateRoom
                            {| jd_roomId := (0, 0); jd_name := Some "A";
                               jd_playerId := None; jd_maxPlayers := maxP |}));
    turn 1100 (Recv "s2" (MJoinRoom (named firstRoom "B")));
    turn 1200 (Recv "s3" (MJoinRoom (named firstRoom "C")));
    turn 1300 (Recv "s4" (MJoinRoom (named firstRoom "D"))) ].

Definition fullRoomWorld : World :=
  Eval vm_compute in orInit RootServer (stateAfter RootServer (trace_four None)).

Definition bigRoomWorld : World :=
  Eval vm_compute in orInit RootServer (stateAfter RootServer (trace_four (Some 5))).

(** server.js: the game runs, B has left, A is the last player seated. *)
Definition lastPlayerWorld : World :=
  Eval vm_compute in
    orInit RootServer (stateAfter RootServer (firstn 10 trace_game_over)).

(** Every live bomb of every room object has its three-second fuse
    pending: the timer set by [placeBomb], due 3000 ms after the time in
    the bomb's id, for this room and this id. *)
Definition fusesPending (w : World) : Prop :=
  forall ref room bombId,
    nth_error (heap w) ref = Some room ->
    In bombId (JSMap.keys (bombs room)) ->
    In (fst bombId + 3000, CbExplode ref bombId) (timers w).

(** No room object of [h'] has a bomb it did not have in [h]. *)
Definition bombsWithin (h h' : list GameRoom) : Prop :=
  forall ref room' bombId,
    nth_error h' ref = Some room' ->
    In bombId (JSMap.keys (bombs room')) ->
    exists room, nth_error h ref = Some room
                 /\ In bombId (JSMap.keys (bombs room)).

(** A turn that lights no fuse and lets none go off. *)
Definition quiet (w w' : World) : Prop :=
  bombsWithin (heap w) (heap w') /\ incl (timers w) (timers w').

(** The transition record [startGame] files for a seated player. *)
Definition recordOf (now : Z) (r : GameRoom) (player : Player) : TransitionData :=
  {| td_roomId := roomId r; td_playerId := p_id player;
     td_playerName := p_name player; td_transitionStart := now |}.

(** The connection [s] has on file the record of a player of [L] seated
    with it. *)
Definition filed (now : Z) (r : GameRoom) (L : list Player) (s : SocketId)
           (tp : list (SocketId * TransitionData)) : Prop :=
  exists q, In q L /\ p_socket q = s
            /\ JSMap.get s tp = Some (recordOf now r q).

(** The standalone server: A and B are seated, the room waits for the
    auto-start timer. *)
Definition lobbyWorld : World :=
  Eval vm_compute in
    orInit StandaloneServer (stateAfter StandaloneServer (firstn 5 trace_drop)).

(** A fresh room with a block on every eligible cell and one live bomb at
    (512, 384). *)
Definition blockArena : GameRoom :=
  set_bombs (newGameRoom allBlocks blockRoom 4)
            [((4000, 1), sampleBomb (4000, 1) 512 384)].

(** No player of the room is bound to the connection [old]. *)
Definition seatFree (old : SocketId) (r : GameRoom) : Prop :=
  Forall (fun e => p_socket (snd e) <> old) (players r).

(** The connection [old] has ended and has left no trace: it holds no seat
    in any room object and has no transition record. *)
Definition gone (old : SocketId) (w : World) : Prop :=
  isOpen (closed w) old = true
  /\ isOpen (io w) old = false
  /\ Forall (seatFree old) (heap w)
  /\ JSMap.get old (transitioningPlayers w) = None.

(** The standalone server: A creates a second room while seated in the
    first, drops when the first game has started, and C resumes A's seat;
    then D joins the second room, whose game starts with A still seated
    there. *)
Definition trace_two_rooms : list Turn :=
  [ turn 0 (Connect "s1"); turn 0 (Connect "s2"); turn 0 (Connect "s3");
    turn 0 (Connect "s4");
    turn 1000 (Recv "s1" (MCreateRoom (named (0, 0) "A")));
    turn 1100 (Recv "s2" (MJoinRoom (named firstRoom "B")));
    turn 1200 (Recv "s1" (MCreateRoom (named (0, 0) "A")));
    turn 3100 (Fire 1);                 (* the first room starts *)
    turn 5000 (Disconnect "s1");        (* grace timer, due at 35000 *)
    turn 6000 (Recv "s3" (MJoinRoom (named firstRoom "A")));
    turn 7000 (Recv "s4" (MJoinRoom (named (1200, 999) "D")));
    turn 9000 (Fire 2) ].               (* the second room starts *)

(* ================================================================= *)
(** * Properties *)

(** ** Facts about [Map] *)

#[export] Instance EqKeyOK_Z : EqKeyOK Z.
Proof. exact Z.eqb_eq. Qed.

#[export] Instance EqKeyOK_string : EqKeyOK string.
Proof. exact String.eqb_eq. Qed.

#[export] Instance EqKeyOK_pair : EqKeyOK (Z * Z).
Proof.
  intros [a1 a2] [b1 b2]; unfold keqb; simpl; unfold pair_eqb; simpl.
  rewrite andb_true_iff, !Z.eqb_eq. split.
  - intros [-> ->]; reflexivity.
  - intros E; inversion E; auto.
Qed.

Section MapFacts.
Context {K V : Type} {EK : EqKey K} {EKok : EqKeyOK K}.
Implicit Types (k : K) (m : list (K * V)).

Lemma keqb_refl : forall k, keqb k k = true.
Proof. intros k. now apply keqb_spec. Qed.

Lemma keqb_neq : forall k k', k <> k' -> keqb k k' = false.
Proof.
  intros k k' Hne. destruct (keqb k k') eqn:E; [|reflexivity].
  apply keqb_spec in E. contradiction.
Qed.

Lemma get_mutate : forall k f m,
    JSMap.get k (JSMap.mutate k f m) = option_map f (JSMap.get k m).
Proof.
  intros k f m; induction m as [|[k1 v1] m IH]; simpl; [reflexivity|].
  destruct (keqb k k1) eqn:E; simpl; rewrite E; [reflexivity | exact IH].
Qed.

Lemma get_mutate_other : forall k k' f m,
    k <> k' -> JSMap.get k (JSMap.mutate k' f m) = JSMap.get k m.
Proof.
  intros k k' f m Hne; induction m as [|[k1 v1] m IH]; simpl; [reflexivity|].
  destruct (keqb k' k1) eqn:E'; simpl.
  - apply keqb_spec in E'; subst k1. rewrite (keqb_neq Hne). exact IH.
  - destruct (keqb k k1); [reflexivity | exact IH].
Qed.

Lemma get_delete_same : forall k m, JSMap.get k (JSMap.delete k m) = None.
Proof.
  intros k m; induction m as [|[k1 v1] m IH]; simpl; [reflexivity|].
  destruct (keqb k k1) eqn:E; simpl; [exact IH|]. now rewrite E.
Qed.

Lemma get_delete_other : forall k k' m,
    k <> k' -> JSMap.get k (JSMap.delete k' m) = JSMap.get k m.
Proof.
  intros k k' m Hne; induction m as [|[k1 v1] m IH]; simpl; [reflexivity|].
  destruct (keqb k' k1) eqn:E'; simpl.
  - apply keqb_spec in E'; subst k1. now rewrite (keqb_neq Hne).
  - destruct (keqb k k1); [reflexivity | exact IH].
Qed.

Lemma get_set_same : forall k (v : V) m, JSMap.get k (JSMap.set k v m) = Some v.
Proof.
  intros k v m; induction m as [|[k1 v1] m IH]; simpl.
  - now rewrite keqb_refl.
  - destruct (keqb k k1) eqn:E; simpl; [now rewrite keqb_refl|].
    now rewrite E.
Qed.

Lemma get_In : forall k (v : V) m, JSMap.get k m = Some v -> In (k, v) m.
Proof.
  intros k v m; induction m as [|[k1 v1] m IH]; simpl; [discriminate|].
  destruct (keqb k k1) eqn:E.
  - intros [= ->]. apply keqb_spec in E; subst. now left.
  - intros Hg. right. now apply IH.
Qed.

Lemma In_get : forall k (v : V) m,
    In (k, v) m -> exists v', JSMap.get k m = Some v'.
Proof.
  intros k v m; induction m as [|[k1 v1] m IH]; simpl; [contradiction|].
  intros [E | Hin].
  - inversion E; subst. rewrite keqb_refl. eauto.
  - destruct (keqb k k1); eauto.
Qed.

Lemma length_delete_le : forall k m,
    (List.length (JSMap.delete k m) <= List.length m)%nat.
Proof. intros k m. apply filter_length_le. Qed.

Lemma length_delete_lt : forall k (v : V) m,
    JSMap.get k m = Some v ->
    (List.length (JSMap.delete k m) < List.length m)%nat.
Proof.
  intros k v m; induction m as [|[k1 v1] m IH]; simpl; [discriminate|].
  destruct (keqb k k1) eqn:E; simpl.
  - intros _. pose proof (length_delete_le k m). unfold JSMap.delete in *. lia.
  - intros Hg. apply IH in Hg. unfold JSMap.delete in *. lia.
Qed.
End MapFacts.

Lemma values_mutate_all : forall (K V : Type) (f : V -> V) (m : list (K * V)),
    JSMap.values (JSMap.mutate_all f m) = map f (JSMap.values m).
Proof.
  intros K V f m. unfold JSMap.values, JSMap.mutate_all.
  rewrite !map_map. reflexivity.
Qed.

(* ================================================================= *)
(** ** The block layout *)

(** The loops of [initializeDestructibleBlocks] end within the fuel given
    to [loop_values]: 13 columns and 9 rows. *)
Example loop_values_complete :
  loop_values 16 100 (1024 - 100) = loop_values 17 100 (1024 - 100)
  /\ List.length (loop_values 16 100 (1024 - 100)) = 13%nat
  /\ loop_values 16 100 (768 - 100) = loop_values 17 100 (768 - 100)
  /\ List.length (loop_values 16 100 (768 - 100)) = 9%nat.
Proof. repeat split. Qed.

(* ================================================================= *)
(** ** The explosion engine *)

Section Explosion.
Variable blocks : list Block.
Variables x y : Z.

Lemma explodeDir_acc : forall dir n i acc,
    explodeDir blocks x y dir n i acc
    = acc ++ explodeDir blocks x y dir n i [].
Proof.
  intros dir n; induction n as [|n IH]; intros i acc; simpl.
  - now rewrite app_nil_r.
  - destruct (inBounds _ _); simpl; [|now rewrite app_nil_r].
    destruct (blockedAt _ _ _); [reflexivity|].
    rewrite IH. rewrite (IH (i + 1) [_]). now rewrite app_assoc.
Qed.

Lemma explodeDir_run : forall dir n i,
    exists k : nat,
      (k <= n)%nat
      /\ explodeDir blocks x y dir n i []
         = map (fun j => cellAt x y dir (i + Z.of_nat j)) (seq 0 k)
      /\ (forall j, (j < k)%nat ->
                    cellInBounds (cellAt x y dir (i + Z.of_nat j)) = true)
      /\ (forall j, (S j < k)%nat ->
                    cellBlocked blocks (cellAt x y dir (i + Z.of_nat j)) = false)
      /\ (k = n
          \/ (exists j, k = S j
                        /\ cellBlocked blocks (cellAt x y dir (i + Z.of_nat j)) = true)
          \/ cellInBounds (cellAt x y dir (i + Z.of_nat k)) = false).
Proof.
  intros dir n; induction n as [|n IH]; intros i.
  - exists O; simpl; repeat split; try (intros; lia); auto.
  - simpl.
    destruct (inBounds (x + fst dir * gridSize * i) (y + snd dir * gridSize * i))
      eqn:Hin; simpl.
    + destruct (blockedAt blocks (x + fst dir * gridSize * i)
                          (y + snd dir * gridSize * i)) eqn:Hblk.
      * exists 1%nat; simpl. rewrite Z.add_0_r.
        repeat split; try lia.
        -- intros j Hj. assert (j = O) by lia; subst. now rewrite Z.add_0_r.
        -- right; left. exists O. split; [reflexivity|]. now rewrite Z.add_0_r.
      * destruct (IH (i + 1)) as (k & Hk & Heq & Hinb & Hnb & Hend).
        exists (S k). split; [lia|]. split.
        { rewrite explodeDir_acc, Heq. simpl. rewrite Z.add_0_r.
          f_equal. rewrite <- seq_shift, map_map.
          apply map_ext; intros j. f_equal. lia. }
        split.
        { intros [|j] Hj.
          - now rewrite Z.add_0_r.
          - replace (i + Z.of_nat (S j)) with (i + 1 + Z.of_nat j) by lia.
            apply Hinb; lia. }
        split.
        { intros [|j] Hj.
          - now rewrite Z.add_0_r.
          - replace (i + Z.of_nat (S j)) with (i + 1 + Z.of_nat j) by lia.
            apply Hnb; lia. }
        destruct Hend as [-> | [(j & -> & Hb) | Hout]].
        -- now left.
        -- right; left. exists (S j). split; [reflexivity|].
           now replace (i + Z.of_nat (S j)) with (i + 1 + Z.of_nat j) by lia.
        -- right; right.
           now replace (i + Z.of_nat (S k)) with (i + 1 + Z.of_nat k) by lia.
    + exists O; simpl. rewrite Z.add_0_r.
      repeat split; try (intros; lia). right; right.
      unfold cellInBounds, cellAt; simpl. exact Hin.
Qed.

Lemma explodeDir_contiguous : forall dir power,
    contiguous_run blocks x y dir power
      (explodeDir blocks x y dir (Z.to_nat power) 1 []).
Proof.
  intros dir power.
  destruct (explodeDir_run dir (Z.to_nat power) 1)
    as (k & Hk & Heq & Hinb & Hnb & Hend).
  exists k. split; [exact Hk|]. split.
  { rewrite Heq, <- seq_shift, map_map. apply map_ext; intros j.
    f_equal. lia. }
  split.
  { intros j Hj. replace (Z.of_nat j) with (1 + Z.of_nat (j - 1)) by lia.
    apply Hinb; lia. }
  split.
  { intros j Hj. replace (Z.of_nat j) with (1 + Z.of_nat (j - 1)) by lia.
    apply Hnb; lia. }
  destruct Hend as [-> | [(j & -> & Hb) | Hout]].
  - now left.
  - right; left. split; [lia|].
    now replace (Z.of_nat (S j)) with (1 + Z.of_nat j) by lia.
  - right; right.
    now replace (Z.of_nat (S k)) with (1 + Z.of_nat k) by lia.
Qed.

Lemma contiguous_run_in_bounds : forall dir power cells,
    contiguous_run blocks x y dir power cells ->
    Forall (fun c => cellInBounds c = true) cells.
Proof.
  intros dir power cells (k & _ & -> & Hinb & _).
  apply Forall_forall. intros c Hc.
  apply in_map_iff in Hc. destruct Hc as (j & <- & Hj).
  apply in_seq in Hj. apply Hinb. lia.
Qed.

Lemma calculateExplosion_rays : forall power,
    calculateExplosion blocks x y power
    = (x, y)
        :: explodeDir blocks x y (1, 0) (Z.to_nat power) 1 []
        ++ explodeDir blocks x y (-1, 0) (Z.to_nat power) 1 []
        ++ explodeDir blocks x y (0, 1) (Z.to_nat power) 1 []
        ++ explodeDir blocks x y (0, -1) (Z.to_nat power) 1 [].
Proof.
  intros power. unfold calculateExplosion, directions. cbn [fold_left].
  rewrite (explodeDir_acc (0, -1)), (explodeDir_acc (0, 1)),
          (explodeDir_acc (-1, 0)), (explodeDir_acc (1, 0)).
  cbn [app]. now rewrite <- !app_assoc.
Qed.
End Explosion.

(** C1 (as amended): for every origin, power and set of blocks,
    [calculateExplosion] returns the origin cell first, whatever its
    position, followed by one run per axis direction; each run is the
    contiguous sequence of cells at steps 1, 2, ... from the origin, it
    includes the first cell that holds a destructible block and stops
    there, it stops before the first step outside the 50-unit margin, and
    it never exceeds [power] steps; every cell other than the origin lies
    inside the margin. *)
Theorem calculateExplosion_shape :
  forall (blocks : list Block) (x y power : Z),
  exists east west south north : list Cell,
    calculateExplosion blocks x y power
    = (x, y) :: east ++ west ++ south ++ north
    /\ contiguous_run blocks x y (1, 0) power east
    /\ contiguous_run blocks x y (-1, 0) power west
    /\ contiguous_run blocks x y (0, 1) power south
    /\ contiguous_run blocks x y (0, -1) power north
    /\ Forall (fun c => cellInBounds c = true)
              (east ++ west ++ south ++ north).
Proof.
  intros blocks x y power.
  pose proof (explodeDir_contiguous blocks x y (1, 0) power) as He.
  pose proof (explodeDir_contiguous blocks x y (-1, 0) power) as Hw.
  pose proof (explodeDir_contiguous blocks x y (0, 1) power) as Hs.
  pose proof (explodeDir_contiguous blocks x y (0, -1) power) as Hn.
  do 4 eexists. split; [apply calculateExplosion_rays|].
  repeat split; try assumption.
  repeat (apply Forall_app; split);
    eapply contiguous_run_in_bounds; eassumption.
Qed.

(** C1 as stated fails: a bomb whose origin is outside the margin (a
    player at the right edge, x = 992, drops a bomb that snaps to
    x = 1024) has its origin cell returned all the same. *)
Lemma calculateExplosion_origin_outside :
  snapToGrid 992 = 1024
  /\ In (1024, 64) (calculateExplosion [] 1024 64 3)
  /\ cellInBounds (1024, 64) = false.
Proof. repeat split. left; reflexivity. Qed.

(* ================================================================= *)
(** ** Power-up collection *)

(** C9: [collectPowerUp] never looks at positions. Whenever the power-up
    exists and the player is seated and alive, the call succeeds. The
    player gets the effect of the power-up's type and nothing else of the
    player changes: speed, the multiplier (in tenths) plus 3, capped at
    20; bombs, the capacity and the bombs tally plus 1; power, the blast
    power and the power tally plus 1; health, plus 30, capped at 100. The
    power-up is removed; the other players, the other power-ups, the
    bombs, the blocks and the phase are as before. And the same call gives
    the same player, at the new position, wherever the player has been
    moved to beforehand. *)
Theorem collectPowerUp_no_proximity_check :
  forall (r : GameRoom) (playerId : Z) (powerUpId : PowerUpId)
         (player : Player) (powerUp : PowerUp),
    JSMap.get powerUpId (powerUps r) = Some powerUp ->
    JSMap.get playerId (players r) = Some player ->
    p_isAlive player = true ->
    exists r' player',
      collectPowerUp r playerId powerUpId = (true, r')
      /\ JSMap.get playerId (players r') = Some player'
      /\ JSMap.get powerUpId (powerUps r') = None
      /\ match u_type powerUp with
         | pu_speed =>
             t_speed (p_powerUps player')
             = Z.min (t_speed (p_powerUps player) + 3) 20
             /\ t_bombs (p_powerUps player') = t_bombs (p_powerUps player)
             /\ t_power (p_powerUps player') = t_power (p_powerUps player)
             /\ p_bombCapacity player' = p_bombCapacity player
             /\ p_bombPower player' = p_bombPower player
             /\ p_health player' = p_health player
         | pu_bombs =>
             p_bombCapacity player' = p_bombCapacity player + 1
             /\ t_bombs (p_powerUps player') = t_bombs (p_powerUps player) + 1
             /\ t_speed (p_powerUps player') = t_speed (p_powerUps player)
             /\ t_power (p_powerUps player') = t_power (p_powerUps player)
             /\ p_bombPower player' = p_bombPower player
             /\ p_health player' = p_health player
         | pu_power =>
             p_bombPower player' = p_bombPower player + 1
             /\ t_power (p_powerUps player') = t_power (p_powerUps player) + 1
             /\ t_speed (p_powerUps player') = t_speed (p_powerUps player)
             /\ t_bombs (p_powerUps player') = t_bombs (p_powerUps player)
             /\ p_bombCapacity player' = p_bombCapacity player
             /\ p_health player' = p_health player
         | pu_health =>
             p_health player' = Z.min (p_health player + 30) 100
             /\ p_powerUps player' = p_powerUps player
             /\ p_bombCapacity player' = p_bombCapacity player
             /\ p_bombPower player' = p_bombPower player
         end
      /\ (p_id player', p_socket player', p_name player')
         = (p_id player, p_socket player, p_name player)
      /\ (p_x player', p_y player') = (p_x player, p_y player)
      /\ p_isAlive player' = true
      /\ p_bombCount player' = p_bombCount player
      /\ (forall k, k <> playerId ->
                    JSMap.get k (players r') = JSMap.get k (players r))
      /\ (forall id, id <> powerUpId ->
                     JSMap.get id (powerUps r') = JSMap.get id (powerUps r))
      /\ bombs r' = bombs r
      /\ destructibleBlocks r' = destructibleBlocks r
      /\ gameState r' = gameState r
      /\ forall x y : Z,
          let moved := set_players r
                         (JSMap.mutate playerId (fun p => with_pos p x y)
                                       (players r)) in
          exists r'',
            collectPowerUp moved playerId powerUpId = (true, r'')
            /\ JSMap.get playerId (players r'') = Some (with_pos player' x y)
            /\ JSMap.get powerUpId (powerUps r'') = None.
Proof.
  intros r playerId powerUpId player powerUp Hu Hp Halive.
  exists (set_powerUps
            (set_players r
               (JSMap.mutate playerId (applyPowerUp (u_type powerUp)) (players r)))
            (JSMap.delete powerUpId (powerUps r))),
         (applyPowerUp (u_type powerUp) player).
  split; [unfold collectPowerUp; now rewrite Hu, Hp, Halive|].
  cbn [players powerUps bombs destructibleBlocks gameState set_players set_powerUps].
  split; [now rewrite get_mutate, Hp|].
  split; [apply get_delete_same|].
  split; [destruct (u_type powerUp); cbn; repeat split|].
  split; [destruct (u_type powerUp); reflexivity|].
  split; [destruct (u_type powerUp); reflexivity|].
  split; [destruct (u_type powerUp); exact Halive|].
  split; [destruct (u_type powerUp); reflexivity|].
  split; [intros k Hk; apply get_mutate_other; congruence|].
  split; [intros id Hid; apply get_delete_other; congruence|].
  do 3 (split; [reflexivity|]).
  intros x y. unfold collectPowerUp.
  cbn [players powerUps set_players]. rewrite Hu, get_mutate, Hp.
  cbn [option_map p_isAlive with_pos]. rewrite Halive. cbn [negb].
  eexists. split; [reflexivity|].
  cbn [players powerUps set_players set_powerUps]. split.
  - rewrite !get_mutate, Hp. cbn [option_map]. f_equal.
    destruct (u_type powerUp); reflexivity.
  - apply get_delete_same.
Qed.

(** A player in the top-left corner, at health 50, collects a health
    power-up lying at the other end of the arena: the health becomes 80
    and the player has not moved. *)
Lemma collectPowerUp_no_proximity_check_witness :
  let far := {| u_id := (5000, 1); u_type := pu_health;
                u_x := 868; u_y := 612; u_spawnedAt := 5000 |} in
  let r := sampleRoom playing
             [(1, samplePlayer 1 "s1" 64 64 50 true)] [] [((5000, 1), far)] in
  exists r' player',
    collectPowerUp r 1 (5000, 1) = (true, r')
    /\ JSMap.get 1 (players r') = Some player'
    /\ JSMap.get (5000, 1) (powerUps r') = None
    /\ p_health player' = 80
    /\ (p_x player', p_y player') = (64, 64).
Proof.
  intros far r.
  destruct (@collectPowerUp_no_proximity_check r 1 (5000, 1)
              (samplePlayer 1 "s1" 64 64 50 true) far
              eq_refl eq_refl eq_refl)
    as (r' & player' & Hc & Hg & Hn & Heff & _ & Hpos & _).
  exists r', player'.
  split; [exact Hc|]. split; [exact Hg|]. split; [exact Hn|].
  split; [exact (proj1 Heff) | exact Hpos].
Defined.

(* ================================================================= *)
(** ** Duplicate joins (server.js) *)

(** C10: in server.js a [joinRoom] from a connection that is already bound
    to a room returns at once: the whole state of the process (rooms,
    registries, timers) is unchanged and nothing is emitted. *)
Theorem joinRoom_duplicate_ignored :
  forall (w : World) (s : SocketId) (now : Z) (data : JoinData)
         (binding : RoomId * Z),
    JSMap.get s (playerSockets w) = Some binding ->
    Root.onJoinRoom w s now data = Normal (w, []).
Proof.
  intros w s now data binding Hb. unfold Root.onJoinRoom. now rewrite Hb.
Qed.

Lemma joinRoom_duplicate_ignored_witness :
  let w := set_playerSockets (init RootServer) [("s1", (firstRoom, 1))] in
  Root.onJoinRoom w "s1" 5000 (named firstRoom "A") = Normal (w, []).
Proof.
  intros w.
  exact (@joinRoom_duplicate_ignored w "s1" 5000 (named firstRoom "A")
           (firstRoom, 1) eq_refl).
Defined.

(* ================================================================= *)
(** ** Moves *)

Lemma updatePlayer_rejects : forall r playerId ux uy,
    (JSMap.get playerId (players r) = None
     \/ exists p, JSMap.get playerId (players r) = Some p /\ p_isAlive p = false) ->
    updatePlayer r playerId ux uy = (false, r).
Proof.
  intros r playerId ux uy [Hn | (p & Hp & Hd)]; unfold updatePlayer.
  - now rewrite Hn.
  - now rewrite Hp, Hd.
Qed.

(** A target whose coordinates are both non-zero is clamped and applied. *)
Lemma updatePlayer_clamps : forall r playerId p tx ty,
    JSMap.get playerId (players r) = Some p ->
    p_isAlive p = true ->
    tx <> 0 -> ty <> 0 ->
    exists r',
      updatePlayer r playerId (Some tx) (Some ty) = (true, r')
      /\ JSMap.get playerId (players r')
         = Some (with_pos p (Z.max 32 (Z.min (1024 - 32) tx))
                            (Z.max 32 (Z.min (768 - 32) ty))).
Proof.
  intros r playerId p tx ty Hp Ha Hx Hy. unfold updatePlayer.
  rewrite Hp, Ha. eexists; split; [reflexivity|]. simpl.
  rewrite get_mutate, Hp. simpl.
  destruct tx; [contradiction| |]; (destruct ty; [contradiction| |]); reflexivity.
Qed.

(** C7, the failing input: a living player at (500, 300) is sent the
    target (0, 0). The move is accepted and the position stays (500, 300),
    where clamping the target would give (32, 32). *)
Theorem updatePlayer_zero_target :
  let r := sampleRoom playing [(1, samplePlayer 1 "s1" 500 300 100 true)] [] [] in
  exists r',
    updatePlayer r 1 (Some 0) (Some 0) = (true, r')
    /\ option_map (fun p => (p_x p, p_y p)) (JSMap.get 1 (players r'))
       = Some (500, 300)
    /\ (Z.max 32 (Z.min (1024 - 32) 0), Z.max 32 (Z.min (768 - 32) 0)) = (32, 32).
Proof. intros r. eexists. repeat split. Qed.

(* ================================================================= *)
(** ** Joining and leaving *)

Lemma findBySocket_In : forall s ps k,
    findBySocket s ps = Some k -> exists p, In (k, p) ps /\ p_socket p = s.
Proof.
  intros s ps k; induction ps as [|[k1 p1] ps IH]; simpl; [discriminate|].
  destruct (String.eqb (p_socket p1) s) eqn:E.
  - intros [= ->]. exists p1. split; [now left|]. now apply String.eqb_eq.
  - intros Hf. destruct (IH Hf) as (p & Hin & Hs). exists p. split; [now right|auto].
Qed.

(** A join that succeeds takes the slot numbered one more than the number
    of seated players. *)
Lemma addPlayer_slot : forall v r s name p r',
    addPlayer v r s name = Normal (Some p, r') ->
    p_id p = JSMap.size (players r) + 1
    /\ players r' = JSMap.set (p_id p) p (players r).
Proof.
  intros v r s name p r'. unfold addPlayer.
  destruct (JSMap.size (players r) >=? maxPlayers r); [discriminate|].
  destruct (nth_error spawnPositions _) as [[sx sy]|]; [|discriminate].
  intros [= <- <-]. split; reflexivity.
Qed.

(** Removing a player leaves the other slots as they were. *)
Lemma removePlayer_other_slots : forall r s removed r',
    removePlayer r s = (Some removed, r') ->
    forall k, k <> removed ->
              JSMap.get k (players r') = JSMap.get k (players r).
Proof.
  intros r s removed r'. unfold removePlayer.
  destruct (findBySocket s (players r)) as [k0|]; [|discriminate].
  intros [= <- <-] k Hk. simpl. now apply get_delete_other.
Qed.

(** C2, the failing input: A and B join, A leaves, C joins. C is given
    slot 2, the slot B holds, and B's player object is replaced: the room
    is left with the single slot 2, bound to C's connection. *)
Theorem addPlayer_reuses_slot :
  forall v : variant,
  let r0 := newGameRoom noRandom (1000, 7) 4 in
  exists a b c r1 r2 r3 r4,
    addPlayer v r0 "s1" (Some "A"%string) = Normal (Some a, r1)
    /\ addPlayer v r1 "s2" (Some "B"%string) = Normal (Some b, r2)
    /\ removePlayer r2 "s1" = (Some 1, r3)
    /\ addPlayer v r3 "s3" (Some "C"%string) = Normal (Some c, r4)
    /\ p_id b = 2 /\ p_id c = 2
    /\ JSMap.get 2 (players r3) = Some b
    /\ map (fun e => (fst e, p_socket (snd e), p_name (snd e))) (players r4)
       = [(2, "s3", "C")]%string.
Proof.
  intros v r0. destruct v; do 7 eexists; repeat split.
Qed.

(** The slot reuse of C2 seen from the connections (server.js): after A
    has left and C has joined, slot 2 is bound to C's connection while B's
    connection is still registered for slot 2. *)
Example slot_reuse_on_the_wire :
  let trace := [ turn 0 (Connect "s1"); turn 0 (Connect "s2");
                 turn 0 (Connect "s3");
                 turn 1000 (Recv "s1" (MCreateRoom (named (0, 0) "A")));
                 turn 1100 (Recv "s2" (MJoinRoom (named firstRoom "B")));
                 turn 1200 (Disconnect "s1");
                 turn 1300 (Recv "s3" (MJoinRoom (named firstRoom "C"))) ] in
  option_map seating (stateAfter RootServer trace) = Some [[(2, "s3", "C")]]
  /\ option_map playerSockets (stateAfter RootServer trace)
     = Some [("s2", (firstRoom, 2)); ("s3", (firstRoom, 2))].
Proof. intros trace. split; vm_compute; reflexivity. Qed.

(* ================================================================= *)
(** ** Detonation *)

Lemma get_mutate_all : forall (V : Type) (f : V -> V) (k : Z) (m : list (Z * V)),
    JSMap.get k (JSMap.mutate_all f m) = option_map f (JSMap.get k m).
Proof.
  intros V f k m; induction m as [|[k1 v1] m IH]; simpl; [reflexivity|].
  destruct (k =? k1); [reflexivity | exact IH].
Qed.

Lemma checkWinCondition_fields : forall io r,
    let r' := fst (checkWinCondition io r) in
    players r' = players r /\ bombs r' = bombs r
    /\ powerUps r' = powerUps r
    /\ destructibleBlocks r' = destructibleBlocks r
    /\ (gameState r' = gameState r \/ gameState r' = finished).
Proof.
  intros io r. unfold checkWinCondition.
  destruct (_ <=? 1); simpl; auto 10.
Qed.

Lemma explodeBomb_absent : forall v io now rnd r bombId,
    JSMap.get bombId (bombs r) = None ->
    explodeBomb v io now rnd r bombId = (r, [], []).
Proof. intros. unfold explodeBomb. now rewrite H. Qed.

Lemma explodeBomb_present : forall v io now rnd r bombId bomb,
    JSMap.get bombId (bombs r) = Some bomb ->
    let areas := calculateExplosion (destructibleBlocks r)
                                    (b_x bomb) (b_y bomb) (b_power bomb) in
    exists r' out,
      explodeBomb v io now rnd r bombId
      = (r', out,
         map (ExplodeAfter 50)
             (chainBombs bombId areas (JSMap.delete bombId (bombs r))))
      /\ players r'
         = JSMap.mutate_all (damage areas)
             (JSMap.mutate (b_owner bomb)
                (fun owner =>
                   with_bombCount owner (decrementBombCount v (p_bombCount owner)))
                (players r))
      /\ bombs r' = JSMap.delete bombId (bombs r)
      /\ (gameState r' = gameState r \/ gameState r' = finished).
Proof.
  intros v io now rnd r bombId bomb Hb areas. unfold explodeBomb. rewrite Hb.
  fold areas.
  destruct (destroyBlocks rnd now areas 0 (destructibleBlocks r) (powerUps r))
    as [[kept destroyed] us].
  match goal with
  | |- context [checkWinCondition io ?r1] =>
      pose proof (checkWinCondition_fields io r1) as Hw;
      destruct (checkWinCondition io r1) as [r2 out2]
  end.
  simpl in Hw. destruct Hw as (Hp & Hbs & _ & _ & Hg).
  do 2 eexists. split; [reflexivity|]. auto.
Qed.

Lemma length_chainBombs : forall bombId areas bs,
    (List.length (chainBombs bombId areas bs) <= List.length bs)%nat.
Proof.
  intros. unfold chainBombs, JSMap.values.
  rewrite length_map.
  etransitivity; [apply filter_length_le|]. now rewrite length_map.
Qed.

Lemma chainBombs_live : forall bombId areas bs id,
    In id (chainBombs bombId areas bs) ->
    exists b, In b (JSMap.values bs) /\ b_id b = id /\ b_id b <> bombId.
Proof.
  intros bombId areas bs id Hin. unfold chainBombs in Hin.
  apply in_map_iff in Hin. destruct Hin as (b & <- & Hf).
  apply filter_In in Hf. destruct Hf as (Hb & Hc).
  exists b. repeat split; trivial.
  apply andb_true_iff in Hc. destruct Hc as (Hne & _).
  intros E. rewrite E in Hne. rewrite keqb_refl in Hne. discriminate.
Qed.

Lemma length_remove_nth : forall (A : Type) (l : list A) n a,
    nth_error l n = Some a ->
    List.length l = S (List.length (remove_nth n l)).
Proof.
  intros A l; induction l as [|a0 l IH]; intros [|n] a; simpl;
    try discriminate; auto.
  intros Hn. f_equal. eauto.
Qed.

Lemma In_remove_nth : forall (A : Type) (l : list A) n a b,
    nth_error l n = Some a -> In b l -> b <> a -> In b (remove_nth n l).
Proof.
  intros A l; induction l as [|a0 l IH]; intros [|n] a b; simpl;
    try discriminate.
  - intros [= ->] [E | Hin] Hne; [congruence | exact Hin].
  - intros Hn [E | Hin] Hne; [now left | right; eauto].
Qed.

Lemma fireDetonation_measure : forall v io now rnd st n st',
    fireDetonation v io now rnd st n = Some st' ->
    (pendingMeasure st' < pendingMeasure st)%nat.
Proof.
  intros v io now rnd [r pending] n st'. unfold fireDetonation, pendingMeasure.
  simpl. destruct (nth_error pending n) as [bombId|] eqn:Hn; [|discriminate].
  pose proof Hn as Hlen. apply length_remove_nth in Hlen.
  destruct (JSMap.get bombId (bombs r)) as [bomb|] eqn:Hb.
  - destruct (@explodeBomb_present v io now rnd r bombId bomb Hb)
      as (r' & out & Heq & _ & Hbs & _).
    rewrite Heq. intros [= <-]. simpl.
    rewrite length_app, !length_map, Hbs.
    pose proof (length_chainBombs bombId
                  (calculateExplosion (destructibleBlocks r)
                     (b_x bomb) (b_y bomb) (b_power bomb))
                  (JSMap.delete bombId (bombs r))) as Hc.
    pose proof Hb as Hd. apply length_delete_lt in Hd.
    nia.
  - rewrite (@explodeBomb_absent v io now rnd r bombId Hb).
    intros [= <-]. simpl. rewrite app_nil_r. lia.
Qed.

Lemma chain_steps_bounded : forall v n st st',
    chain_steps v n st st' ->
    (n + pendingMeasure st' <= pendingMeasure st)%nat.
Proof.
  intros v n st st' Hs; induction Hs as [st | n st st1 st2 Hstep _ IH].
  - lia.
  - destruct Hstep as [io now rnd st k st1 Hf].
    apply fireDetonation_measure in Hf. lia.
Qed.

Lemma chain_step_Acc : forall v st, Acc (fun b a => chain_step v a b) st.
Proof.
  intros v st.
  remember (S (pendingMeasure st)) as bound eqn:Hb.
  assert (Hlt : (pendingMeasure st < bound)%nat) by lia. clear Hb.
  revert st Hlt. induction bound as [|bound IH]; intros st Hlt; [lia|].
  constructor. intros st' Hstep. apply IH.
  destruct Hstep as [io now rnd st k st' Hf].
  apply fireDetonation_measure in Hf. lia.
Qed.

Lemma keys_delete : forall (m : list (BombId * Bomb)) k k',
    In k' (JSMap.keys (JSMap.delete k m)) ->
    In k' (JSMap.keys m) /\ k' <> k.
Proof.
  intros m k k' Hin. unfold JSMap.keys, JSMap.delete in *.
  apply in_map_iff in Hin. destruct Hin as ([k1 b1] & E & Hf). simpl in E; subst k1.
  apply filter_In in Hf. destruct Hf as (Hin & Hne). cbn [fst] in Hne.
  split.
  - apply in_map_iff. now exists (k', b1).
  - intros ->. rewrite keqb_refl in Hne. discriminate.
Qed.

Lemma keys_get : forall (m : list (BombId * Bomb)) k,
    In k (JSMap.keys m) -> JSMap.get k m <> None.
Proof.
  intros m k Hin. unfold JSMap.keys in Hin.
  apply in_map_iff in Hin. destruct Hin as ([k1 b1] & E & Hin). simpl in E; subst.
  apply In_get in Hin. destruct Hin as (b' & Hg). congruence.
Qed.

Lemma fireDetonation_covered : forall v io now rnd st n st',
    fireDetonation v io now rnd st n = Some st' ->
    covered st -> covered st'.
Proof.
  intros v io now rnd [r pending] n st'. unfold fireDetonation, covered. simpl.
  destruct (nth_error pending n) as [bombId|] eqn:Hn; [|discriminate].
  destruct (JSMap.get bombId (bombs r)) as [bomb|] eqn:Hb.
  - destruct (@explodeBomb_present v io now rnd r bombId bomb Hb)
      as (r' & out & Heq & _ & Hbs & _).
    rewrite Heq. intros [= <-] Hcov id Hin. simpl in *.
    rewrite Hbs in Hin. apply keys_delete in Hin. destruct Hin as (Hin & Hne).
    apply in_or_app; left. eapply In_remove_nth; eauto.
  - rewrite (@explodeBomb_absent v io now rnd r bombId Hb).
    intros [= <-] Hcov id Hin. simpl in *.
    apply in_or_app; left. eapply In_remove_nth; eauto.
    intros ->. now apply keys_get in Hin.
Qed.

Lemma drain_total : forall v io rnd fuel now st,
    (pendingMeasure st <= fuel)%nat ->
    exists r', drain v io now rnd fuel st = Some r'
               /\ (covered st -> bombs r' = []).
Proof.
  intros v io rnd fuel; induction fuel as [|fuel IH]; intros now [r pending] Hm.
  - unfold pendingMeasure in Hm; simpl in Hm.
    destruct pending as [|id pending]; simpl in *; [|lia].
    exists r. split; [reflexivity|]. intros Hcov.
    destruct (bombs r) as [|[k b] bs] eqn:E; [reflexivity|].
    exfalso. apply (Hcov k). unfold covered in Hcov. simpl. rewrite E. now left.
  - destruct pending as [|id pending].
    + simpl. exists r. split; [reflexivity|]. intros Hcov.
      destruct (bombs r) as [|[k b] bs] eqn:E; [reflexivity|].
      exfalso. apply (Hcov k). simpl. rewrite E. now left.
    + cbn [drain snd].
      destruct (fireDetonation v io now rnd (r, id :: pending) 0) as [st'|] eqn:Hf.
      * pose proof Hf as Hlt. apply fireDetonation_measure in Hlt.
        destruct (IH (now + 50) st') as (r' & Hd & Hfin); [lia|].
        exists r'. split; [exact Hd|]. intros Hcov. apply Hfin.
        eapply fireDetonation_covered; eauto.
      * exfalso. unfold fireDetonation in Hf. simpl in Hf.
        destruct (explodeBomb v io now rnd r id) as [[? ?] ?]. discriminate.
Qed.

(** C8: a chain reaction ends. A detonation of a bomb id that is not in
    the room changes nothing, emits nothing and schedules nothing. A
    detonation of a live bomb deletes it first, so the number of bombs goes
    down by at least one, the callbacks it schedules name bombs that are
    still live and differ from it, and detonating the same id again does
    nothing. With no bomb being placed, every run of pending detonation
    callbacks, fired in any order, is no longer than the number of pending
    callbacks plus the square of the number of bombs, so no run is
    infinite; firing them until none is left always succeeds, and when
    every live bomb had a callback pending the room ends with no bomb. *)
Theorem chain_reaction_terminates :
  forall v : variant,
    (forall io now rnd r bombId,
        JSMap.get bombId (bombs r) = None ->
        explodeBomb v io now rnd r bombId = (r, [], []))
    /\ (forall io now rnd r bombId bomb,
           JSMap.get bombId (bombs r) = Some bomb ->
           exists r' out ts,
             explodeBomb v io now rnd r bombId = (r', out, ts)
             /\ bombs r' = JSMap.delete bombId (bombs r)
             /\ JSMap.get bombId (bombs r') = None
             /\ (List.length (bombs r') < List.length (bombs r))%nat
             /\ Forall (fun t => exists b, In b (JSMap.values (bombs r'))
                                           /\ b_id b = timerBomb t
                                           /\ timerBomb t <> bombId) ts
             /\ explodeBomb v io now rnd r' bombId = (r', [], []))
    /\ (forall n st st',
           chain_steps v n st st' ->
           (n + pendingMeasure st' <= pendingMeasure st)%nat)
    /\ (forall st, Acc (fun b a => chain_step v a b) st)
    /\ (forall io now rnd st,
           exists r', drain v io now rnd (pendingMeasure st) st = Some r'
                      /\ (covered st -> bombs r' = [])).
Proof.
  intros v. split; [|split; [|split; [|split]]].
  - intros. now apply explodeBomb_absent.
  - intros io now rnd r bombId bomb Hb.
    destruct (@explodeBomb_present v io now rnd r bombId bomb Hb)
      as (r' & out & Heq & _ & Hbs & _).
    exists r', out. eexists. split; [exact Heq|].
    assert (Hgone : JSMap.get bombId (bombs r') = None)
      by (rewrite Hbs; apply get_delete_same).
    split; [exact Hbs|]. split; [exact Hgone|]. split.
    { rewrite Hbs. eapply length_delete_lt; eauto. }
    split.
    { apply Forall_forall. intros t Ht.
      apply in_map_iff in Ht. destruct Ht as (id & <- & Hin).
      rewrite <- Hbs in Hin. apply chainBombs_live in Hin.
      destruct Hin as (b & Hb1 & Hb2 & Hb3). exists b. simpl.
      repeat split; congruence. }
    now apply explodeBomb_absent.
  - apply chain_steps_bounded.
  - apply chain_step_Acc.
  - intros io now rnd st. now apply drain_total.
Qed.

(** On [twoBombs] the first bomb schedules the second one 50 ms later, and
    firing the two fuses and the chained callback empties the room. *)
Example chain_reaction_two_bombs :
  snd (explodeBomb RootServer [] 7000 noRandom twoBombs (4000, 1))
  = [ExplodeAfter 50 (4001, 1)]
  /\ covered (twoBombs, [(4000, 1); (4001, 1)])
  /\ option_map bombs
       (drain RootServer [] 7000 noRandom
              (pendingMeasure (twoBombs, [(4000, 1); (4001, 1)]))
              (twoBombs, [(4000, 1); (4001, 1)]))
     = Some [].
Proof.
  split; [reflexivity|]. split; [|reflexivity].
  intros id Hin. simpl in Hin. simpl. tauto.
Qed.

(** The theorem at [twoBombs]: the first bomb goes, and draining the two
    fuses empties the room. *)
Lemma chain_reaction_terminates_witness :
  (exists r' out ts,
      explodeBomb RootServer [] 7000 noRandom twoBombs (4000, 1) = (r', out, ts)
      /\ JSMap.keys (bombs r') = [(4001, 1)]
      /\ explodeBomb RootServer [] 7000 noRandom r' (4000, 1) = (r', [], []))
  /\ (exists r',
         drain RootServer [] 7000 noRandom
               (pendingMeasure (twoBombs, [(4000, 1); (4001, 1)]))
               (twoBombs, [(4000, 1); (4001, 1)]) = Some r'
         /\ bombs r' = []).
Proof.
  destruct (chain_reaction_terminates RootServer) as (_ & H2 & _ & _ & H5).
  split.
  - destruct (H2 [] 7000 noRandom twoBombs (4000, 1)
                 (sampleBomb (4000, 1) 512 384) eq_refl)
      as (r' & out & ts & He & Hb & _ & _ & _ & Hagain).
    exists r', out, ts. split; [exact He|]. split; [|exact Hagain].
    rewrite Hb. reflexivity.
  - destruct (H5 [] 7000 noRandom (twoBombs, [(4000, 1); (4001, 1)]))
      as (r' & Hd & Hc).
    exists r'. split; [exact Hd|]. apply Hc.
    intros id Hin. simpl in Hin. simpl. tauto.
Defined.

(* ----------------------------------------------------------------- *)
(** *** The owner's live-bomb counter *)

Lemma damage_bombCount : forall areas p,
    p_bombCount (damage areas p) = p_bombCount p.
Proof.
  intros areas p. unfold damage.
  destruct (p_isAlive p); simpl; [|reflexivity].
  destruct (within40 _ _ _); reflexivity.
Qed.

(** The standalone server floors the counter: after a detonation the
    owner's counter is never negative. *)
Lemma explodeBomb_standalone_floor : forall io now rnd r bombId bomb owner',
    JSMap.get bombId (bombs r) = Some bomb ->
    JSMap.get (b_owner bomb)
              (players (fst (fst (explodeBomb StandaloneServer io now rnd r bombId))))
    = Some owner' ->
    0 <= p_bombCount owner'.
Proof.
  intros io now rnd r bombId bomb owner' Hb.
  destruct (@explodeBomb_present StandaloneServer io now rnd r bombId bomb Hb)
    as (r' & out & Heq & Hps & _).
  rewrite Heq. simpl. rewrite Hps, get_mutate_all, get_mutate.
  destruct (JSMap.get (b_owner bomb) (players r)) as [o|]; simpl; [|discriminate].
  intros [= <-]. rewrite damage_bombCount. simpl. lia.
Qed.

(** C6, the failing input (server.js): on [trace_slot_reuse] the bomb
    dropped by the first holder of slot 3 goes off after slot 3 has been
    given to a new player; the decrement is applied to the new player,
    whose counter goes from 0 to -1. *)
Theorem explodeBomb_root_negative_bombCount :
  option_map bombCounts (stateAfter RootServer (removelast trace_slot_reuse))
  = Some [[(2, 0); (3, 0)]]
  /\ option_map bombCounts (stateAfter RootServer trace_slot_reuse)
     = Some [[(2, 0); (3, -1)]]
  /\ option_map seating (stateAfter RootServer trace_slot_reuse)
     = Some [[(2, "s2", "B"); (3, "s4", "D")]].
Proof. repeat split; vm_compute; reflexivity. Qed.

(* ================================================================= *)
(** ** Rejoining (standalone server) *)

Lemma findSlot_get : forall old ps playerId,
    Standalone.findSlot old ps = Some playerId ->
    exists p, JSMap.get playerId ps = Some p.
Proof.
  intros old ps playerId; induction ps as [|[k1 p1] ps IH]; simpl; [discriminate|].
  destruct (String.eqb (p_name p1) (td_playerName old) && (k1 =? td_playerId old)).
  - intros [= ->]. rewrite Z.eqb_refl. eauto.
  - intros Hf. destruct (playerId =? k1); eauto.
Qed.

Lemma broadcastToRoom_event : forall io r ev e,
    In e (broadcastToRoom io r ev) -> snd e = ev.
Proof.
  intros io r ev e Hin. unfold broadcastToRoom in Hin.
  apply in_flat_map in Hin. destruct Hin as (p & _ & Hin).
  destruct (isOpen io (p_socket p)); [|contradiction].
  destruct Hin as [<- | []]. reflexivity.
Qed.

Lemma keys_mutate : forall (V : Type) (k : Z) (f : V -> V) (m : list (Z * V)),
    JSMap.keys (JSMap.mutate k f m) = JSMap.keys m.
Proof.
  intros V k f m. unfold JSMap.keys, JSMap.mutate. rewrite map_map.
  apply map_ext. intros [k1 v1]; simpl. now destruct (k =? k1).
Qed.

(** C3 (as amended): when the first transition record that matches the
    join (same room, and same name or same slot number) names a slot that
    still holds a player of the recorded name, the join is a resume: the
    slot's connection is rebound to the joining connection and no slot is
    added, the record is removed, [roomJoined] is sent to the joiner, no
    [playerJoined] is emitted; and when the room is playing the joiner is
    sent [gameStarted] with a snapshot, after which [gameStateUpdate] with
    the snapshot is broadcast to every open connection seated in the
    room. *)
Theorem rejoin_resumes_slot :
  forall (w : World) (s : SocketId) (now : Z) (data : JoinData)
         (ref : nat) (room : GameRoom) (oldSocketId : SocketId)
         (transData : TransitionData) (playerId : Z),
    JSMap.get (jd_roomId data) (gameRooms w) = Some ref ->
    nth_error (heap w) ref = Some room ->
    find (Standalone.matchesJoin data) (transitioningPlayers w)
    = Some (oldSocketId, transData) ->
    Standalone.findSlot transData (players room) = Some playerId ->
    exists player w' out,
      let room' := set_players room
                     (JSMap.mutate playerId (fun p => with_socket p s)
                                   (players room)) in
      let gs := getGameState room' in
      Standalone.onJoinRoom w s now data = (w', out)
      /\ JSMap.get playerId (players room') = Some player
      /\ p_socket player = s
      /\ JSMap.keys (players room') = JSMap.keys (players room)
      /\ heap w' = store ref room' (heap w)
      /\ transitioningPlayers w'
         = JSMap.delete oldSocketId (transitioningPlayers w)
      /\ out = (s, EvRoomJoined (p_id player) gs (Some true))
                 :: (if Phase_eqb (gameState room) playing
                     then (s, EvGameStarted gs)
                            :: broadcastToRoom (io w) room' (EvGameStateUpdate gs)
                     else [])
      /\ Forall (fun e => eventName (snd e) <> "playerJoined") out.
Proof.
  intros w s now data ref room oldSocketId transData playerId Hg Hh Hf Hslot.
  destruct (findSlot_get _ _ Hslot) as (p0 & Hp0).
  exists (with_socket p0 s).
  unfold Standalone.onJoinRoom. rewrite Hg, Hh, Hf.
  unfold Standalone.rejoinTransitioningPlayer. rewrite Hslot.
  rewrite get_mutate, Hp0. cbn [option_map].
  do 2 eexists. cbn zeta. split; [reflexivity|].
  split; [cbn [players set_players]; now rewrite get_mutate, Hp0|].
  split; [reflexivity|].
  split; [cbn [players set_players]; apply keys_mutate|].
  split; [reflexivity|].
  split; [reflexivity|].
  split.
  - cbn [gameState set_players]. destruct (Phase_eqb (gameState room) playing); reflexivity.
  - cbn [gameState set_players].
    destruct (Phase_eqb (gameState room) playing); cbn [app].
    + constructor; [discriminate|]. constructor; [discriminate|].
      apply Forall_forall. intros e He.
      apply broadcastToRoom_event in He. rewrite He. discriminate.
    + constructor; [discriminate|]. constructor.
Qed.

Lemma reachable_stateAfter : forall v trace w,
    stateAfter v trace = Some w -> reachable v w.
Proof.
  intros v trace w. unfold stateAfter, reachable.
  destruct (run v (init v) trace) as [[w0 out]|] eqn:E; [|discriminate].
  simpl. intros [= <-]. exists trace, out. exact E.
Qed.

(** The join that resumes A's slot in [droppedWorld], the state reached
    by [trace_drop]. *)
Lemma rejoin_resumes_slot_witness :
  stateAfter StandaloneServer trace_drop = Some droppedWorld
  /\ exists room player w' out,
      nth_error (heap droppedWorld) 0 = Some room
      /\ Standalone.onJoinRoom droppedWorld "s3" 6000 (named firstRoom "A")
         = (w', out)
      /\ JSMap.get 1 (players (set_players room
                                 (JSMap.mutate 1 (fun p => with_socket p "s3")
                                               (players room)))) = Some player
      /\ p_socket player = "s3"
      /\ Forall (fun e => eventName (snd e) <> "playerJoined") out.
Proof.
  split; [vm_compute; reflexivity|].
  destruct (@rejoin_resumes_slot droppedWorld "s3" 6000 (named firstRoom "A")
              O (nth O (heap droppedWorld) (sampleRoom waiting [] [] []))
              "s1"
              {| td_roomId := firstRoom; td_playerId := 1;
                 td_playerName := "A"; td_transitionStart := 3100 |}
              1 eq_refl eq_refl eq_refl eq_refl)
    as (player & w' & out & Hj & Hp & Hsock & _ & _ & _ & _ & Hno).
  exists (nth O (heap droppedWorld) (sampleRoom waiting [] [] [])), player, w', out.
  split; [reflexivity|]. repeat split; assumption.
Defined.

(** C3 as stated fails: when A resumes on [trace_drop] while the room is
    playing, B's connection [s2] is sent a [gameStateUpdate] snapshot as
    part of the rejoin. *)
Lemma rejoin_snapshot_reaches_others :
  emittedBy StandaloneServer trace_drop
            (turn 6000 (Recv "s3" (MJoinRoom (named firstRoom "A"))))
  = Some [("s3", "roomJoined"); ("s3", "gameStarted");
          ("s3", "gameStateUpdate"); ("s2", "gameStateUpdate")].
Proof. vm_compute. reflexivity. Qed.

(* ================================================================= *)
(** ** How a turn of the event loop changes the room objects *)

Lemma moves_one : forall v r r', room_move v r r' -> moves v r r'.
Proof. intros. eapply moves_step; [apply moves_refl | eassumption]. Qed.

Lemma moves_trans : forall v r1 r2 r3,
    moves v r1 r2 -> moves v r2 r3 -> moves v r1 r3.
Proof.
  intros v r1 r2 r3 H12 H23. induction H23 as [|r r' r'' _ IH Hmv]; [assumption|].
  eapply moves_step; [apply IH; assumption | exact Hmv].
Qed.

Lemma nth_error_store_same : forall (h : list GameRoom) ref r r0,
    nth_error h ref = Some r0 -> nth_error (store ref r h) ref = Some r.
Proof.
  intros h; induction h as [|a h IH]; intros [|ref] r r0; simpl;
    try discriminate; auto.
  apply IH.
Qed.

Lemma nth_error_store_other : forall (h : list GameRoom) ref ref' r,
    ref <> ref' -> nth_error (store ref r h) ref' = nth_error h ref'.
Proof.
  intros h; induction h as [|a h IH]; intros [|ref] [|ref'] r Hne; simpl;
    try reflexivity; try congruence.
  apply IH. congruence.
Qed.

Lemma evolves_refl : forall v h, evolves v h h.
Proof.
  intros v h. split.
  - intros ref r Hr. exists r. split; [assumption | apply moves_refl].
  - intros ref r' Hr Hn. congruence.
Qed.

Lemma evolves_trans : forall v h1 h2 h3,
    evolves v h1 h2 -> evolves v h2 h3 -> evolves v h1 h3.
Proof.
  intros v h1 h2 h3 [A1 B1] [A2 B2]. split.
  - intros ref r Hr. destruct (A1 _ _ Hr) as (r2 & Hr2 & M1).
    destruct (A2 _ _ Hr2) as (r3 & Hr3 & M2).
    exists r3. split; [assumption | eapply moves_trans; eauto].
  - intros ref r3 Hr3 Hn.
    destruct (nth_error h2 ref) as [r2|] eqn:Hr2.
    + destruct (B1 _ _ Hr2 Hn) as (rnd & rid & maxP & M1).
      destruct (A2 _ _ Hr2) as (r3' & Hr3' & M2).
      assert (r3' = r3) by congruence; subst.
      exists rnd, rid, maxP. eapply moves_trans; eauto.
    + eauto.
Qed.

Lemma evolves_store : forall v h ref r r',
    nth_error h ref = Some r -> moves v r r' ->
    evolves v h (store ref r' h).
Proof.
  intros v h ref r r' Hr M. split.
  - intros ref0 r0 Hr0. destruct (Nat.eq_dec ref ref0) as [<-|Hne].
    + exists r'. split; [eapply nth_error_store_same; eauto|]. congruence.
    + exists r0. split; [now rewrite nth_error_store_other | apply moves_refl].
  - intros ref0 r0 Hr0 Hn. destruct (Nat.eq_dec ref ref0) as [<-|Hne].
    + congruence.
    + rewrite nth_error_store_other in Hr0 by assumption. congruence.
Qed.

Lemma evolves_snoc : forall v h rnd rid maxP,
    evolves v h (h ++ [newGameRoom rnd rid maxP]).
Proof.
  intros v h rnd rid maxP. split.
  - intros ref r Hr. exists r. split; [|apply moves_refl].
    rewrite nth_error_app1; [assumption|].
    apply nth_error_Some. congruence.
  - intros ref r' Hr' Hn. apply nth_error_None in Hn.
    rewrite nth_error_app2 in Hr' by assumption.
    destruct (ref - List.length h)%nat as [|k]; simpl in Hr'.
    + injection Hr' as <-. exists rnd, rid, maxP. apply moves_refl.
    + destruct k; discriminate.
Qed.

Lemma Phase_eqb_eq : forall a b, Phase_eqb a b = true <-> a = b.
Proof. intros [] []; simpl; split; congruence. Qed.

Lemma playingRoomOf_sound : forall w s rid playerId ref room,
    playingRoomOf w s = Some (rid, playerId, ref, room) ->
    JSMap.get s (playerSockets w) = Some (rid, playerId)
    /\ JSMap.get rid (gameRooms w) = Some ref
    /\ nth_error (heap w) ref = Some room
    /\ gameState room = playing.
Proof.
  intros w s rid playerId ref room. unfold playingRoomOf.
  destruct (JSMap.get s (playerSockets w)) as [[rid0 pid0]|]; [|discriminate].
  destruct (JSMap.get rid0 (gameRooms w)) as [ref0|] eqn:Hg; [|discriminate].
  destruct (nth_error (heap w) ref0) as [room0|] eqn:Hh; [|discriminate].
  destruct (Phase_eqb (gameState room0) playing) eqn:Hp; [|discriminate].
  intros [= <- <- <- <-]. apply Phase_eqb_eq in Hp. auto.
Qed.

Ltac break_match :=
  match goal with
  | |- context [match ?x with _ => _ end] => destruct x eqn:?
  end.

Ltac break_if :=
  match goal with
  | |- context [if ?c then _ else _] => destruct c eqn:?
  end.

Ltac by_store H mv :=
  eapply evolves_store; [exact H | apply moves_one; eapply mv; eassumption].

Lemma onPlayerMove_evolves : forall v w s x y,
    evolves v (heap w) (heap (fst (onPlayerMove w s x y))).
Proof.
  intros v w s x y. unfold onPlayerMove.
  destruct (playingRoomOf w s) as [[[[rid pid] ref] room]|] eqn:Hp;
    [|apply evolves_refl].
  apply playingRoomOf_sound in Hp. destruct Hp as (_ & _ & Hh & Hg).
  destruct (updatePlayer room pid x y) as [[] room'] eqn:Hu;
    [|apply evolves_refl].
  simpl. by_store Hh mv_updatePlayer.
Qed.

Lemma onPlaceBomb_evolves : forall v w s now x y,
    evolves v (heap w) (heap (fst (onPlaceBomb w s now x y))).
Proof.
  intros v w s now x y. unfold onPlaceBomb.
  destruct (playingRoomOf w s) as [[[[rid pid] ref] room]|] eqn:Hp;
    [|apply evolves_refl].
  apply playingRoomOf_sound in Hp. destruct Hp as (_ & _ & Hh & Hg).
  destruct (placeBomb room pid x y now) as [[[bomb|] room'] ts] eqn:Hu;
    [|apply evolves_refl].
  simpl. by_store Hh mv_placeBomb.
Qed.

Lemma onCollectPowerUp_evolves : forall v w s powerUpId,
    evolves v (heap w) (heap (fst (onCollectPowerUp w s powerUpId))).
Proof.
  intros v w s powerUpId. unfold onCollectPowerUp.
  destruct (playingRoomOf w s) as [[[[rid pid] ref] room]|] eqn:Hp;
    [|apply evolves_refl].
  apply playingRoomOf_sound in Hp. destruct Hp as (_ & _ & Hh & Hg).
  destruct (collectPowerUp room pid powerUpId) as [[] room'] eqn:Hu;
    [|apply evolves_refl].
  simpl. by_store Hh mv_collectPowerUp.
Qed.

Lemma onCreateRoom_evolves : forall v w s now rnd data w' out,
    onCreateRoom v w s now rnd data = Normal (w', out) ->
    evolves v (heap w) (heap w').
Proof.
  intros v w s now rnd data w' out. unfold onCreateRoom.
  set (room := newGameRoom _ _ _).
  destruct (addPlayer v room s (jd_name data)) as [[[player|] room']|] eqn:Ha.
  - intros [= <- _]. simpl.
    eapply evolves_trans; [apply evolves_snoc|].
    eapply evolves_store.
    + rewrite nth_error_app2 by lia. rewrite Nat.sub_diag. reflexivity.
    + apply moves_one. eapply mv_addPlayer. exact Ha.
  - intros [= <- _]. simpl. apply evolves_snoc.
  - destruct v; [discriminate|]. intros [= <- _]. simpl. apply evolves_snoc.
Qed.

Lemma Root_onJoinRoom_evolves : forall w s now data w' out,
    Root.onJoinRoom w s now data = Normal (w', out) ->
    evolves RootServer (heap w) (heap w').
Proof.
  intros w s now data w' out. unfold Root.onJoinRoom.
  destruct (JSMap.get s (playerSockets w));
    [intros [= <- _]; apply evolves_refl|].
  destruct (JSMap.get (jd_roomId data) (gameRooms w)) as [ref|];
    [|intros [= <- _]; apply evolves_refl].
  destruct (nth_error (heap w) ref) as [room|] eqn:Hh;
    [|intros [= <- _]; apply evolves_refl].
  destruct (addPlayer RootServer room s (jd_name data))
    as [[[player|] room']|] eqn:Ha;
    [| intros [= <- _]; apply evolves_refl | discriminate].
  destruct (canStartGame room'); intros [= <- _]; simpl;
    by_store Hh mv_addPlayer.
Qed.

Lemma Root_onDisconnect_evolves : forall w s,
    evolves RootServer (heap w) (heap (fst (Root.onDisconnect w s))).
Proof.
  intros w s. unfold Root.onDisconnect.
  destruct (JSMap.get s (playerSockets w)) as [[rid pid]|]; [|apply evolves_refl].
  destruct (JSMap.get rid (gameRooms w)) as [ref|]; [|apply evolves_refl].
  destruct (nth_error (heap w) ref) as [room|] eqn:Hh; [|apply evolves_refl].
  destruct (removePlayer room s) as [[k|] room'] eqn:Hr; [|apply evolves_refl].
  break_if; simpl; by_store Hh mv_removePlayer.
Qed.

Lemma explode_evolves : forall v w ref now rnd bombId room,
    nth_error (heap w) ref = Some room ->
    forall res, explodeBomb v (io w) now rnd room bombId = res ->
    evolves v (heap w) (store ref (fst (fst res)) (heap w)).
Proof.
  intros v w ref now rnd bombId room Hh [[room' out] ts] He. simpl.
  by_store Hh mv_explodeBomb.
Qed.

Lemma Root_onTimer_evolves : forall w now rnd cb,
    evolves RootServer (heap w) (heap (fst (Root.onTimer w now rnd cb))).
Proof.
  intros w now rnd cb. unfold Root.onTimer.
  destruct cb as [ref bombId | ref | ref gs | ref | s rid pid | ];
    try apply evolves_refl;
    (destruct (nth_error (heap w) ref) as [room|] eqn:Hh; [|apply evolves_refl]).
  - destruct (explodeBomb RootServer (io w) now rnd room bombId)
      as [[room' out] ts] eqn:He.
    simpl. by_store Hh mv_explodeBomb.
  - destruct (canStartGame room) eqn:Hc; [|apply evolves_refl].
    simpl. by_store Hh mv_startGame.
  - apply evolves_refl.
  - destruct (Phase_eqb (gameState room) playing); apply evolves_refl.
Qed.

Lemma Standalone_onJoinRoom_evolves : forall w s now data,
    evolves StandaloneServer (heap w)
            (heap (fst (Standalone.onJoinRoom w s now data))).
Proof.
  intros w s now data. unfold Standalone.onJoinRoom.
  destruct (JSMap.get (jd_roomId data) (gameRooms w)) as [ref|];
    [|apply evolves_refl].
  destruct (nth_error (heap w) ref) as [room|] eqn:Hh; [|apply evolves_refl].
  destruct (find (Standalone.matchesJoin data) (transitioningPlayers w))
    as [[old td]|].
  - destruct (Standalone.rejoinTransitioningPlayer room s td)
      as [[player room']|] eqn:Hr.
    + simpl. by_store Hh mv_rejoin.
    + destruct (addPlayer StandaloneServer room s (jd_name data))
        as [[[player|] room']|] eqn:Ha; try apply evolves_refl.
      destruct (canStartGame room'); simpl; by_store Hh mv_addPlayer.
  - destruct (addPlayer StandaloneServer room s (jd_name data))
      as [[[player|] room']|] eqn:Ha; try apply evolves_refl.
    destruct (canStartGame room'); simpl; by_store Hh mv_addPlayer.
Qed.

Lemma removeFrom_evolves : forall w rid s,
    evolves StandaloneServer (heap w) (heap (fst (Standalone.removeFrom w rid s))).
Proof.
  intros w rid s. unfold Standalone.removeFrom.
  destruct (JSMap.get rid (gameRooms w)) as [ref|]; [|apply evolves_refl].
  destruct (nth_error (heap w) ref) as [room|] eqn:Hh; [|apply evolves_refl].
  destruct (removePlayer room s) as [[k|] room'] eqn:Hr; [|apply evolves_refl].
  break_if; simpl; by_store Hh mv_removePlayer.
Qed.

Lemma Standalone_onDisconnect_evolves : forall w s now,
    evolves StandaloneServer (heap w)
            (heap (fst (Standalone.onDisconnect w s now))).
Proof.
  intros w s now. unfold Standalone.onDisconnect.
  destruct (JSMap.get s (playerSockets w)) as [[rid pid]|]; [|apply evolves_refl].
  destruct (JSMap.get rid (gameRooms w)) as [ref|]; [|apply evolves_refl].
  destruct (JSMap.get s (transitioningPlayers w)); [apply evolves_refl|].
  pose proof (removeFrom_evolves w rid s) as He.
  destruct (Standalone.removeFrom w rid s) as [w1 out]. exact He.
Qed.

Lemma sweep_evolves : forall now (g : list (RoomId * nat)) h,
    evolves StandaloneServer h
      (fold_left
         (fun h e =>
            match nth_error h (snd e) with
            | Some room => store (snd e) (Standalone.cleanupOldPowerUps now room) h
            | None => h
            end) g h).
Proof.
  intros now g; induction g as [|[rid ref] g IH]; intros h; simpl.
  - apply evolves_refl.
  - eapply evolves_trans; [|apply IH].
    destruct (nth_error h ref) as [room|] eqn:Hh; [|apply evolves_refl].
    eapply evolves_store; [exact Hh|]. apply moves_one. apply mv_cleanup.
Qed.

Lemma Standalone_onTimer_evolves : forall w now rnd cb,
    evolves StandaloneServer (heap w)
            (heap (fst (Standalone.onTimer w now rnd cb))).
Proof.
  intros w now rnd cb. unfold Standalone.onTimer.
  destruct cb as [ref bombId | ref | ref gs | ref | s rid pid | ];
    try apply evolves_refl.
  - destruct (nth_error (heap w) ref) as [room|] eqn:Hh; [|apply evolves_refl].
    destruct (explodeBomb StandaloneServer (io w) now rnd room bombId)
      as [[room' out] ts] eqn:He.
    simpl. by_store Hh mv_explodeBomb.
  - destruct (nth_error (heap w) ref) as [room|] eqn:Hh; [|apply evolves_refl].
    destruct (canStartGame room) eqn:Hc; [|apply evolves_refl].
    simpl. by_store Hh mv_startGame.
  - destruct (JSMap.has s (transitioningPlayers w)); [|apply evolves_refl].
    apply (removeFrom_evolves
             (set_transitioning w (JSMap.delete s (transitioningPlayers w))) rid s).
  - simpl. apply sweep_evolves.
Qed.

Lemma step_evolves : forall v w tn w' out,
    step v w tn = Some (w', out) -> evolves v (heap w) (heap w').
Proof.
  intros v w tn w' out. unfold step.
  destruct (at_time tn <? clock w); [discriminate|].
  destruct (what tn) as [s | s m | s | n].
  - break_match; [discriminate|]. intros [= <- _]. apply evolves_refl.
  - break_match; [|discriminate].
    destruct (onMessage v (set_clock w (at_time tn)) s (at_time tn) (randoms tn) m)
      as [[w1 out1]|] eqn:Hm; [|discriminate].
    intros [= <- _]. unfold onMessage in Hm.
    destruct m as [data | data | x y | x y | powerUpId | ts].
    + apply onCreateRoom_evolves in Hm. exact Hm.
    + destruct v.
      * apply Root_onJoinRoom_evolves in Hm. exact Hm.
      * injection Hm as Hm.
        pose proof (Standalone_onJoinRoom_evolves (set_clock w (at_time tn)) s
                      (at_time tn) data) as He.
        rewrite Hm in He. exact He.
    + injection Hm as Hm.
      pose proof (onPlayerMove_evolves v (set_clock w (at_time tn)) s x y) as He.
      rewrite Hm in He. exact He.
    + injection Hm as Hm.
      pose proof (onPlaceBomb_evolves v (set_clock w (at_time tn)) s (at_time tn) x y) as He.
      rewrite Hm in He. exact He.
    + injection Hm as Hm.
      pose proof (onCollectPowerUp_evolves v (set_clock w (at_time tn)) s powerUpId) as He.
      rewrite Hm in He. exact He.
    + injection Hm as <- _. apply evolves_refl.
  - break_match; [|discriminate]. intros [= Hd].
    match type of Hd with
    | context [Root.onDisconnect ?w1 _] =>
        pose proof (Root_onDisconnect_evolves w1 s) as HeR;
        pose proof (Standalone_onDisconnect_evolves w1 s (at_time tn)) as HeS
    end.
    destruct v; rewrite Hd in *; simpl in *; assumption.
  - destruct (nth_error (timers (set_clock w (at_time tn))) n) as [[due cb]|];
      [|discriminate].
    destruct (due <=? at_time tn); [|discriminate]. intros [= Hd].
    match type of Hd with
    | context [Root.onTimer ?w1 _ _ _] =>
        pose proof (Root_onTimer_evolves w1 (at_time tn) (randoms tn) cb) as HeR;
        pose proof (Standalone_onTimer_evolves w1 (at_time tn) (randoms tn) cb) as HeS
    end.
    destruct v; rewrite Hd in *; simpl in *; assumption.
Qed.


(* ================================================================= *)
(** ** Health and phase along the moves of a room *)

Section ForallMap.
Context {K V : Type} {EK : EqKey K}.
Variable Q : V -> Prop.
Implicit Types (m : list (K * V)).

Lemma Forall_set : forall k v m,
    Q v -> Forall (fun e => Q (snd e)) m ->
    Forall (fun e => Q (snd e)) (JSMap.set k v m).
Proof.
  intros k v m Hv Hm; induction Hm as [|[k1 v1] m H1 Hm IH]; simpl.
  - constructor; [exact Hv | constructor].
  - destruct (keqb k k1); constructor; auto.
Qed.

Lemma Forall_delete : forall k m,
    Forall (fun e => Q (snd e)) m ->
    Forall (fun e => Q (snd e)) (JSMap.delete k m).
Proof.
  intros k m Hm. unfold JSMap.delete. rewrite Forall_forall in *.
  intros e He. apply filter_In in He. apply Hm. tauto.
Qed.

Lemma Forall_mutate : forall k f m,
    (forall v, Q v -> Q (f v)) ->
    Forall (fun e => Q (snd e)) m ->
    Forall (fun e => Q (snd e)) (JSMap.mutate k f m).
Proof.
  intros k f m Hf Hm. unfold JSMap.mutate.
  induction Hm as [|[k1 v1] m H1 Hm IH]; simpl; constructor; auto.
  destruct (keqb k k1); simpl; auto.
Qed.

Lemma Forall_mutate_all : forall f m,
    (forall v, Q v -> Q (f v)) ->
    Forall (fun e => Q (snd e)) m ->
    Forall (fun e => Q (snd e)) (JSMap.mutate_all f m).
Proof.
  intros f m Hf Hm. unfold JSMap.mutate_all.
  induction Hm as [|[k1 v1] m H1 Hm IH]; simpl; constructor; auto.
  simpl. apply Hf. exact H1.
Qed.
End ForallMap.

Lemma damage_healthOK : forall areas p, healthOK p -> healthOK (damage areas p).
Proof.
  intros areas p Hok. unfold damage.
  destruct (p_isAlive p) eqn:E; simpl; [|exact Hok].
  destruct (within40 _ _ _); [|exact Hok].
  destruct Hok as [Hb Ha]. specialize (Ha E). unfold healthOK; simpl.
  destruct (p_health p - 25 <=? 0) eqn:E'; (split; [lia|]).
  - discriminate.
  - intros _. apply Z.leb_gt in E'. lia.
Qed.

Lemma applyPowerUp_healthOK : forall ty p,
    healthOK p -> healthOK (applyPowerUp ty p).
Proof.
  intros ty p Hok. destruct ty; try exact Hok.
  destruct Hok as [Hb Ha]. unfold healthOK; simpl.
  split; [lia|]. intros E. specialize (Ha E). lia.
Qed.

Lemma room_move_health : forall v r r',
    room_move v r r' -> roomHealthOK r -> roomHealthOK r'.
Proof.
  intros v r r' Hmv Hok. unfold roomHealthOK in *.
  destruct Hmv as [r s name p r' Ha | r s k r' Hr | r now Hc
                   | r pid ux uy r' _ Hu | r pid x y now bomb r' ts _ Hp
                   | r pid puid r' _ Hc | io now rnd r bombId r' out ts He
                   | r s old p r' Hr | r now].
  - unfold addPlayer in Ha.
    destruct (JSMap.size (players r) >=? maxPlayers r); [discriminate|].
    destruct (nth_error spawnPositions _) as [[sx sy]|]; [|discriminate].
    injection Ha as _ <-. simpl. apply Forall_set; [|assumption].
    unfold healthOK; simpl. split; [lia|]. intros _; lia.
  - unfold removePlayer in Hr.
    destruct (findBySocket s (players r)); [|discriminate].
    injection Hr as _ <-. simpl. now apply Forall_delete.
  - exact Hok.
  - unfold updatePlayer in Hu.
    destruct (JSMap.get pid (players r)) as [p|]; [|discriminate].
    destruct (p_isAlive p); [|discriminate].
    injection Hu as <-. simpl. apply Forall_mutate; [|assumption].
    intros q Hq. exact Hq.
  - unfold placeBomb in Hp.
    destruct (JSMap.get pid (players r)) as [p|]; [|discriminate].
    destruct (negb (p_isAlive p) || (p_bombCount p >=? p_bombCapacity p));
      [discriminate|].
    destruct (existsb _ _); [discriminate|].
    injection Hp as _ <- _. simpl. apply Forall_mutate; [|assumption].
    intros q Hq. exact Hq.
  - unfold collectPowerUp in Hc.
    destruct (JSMap.get puid (powerUps r)) as [pu|]; [|discriminate].
    destruct (JSMap.get pid (players r)) as [p|]; [|discriminate].
    destruct (negb (p_isAlive p)); [discriminate|].
    injection Hc as <-. simpl. apply Forall_mutate; [|assumption].
    intros q. apply applyPowerUp_healthOK.
  - destruct (JSMap.get bombId (bombs r)) as [bomb|] eqn:Hb.
    + destruct (@explodeBomb_present v io now rnd r bombId bomb Hb)
        as (r1 & out1 & Heq & Hps & _).
      rewrite Heq in He. injection He as <- _ _. rewrite Hps.
      apply Forall_mutate_all; [intros q; apply damage_healthOK|].
      apply Forall_mutate; [|assumption]. intros q Hq. exact Hq.
    + rewrite (@explodeBomb_absent v io now rnd r bombId Hb) in He.
      injection He as <- _ _. exact Hok.
  - unfold Standalone.rejoinTransitioningPlayer in Hr.
    destruct (Standalone.findSlot old (players r)) as [k|]; [|discriminate].
    destruct (JSMap.get k _); [|discriminate].
    injection Hr as _ <-. simpl. apply Forall_mutate; [|assumption].
    intros q Hq. exact Hq.
  - exact Hok.
Qed.

Lemma moves_health : forall v r r',
    moves v r r' -> roomHealthOK r -> roomHealthOK r'.
Proof.
  intros v r r' Hm; induction Hm as [|r r' r'' _ IH Hmv]; [auto|].
  intros Hok. eapply room_move_health; eauto.
Qed.

Lemma evolves_health : forall v h h',
    evolves v h h' -> Forall roomHealthOK h -> Forall roomHealthOK h'.
Proof.
  intros v h h' [A B] Hok. apply Forall_forall. intros r' Hin.
  apply In_nth_error in Hin. destruct Hin as (ref & Hr').
  destruct (nth_error h ref) as [r|] eqn:Hr.
  - destruct (A _ _ Hr) as (r'' & Hr'' & Hm).
    assert (r'' = r') by congruence; subst.
    eapply moves_health; [exact Hm|].
    rewrite Forall_forall in Hok. apply Hok. eapply nth_error_In; eauto.
  - destruct (B _ _ Hr' Hr) as (rnd & rid & maxP & Hm).
    eapply moves_health; [exact Hm|]. constructor.
Qed.

Lemma run_health : forall v trace w w' out,
    run v w trace = Some (w', out) ->
    Forall roomHealthOK (heap w) -> Forall roomHealthOK (heap w').
Proof.
  intros v trace; induction trace as [|tn trace IH]; intros w w' out; simpl.
  - intros [= <- _]. auto.
  - destruct (step v w tn) as [[w1 out1]|] eqn:Hs; [|discriminate].
    destruct (run v w1 trace) as [[w2 out2]|] eqn:Hr; [|discriminate].
    intros [= <- _] Hok. eapply IH; [exact Hr|].
    eapply evolves_health; [|exact Hok]. eapply step_evolves; eauto.
Qed.

Lemma room_move_phase : forall v r r',
    room_move v r r' -> phase_le (gameState r) (gameState r').
Proof.
  assert (Hrefl : forall g, phase_le g g) by (intros []; exact I).
  intros v r r' Hmv.
  destruct Hmv as [r s name p r' Ha | r s k r' Hr | r now Hc
                   | r pid ux uy r' _ Hu | r pid x y now bomb r' ts _ Hp
                   | r pid puid r' _ Hc | io now rnd r bombId r' out ts He
                   | r s old p r' Hr | r now].
  - unfold addPlayer in Ha.
    destruct (JSMap.size (players r) >=? maxPlayers r); [discriminate|].
    destruct (nth_error spawnPositions _) as [[sx sy]|]; [|discriminate].
    injection Ha as _ <-. apply Hrefl.
  - unfold removePlayer in Hr.
    destruct (findBySocket s (players r)); [|discriminate].
    injection Hr as _ <-. apply Hrefl.
  - unfold canStartGame in Hc. apply andb_true_iff in Hc.
    destruct Hc as (_ & Hc). apply Phase_eqb_eq in Hc. rewrite Hc. exact I.
  - unfold updatePlayer in Hu.
    destruct (JSMap.get pid (players r)) as [p|]; [|discriminate].
    destruct (p_isAlive p); [|discriminate].
    injection Hu as <-. apply Hrefl.
  - unfold placeBomb in Hp.
    destruct (JSMap.get pid (players r)) as [p|]; [|discriminate].
    destruct (negb (p_isAlive p) || (p_bombCount p >=? p_bombCapacity p));
      [discriminate|].
    destruct (existsb _ _); [discriminate|].
    injection Hp as _ <- _. apply Hrefl.
  - unfold collectPowerUp in Hc.
    destruct (JSMap.get puid (powerUps r)) as [pu|]; [|discriminate].
    destruct (JSMap.get pid (players r)) as [p|]; [|discriminate].
    destruct (negb (p_isAlive p)); [discriminate|].
    injection Hc as <-. apply Hrefl.
  - destruct (JSMap.get bombId (bombs r)) as [bomb|] eqn:Hb.
    + destruct (@explodeBomb_present v io now rnd r bombId bomb Hb)
        as (r1 & out1 & Heq & _ & _ & Hg).
      rewrite Heq in He. injection He as <- _ _.
      destruct Hg as [-> | ->]; [apply Hrefl|]. destruct (gameState r); exact I.
    + rewrite (@explodeBomb_absent v io now rnd r bombId Hb) in He.
      injection He as <- _ _. apply Hrefl.
  - unfold Standalone.rejoinTransitioningPlayer in Hr.
    destruct (Standalone.findSlot old (players r)) as [k|]; [|discriminate].
    destruct (JSMap.get k _); [|discriminate].
    injection Hr as _ <-. apply Hrefl.
  - apply Hrefl.
Qed.

Lemma phase_le_trans : forall a b c, phase_le a b -> phase_le b c -> phase_le a c.
Proof. intros [] [] []; simpl; tauto. Qed.

Lemma moves_phase : forall v r r',
    moves v r r' -> phase_le (gameState r) (gameState r').
Proof.
  intros v r r' Hm; induction Hm as [r|r r' r'' _ IH Hmv].
  - destruct (gameState r); exact I.
  - eapply phase_le_trans; [exact IH | eapply room_move_phase; eauto].
Qed.

(* ================================================================= *)
(** ** Health *)

(** C5 (as amended): in every reachable state of either server, every
    player's health is at most 100 and above -25, and a living player's
    health is positive: a blast takes 25 from a living player only, and
    the health power-up adds 30 capped at 100. (Health is not floored at
    zero: the killing blast can leave it as low as -24.) *)
Theorem health_bounds :
  forall (v : variant) (w : World),
    reachable v w ->
    forall (r : GameRoom) (k : Z) (p : Player),
      In r (heap w) -> In (k, p) (players r) ->
      -25 < p_health p <= 100 /\ (p_isAlive p = true -> 0 < p_health p).
Proof.
  intros v w (trace & out & Hrun) r k p Hr Hp.
  assert (Hok : Forall roomHealthOK (heap w)).
  { eapply run_health; [exact Hrun|]. destruct v; constructor. }
  rewrite Forall_forall in Hok. specialize (Hok r Hr).
  unfold roomHealthOK in Hok. rewrite Forall_forall in Hok.
  exact (Hok (k, p) Hp).
Qed.

(** The bounds in [blastWorld], the state reached by [trace_blast], where
    player 2 ends with health -20. *)
Lemma health_bounds_witness :
  stateAfter RootServer trace_blast = Some blastWorld
  /\ exists (r : GameRoom) (p : Player),
      In r (heap blastWorld) /\ In (2, p) (players r)
      /\ p_health p = -20
      /\ -25 < p_health p <= 100
      /\ (p_isAlive p = true -> 0 < p_health p).
Proof.
  assert (Hst : stateAfter RootServer trace_blast = Some blastWorld)
    by (vm_compute; reflexivity).
  split; [exact Hst|].
  set (r := nth O (heap blastWorld) (sampleRoom waiting [] [] [])).
  set (p := nth 1 (JSMap.values (players r)) (samplePlayer 0 "" 0 0 0 false)).
  exists r, p.
  assert (Hr : In r (heap blastWorld)) by (left; reflexivity).
  assert (Hp : In (2, p) (players r)) by (right; left; reflexivity).
  split; [exact Hr|]. split; [exact Hp|]. split; [reflexivity|].
  exact (@health_bounds RootServer blastWorld (reachable_stateAfter _ _ Hst)
           r 2 p Hr Hp).
Defined.

(** C5 as stated fails: on [trace_blast] player 2 takes the sixth blast at
    health 5 and is left dead with health -20. *)
Lemma health_below_zero :
  option_map healths (stateAfter RootServer (removelast trace_blast))
  = Some [[(1, 100, true); (2, 5, true)]]
  /\ option_map healths (stateAfter RootServer trace_blast)
     = Some [[(1, 100, true); (2, -20, false)]].
Proof. split; vm_compute; reflexivity. Qed.

(* ================================================================= *)
(** ** The phase of a room *)

Lemma gameplay_heap : forall v w s now rnd m w' out,
    gameplay m = true ->
    onMessage v w s now rnd m = Normal (w', out) ->
    heap w' = heap w
    \/ exists ref room0 room1,
        nth_error (heap w) ref = Some room0
        /\ gameState room0 = playing
        /\ heap w' = store ref room1 (heap w).
Proof.
  intros v w s now rnd m w' out Hm.
  destruct m as [data | data | x y | x y | powerUpId | ts]; try discriminate;
    simpl; intros [= Hres].
  - unfold onPlayerMove in Hres.
    destruct (playingRoomOf w s) as [[[[rid pid] ref] room]|] eqn:Hp;
      [|injection Hres as <- _; now left].
    apply playingRoomOf_sound in Hp. destruct Hp as (_ & _ & Hh & Hg).
    destruct (updatePlayer room pid x y) as [[] room'];
      injection Hres as <- _; [right | now left].
    exists ref, room, room'. auto.
  - unfold onPlaceBomb in Hres.
    destruct (playingRoomOf w s) as [[[[rid pid] ref] room]|] eqn:Hp;
      [|injection Hres as <- _; now left].
    apply playingRoomOf_sound in Hp. destruct Hp as (_ & _ & Hh & Hg).
    destruct (placeBomb room pid x y now) as [[[bomb|] room'] tms];
      injection Hres as <- _; [right | now left].
    exists ref, room, room'. auto.
  - unfold onCollectPowerUp in Hres.
    destruct (playingRoomOf w s) as [[[[rid pid] ref] room]|] eqn:Hp;
      [|injection Hres as <- _; now left].
    apply playingRoomOf_sound in Hp. destruct Hp as (_ & _ & Hh & Hg).
    destruct (collectPowerUp room pid powerUpId) as [[] room'];
      injection Hres as <- _; [right | now left].
    exists ref, room, room'. auto.
Qed.

(** C4 (as amended): (1) a gameplay intent (playerMove, placeBomb,
    collectPowerUp) sent by a connection whose room is finished changes
    nothing in the process and emits nothing; (2) whoever sends it, a
    gameplay intent leaves every finished room object as it is; (3) over
    any turn of the event loop, of either server, every room object stays
    in place and its phase stays where it is or moves forward in the order
    waiting, playing, finished. *)
Theorem finished_room_and_phase_order :
  forall (v : variant) (w : World),
    (forall s now rnd m rid playerId ref room,
        gameplay m = true ->
        JSMap.get s (playerSockets w) = Some (rid, playerId) ->
        JSMap.get rid (gameRooms w) = Some ref ->
        nth_error (heap w) ref = Some room ->
        gameState room = finished ->
        onMessage v w s now rnd m = Normal (w, []))
    /\ (forall s now rnd m w' out ref room,
           gameplay m = true ->
           onMessage v w s now rnd m = Normal (w', out) ->
           nth_error (heap w) ref = Some room ->
           gameState room = finished ->
           nth_error (heap w') ref = Some room)
    /\ (forall tn w' out ref room,
           step v w tn = Some (w', out) ->
           nth_error (heap w) ref = Some room ->
           exists room',
             nth_error (heap w') ref = Some room'
             /\ phase_le (gameState room) (gameState room')).
Proof.
  intros v w. split; [|split].
  - intros s now rnd m rid playerId ref room Hm Hs Hg Hh Hfin.
    assert (Hnone : playingRoomOf w s = None).
    { unfold playingRoomOf. now rewrite Hs, Hg, Hh, Hfin. }
    destruct m; try discriminate; simpl;
      unfold onPlayerMove, onPlaceBomb, onCollectPowerUp;
      now rewrite Hnone.
  - intros s now rnd m w' out ref room Hm Hres Hh Hfin.
    destruct (@gameplay_heap v w s now rnd m w' out Hm Hres)
      as [-> | (ref' & room0 & room1 & Hh0 & Hg0 & ->)]; [exact Hh|].
    destruct (Nat.eq_dec ref' ref) as [->|Hne].
    + congruence.
    + now rewrite nth_error_store_other.
  - intros tn w' out ref room Hstep Hh.
    destruct (@step_evolves v w tn w' out Hstep) as [A _].
    destruct (A _ _ Hh) as (room' & Hh' & Hmv).
    exists room'. split; [exact Hh'|]. exact (moves_phase Hmv).
Qed.

(** In the finished room reached by [trace_game_over], A's gameplay
    intents emit nothing and leave the room objects as they are. *)
Example finished_room_ignores_gameplay :
  option_map phases (stateAfter RootServer trace_game_over) = Some [finished]
  /\ Forall (fun m =>
               emittedBy RootServer trace_game_over (turn 7200 (Recv "s1" m))
               = Some []
               /\ option_map heap
                    (stateAfter RootServer
                       (trace_game_over ++ [turn 7200 (Recv "s1" m)]))
                  = option_map heap (stateAfter RootServer trace_game_over))
            [MPlayerMove (Some 300) (Some 300); MPlaceBomb 128 128;
             MCollectPowerUp (7000, 7)].
Proof.
  split; [vm_compute; reflexivity|].
  repeat (apply Forall_cons; [split; vm_compute; reflexivity|]).
  apply Forall_nil.
Qed.

(** C4 as stated fails. In the finished room reached by
    [trace_game_over]: the fuse of B's bomb, lit before the game ended,
    still detonates (the bomb is removed, [bombExploded] and [gameOver] are
    emitted); a join still seats a player and emits [roomJoined] and
    [playerJoined]; a disconnect still removes the player. *)
Lemma finished_room_still_changes :
  option_map phases (stateAfter RootServer trace_game_over) = Some [finished]
  /\ option_map bombIds (stateAfter RootServer trace_game_over)
     = Some [[(4500, 2)]]
  /\ emittedBy RootServer trace_game_over (turn 7500 (Fire 1))
     = Some [("s1", "bombExploded"); ("s1", "gameOver")]
  /\ option_map bombIds
       (stateAfter RootServer (trace_game_over ++ [turn 7500 (Fire 1)]))
     = Some [[]]
  /\ emittedBy RootServer trace_game_over
               (turn 7200 (Recv "s3" (MJoinRoom (named firstRoom "C"))))
     = Some [("s3", "roomJoined"); ("s1", "playerJoined");
             ("s3", "playerJoined")]
  /\ option_map seating (stateAfter RootServer trace_game_over)
     = Some [[(1, "s1", "A")]]
  /\ option_map seating
       (stateAfter RootServer (trace_game_over ++ [turn 7200 (Disconnect "s1")]))
     = Some [[]].
Proof. repeat split; vm_compute; reflexivity. Qed.

(** The theorem at [gameOverWorld], the finished room reached by
    [trace_game_over]: A's bomb placement is ignored, and whatever turn
    comes next the room is still there and still finished. *)
Lemma finished_room_and_phase_order_witness :
  stateAfter RootServer trace_game_over = Some gameOverWorld
  /\ option_map gameState (nth_error (heap gameOverWorld) 0) = Some finished
  /\ onMessage RootServer gameOverWorld "s1" 7200 noRandom (MPlaceBomb 128 128)
     = Normal (gameOverWorld, [])
  /\ (forall tn w' out,
         step RootServer gameOverWorld tn = Some (w', out) ->
         exists room',
           nth_error (heap w') 0 = Some room'
           /\ gameState room' = finished).
Proof.
  split; [vm_compute; reflexivity|]. split; [reflexivity|].
  destruct (finished_room_and_phase_order RootServer gameOverWorld)
    as (H1 & _ & H3).
  split.
  - exact (H1 "s1" 7200 noRandom (MPlaceBomb 128 128) firstRoom 1 O
              (nth O (heap gameOverWorld) (sampleRoom waiting [] [] []))
              eq_refl eq_refl eq_refl eq_refl eq_refl).
  - intros tn w' out Hstep.
    destruct (H3 tn w' out O
                 (nth O (heap gameOverWorld) (sampleRoom waiting [] [] []))
                 Hstep eq_refl) as (room' & Hr' & Hle).
    exists room'. split; [exact Hr'|].
    destruct (gameState room'); simpl in Hle;
      [contradiction | contradiction | reflexivity].
Defined.

(* ================================================================= *)
(** * Further properties of the rooms and of the handlers *)

(** ** Grid snapping *)

Lemma snapToGrid_multiple : forall v, exists k, snapToGrid v = 64 * k.
Proof.
  intros v. exists ((2 * v + 64) / (2 * 64)). unfold snapToGrid, gridSize. lia.
Qed.

(** X1: the snapping of [placeBomb], [Math.round(v / 64) * 64], gives a
    multiple of 64 that is less than 32 below and at most 32 above [v] (a
    half rounds up), and leaves a multiple of 64 where it is. *)
Theorem snapToGrid_nearest_cell :
  forall v : Z,
    (exists k, snapToGrid v = 64 * k)
    /\ -32 < snapToGrid v - v <= 32
    /\ (forall k, v = 64 * k -> snapToGrid v = v).
Proof.
  intros v. unfold snapToGrid, gridSize.
  pose proof (Z.div_mod (2 * v + 64) (2 * 64) ltac:(lia)) as Hd.
  pose proof (Z.mod_pos_bound (2 * v + 64) (2 * 64) ltac:(lia)) as Hm.
  split; [exists ((2 * v + 64) / (2 * 64)); lia|].
  split; [lia|].
  intros k ->. 
  replace (2 * (64 * k) + 64) with (64 + k * (2 * 64)) by lia.
  rewrite Z.div_add by lia. replace (64 / (2 * 64)) with 0 by reflexivity. lia.
Qed.

(** ** broadcastToRoom *)

(** X2: [broadcastToRoom] sends the event, unchanged, to exactly the
    connections that are open and are the connection of a player seated
    in the room. *)
Theorem broadcastToRoom_recipients :
  forall (io : list SocketId) (r : GameRoom) (ev : Event) (s : SocketId) (e : Event),
    In (s, e) (broadcastToRoom io r ev)
    <-> e = ev /\ isOpen io s = true
        /\ exists p, In p (JSMap.values (players r)) /\ p_socket p = s.
Proof.
  intros io r ev s e. unfold broadcastToRoom. rewrite in_flat_map. split.
  - intros (p & Hp & Hin). destruct (isOpen io (p_socket p)) eqn:Ho; [|contradiction].
    destruct Hin as [E | []]. inversion E; subst. eauto.
  - intros (-> & Ho & p & Hp & <-). exists p. split; [exact Hp|].
    rewrite Ho. now left.
Qed.

(** ** removePlayer *)

Lemma findBySocket_None : forall s ps,
    findBySocket s ps = None ->
    forall e, In e ps -> p_socket (snd e) <> s.
Proof.
  intros s ps; induction ps as [|[k1 p1] ps IH]; simpl; [contradiction|].
  destruct (String.eqb (p_socket p1) s) eqn:E; [discriminate|].
  intros Hn e [<- | Hin]; [|auto]. simpl. now apply String.eqb_neq.
Qed.

(** X3: [removePlayer] either returns the id of a slot whose player was
    bound to the connection, empties that slot and leaves every other
    slot, the bombs, the power-ups, the blocks and the phase as they
    were; or it returns null, changes nothing, and no seated player was
    bound to the connection. *)
Theorem removePlayer_outcome :
  forall (r : GameRoom) (s : SocketId),
    match removePlayer r s with
    | (Some k, r') =>
        (exists p, In (k, p) (players r) /\ p_socket p = s)
        /\ JSMap.get k (players r') = None
        /\ (forall k', k' <> k ->
                       JSMap.get k' (players r') = JSMap.get k' (players r))
        /\ bombs r' = bombs r /\ powerUps r' = powerUps r
        /\ destructibleBlocks r' = destructibleBlocks r
        /\ gameState r' = gameState r
    | (None, r') =>
        r' = r /\ forall e, In e (players r) -> p_socket (snd e) <> s
    end.
Proof.
  intros r s. unfold removePlayer.
  destruct (findBySocket s (players r)) as [k|] eqn:Hf.
  - split; [now apply findBySocket_In|].
    split; [apply get_delete_same|].
    split; [intros k' Hk; now apply get_delete_other|].
    simpl. auto.
  - split; [reflexivity|]. now apply findBySocket_None.
Qed.

(** ** Detonation, field by field *)

Lemma checkWinCondition_result : forall io r,
    fst (checkWinCondition io r)
    = if aliveCount r <=? 1 then set_gameState r finished else r.
Proof.
  intros io r. unfold checkWinCondition, aliveCount.
  destruct (_ <=? 1); reflexivity.
Qed.

Lemma destroyBlocks_split : forall rnd now areas blocks k us,
    fst (fst (destroyBlocks rnd now areas k blocks us))
    = filter (fun blk => negb (hits areas blk)) blocks
    /\ snd (fst (destroyBlocks rnd now areas k blocks us))
       = filter (hits areas) blocks.
Proof.
  intros rnd now areas blocks; induction blocks as [|blk rest IH]; intros k us;
    simpl; [auto|].
  destruct (hits areas blk); simpl.
  - destruct (random rnd k <? 300).
    + match goal with
      | |- context [destroyBlocks rnd now areas ?k' rest ?us'] =>
          destruct (IH k' us') as [IH1 IH2];
          destruct (destroyBlocks rnd now areas k' rest us') as [[kept destroyed] us'']
      end. simpl in *. split; congruence.
    + destruct (IH (k + 1)%nat us) as [IH1 IH2].
      destruct (destroyBlocks rnd now areas (k + 1) rest us) as [[kept destroyed] us''].
      simpl in *. split; congruence.
  - destruct (IH k us) as [IH1 IH2].
    destruct (destroyBlocks rnd now areas k rest us) as [[kept destroyed] us''].
    simpl in *. split; congruence.
Qed.

(** Every power-up in the table after [destroyBlocks] was there before or
    lies on a destroyed block, stamped with the time of the blast. *)
Lemma destroyBlocks_powerUps : forall rnd now areas blocks k us e,
    In e (snd (destroyBlocks rnd now areas k blocks us)) ->
    In e us
    \/ (exists blk, In blk blocks /\ hits areas blk = true
                    /\ u_x (snd e) = k_x blk /\ u_y (snd e) = k_y blk
                    /\ u_spawnedAt (snd e) = now /\ u_id (snd e) = fst e).
Proof.
  intros rnd now areas blocks; induction blocks as [|blk rest IH]; intros k us e;
    simpl; [auto|].
  assert (Hset : forall (id : PowerUpId) (u : PowerUp) (m : list (PowerUpId * PowerUp)) e0,
             In e0 (JSMap.set id u m) -> In e0 m \/ e0 = (id, u)).
  { intros id u m; induction m as [|[k1 u1] m IHm]; intros e0; simpl.
    - intros [<- | []]; auto.
    - destruct (pair_eqb id k1); simpl.
      + intros [<- | Hin]; auto.
      + intros [<- | Hin]; auto. destruct (IHm _ Hin); auto. }
  destruct (hits areas blk) eqn:Hh.
  - destruct (random rnd k <? 300).
    + match goal with
      | |- context [destroyBlocks rnd now areas ?k' rest ?us'] =>
          pose proof (IH k' us' e) as IHe;
          destruct (destroyBlocks rnd now areas k' rest us') as [[kept destroyed] us'']
      end. simpl in *. intros Hin. destruct (IHe Hin) as [Hin' | (b & Hb & Hhb & Hrest)].
      * destruct (Hset _ _ _ _ Hin') as [Hold | ->]; [now left|].
        right. exists blk. simpl. auto 10.
      * right. exists b. auto 10.
    + pose proof (IH (k + 1)%nat us e) as IHe.
      destruct (destroyBlocks rnd now areas (k + 1) rest us) as [[kept destroyed] us''].
      simpl in *. intros Hin. destruct (IHe Hin) as [Hin' | (b & Hb & Hrest)]; [now left|].
      right. exists b. tauto.
  - pose proof (IH k us e) as IHe.
    destruct (destroyBlocks rnd now areas k rest us) as [[kept destroyed] us''].
    simpl in *. intros Hin. destruct (IHe Hin) as [Hin' | (b & Hb & Hrest)]; [now left|].
    right. exists b. tauto.
Qed.

Lemma explodeBomb_result : forall v io now rnd r bombId bomb,
    JSMap.get bombId (bombs r) = Some bomb ->
    let areas := calculateExplosion (destructibleBlocks r)
                                    (b_x bomb) (b_y bomb) (b_power bomb) in
    let ps := JSMap.mutate_all (damage areas)
                (JSMap.mutate (b_owner bomb)
                   (fun owner =>
                      with_bombCount owner (decrementBombCount v (p_bombCount owner)))
                   (players r)) in
    let res := destroyBlocks rnd now areas 0 (destructibleBlocks r) (powerUps r) in
    let r1 := {| roomId := roomId r; maxPlayers := maxPlayers r; players := ps;
                 gameState := gameState r; gameStartTime := gameStartTime r;
                 bombs := JSMap.delete bombId (bombs r); powerUps := snd res;
                 destructibleBlocks := fst (fst res);
                 roundTimer := roundTimer r |} in
    explodeBomb v io now rnd r bombId
    = (fst (checkWinCondition io r1),
       broadcastToRoom io r1
         (EvBombExploded bombId areas (snd (fst res))
                         (JSMap.values ps) (JSMap.values (snd res)))
       ++ snd (checkWinCondition io r1),
       map (ExplodeAfter 50)
           (chainBombs bombId areas (JSMap.delete bombId (bombs r)))).
Proof.
  intros v io now rnd r bombId bomb Hb areas ps res r1.
  unfold explodeBomb. rewrite Hb. fold areas. fold ps. fold res.
  destruct res as [[kept destroyed] us] eqn:Hres. simpl in r1. fold r1.
  destruct (checkWinCondition io r1) as [r2 out2]. reflexivity.
Qed.

Lemma broadcastToRoom_audience : forall io r ev,
    broadcastToRoom io r ev = map (fun s => (s, ev)) (audience io r).
Proof.
  intros io r ev. unfold broadcastToRoom, audience.
  induction (JSMap.values (players r)) as [|p ps IH]; simpl; [reflexivity|].
  destruct (isOpen io (p_socket p)); simpl; now rewrite IH.
Qed.

Lemma checkWinCondition_wire : forall io r,
    wire (snd (checkWinCondition io r))
    = if aliveCount r <=? 1
      then map (fun s => (s, "gameOver")) (audience io r)
      else [].
Proof.
  intros io r. unfold checkWinCondition, aliveCount.
  destruct (_ <=? 1); [|reflexivity].
  cbn [snd]. unfold wire. rewrite broadcastToRoom_audience, map_map. reflexivity.
Qed.

(** ** The win check *)

(** X4: with two or more living players [checkWinCondition] changes
    nothing and emits nothing; with at most one, the room becomes
    finished and [gameOver] goes to every open seated connection, naming
    as winner the one living player, or null when nobody is alive. *)
Theorem checkWinCondition_outcome :
  forall (io : list SocketId) (r : GameRoom),
    (2 <= aliveCount r -> checkWinCondition io r = (r, []))
    /\ (aliveCount r <= 1 ->
        exists winner,
          checkWinCondition io r
          = (set_gameState r finished,
             map (fun s => (s, EvGameOver winner (JSMap.values (players r))))
                 (audience io r))
          /\ match winner with
             | Some k => exists p, filter p_isAlive (JSMap.values (players r)) = [p]
                                   /\ p_id p = k
             | None => aliveCount r = 0
             end).
Proof.
  intros io r. unfold checkWinCondition, aliveCount. split.
  - intros H2. destruct (_ <=? 1) eqn:E; [|reflexivity].
    apply Z.leb_le in E. lia.
  - intros H1. apply Z.leb_le in H1. rewrite H1.
    destruct (filter p_isAlive (JSMap.values (players r))) as [|p [|q l]] eqn:Ef.
    + exists None. rewrite broadcastToRoom_audience. split; reflexivity.
    + exists (Some (p_id p)). rewrite broadcastToRoom_audience.
      split; [reflexivity|]. exists p. split; reflexivity.
    + apply Z.leb_le in H1. simpl in H1. lia.
Qed.

(** ** Detonation: damage and end of game *)

(** X5: the detonation of a live bomb takes 25 health from a seated
    player exactly when the player is alive and within 40 of some cell of
    the blast, once however many cells are in range; the player dies when
    that leaves 0 or less; nobody is moved. *)
Theorem explodeBomb_damage_once :
  forall (v : variant) (io : list SocketId) (now : Z) (rnd : nat -> Z)
         (r : GameRoom) (bombId : BombId) (bomb : Bomb) (k : Z) (p : Player),
    JSMap.get bombId (bombs r) = Some bomb ->
    JSMap.get k (players r) = Some p ->
    let areas := calculateExplosion (destructibleBlocks r)
                                    (b_x bomb) (b_y bomb) (b_power bomb) in
    let hit := p_isAlive p && within40 (p_x p) (p_y p) areas in
    exists p',
      JSMap.get k (players (fst (fst (explodeBomb v io now rnd r bombId)))) = Some p'
      /\ p_health p' = (if hit then p_health p - 25 else p_health p)
      /\ p_isAlive p' = (if hit then negb (p_health p - 25 <=? 0) else p_isAlive p)
      /\ p_x p' = p_x p /\ p_y p' = p_y p.
Proof.
  intros v io now rnd r bombId bomb k p Hb Hp areas hit.
  pose proof (@explodeBomb_result v io now rnd r bombId bomb Hb) as Hres.
  cbv zeta in Hres. rewrite Hres. clear Hres. cbn [fst].
  rewrite checkWinCondition_result.
  match goal with
  | |- context [if ?c then set_gameState ?r1 finished else ?r1] =>
      replace (players (if c then set_gameState r1 finished else r1))
        with (players r1) by (destruct c; reflexivity)
  end.
  cbn [players]. rewrite get_mutate_all. fold areas.
  set (dec := fun owner : Player =>
                with_bombCount owner (decrementBombCount v (p_bombCount owner))).
  assert (Hget : exists q, JSMap.get k (JSMap.mutate (b_owner bomb) dec (players r))
                           = Some q
                           /\ p_health q = p_health p /\ p_isAlive q = p_isAlive p
                           /\ p_x q = p_x p /\ p_y q = p_y p).
  { destruct (Z.eq_dec k (b_owner bomb)) as [->|Hne].
    - rewrite get_mutate, Hp. exists (dec p). simpl. auto.
    - rewrite get_mutate_other, Hp by assumption. exists p. auto. }
  destruct Hget as (q & -> & Hh & Ha & Hx & Hy). cbn [option_map].
  exists (damage areas q). split; [reflexivity|].
  unfold damage, hit. rewrite Ha, Hx, Hy, Hh.
  destruct (p_isAlive p) eqn:Ealive; simpl.
  - destruct (within40 (p_x p) (p_y p) areas); simpl.
    + destruct (p_health p - 25 <=? 0); auto.
    + auto.
  - auto.
Qed.

(** X6: the detonation of a live bomb sends [bombExploded] to every open
    seated connection; exactly when at most one player is alive
    afterwards the room becomes finished and [gameOver] follows, to the
    same connections; otherwise the phase is unchanged. *)
Theorem explodeBomb_game_end :
  forall (v : variant) (io : list SocketId) (now : Z) (rnd : nat -> Z)
         (r : GameRoom) (bombId : BombId) (bomb : Bomb),
    JSMap.get bombId (bombs r) = Some bomb ->
    exists r' out ts,
      explodeBomb v io now rnd r bombId = (r', out, ts)
      /\ gameState r' = (if aliveCount r' <=? 1 then finished else gameState r)
      /\ wire out
         = map (fun s => (s, "bombExploded")) (audience io r')
           ++ (if aliveCount r' <=? 1
               then map (fun s => (s, "gameOver")) (audience io r')
               else []).
Proof.
  intros v io now rnd r bombId bomb Hb.
  pose proof (@explodeBomb_result v io now rnd r bombId bomb Hb) as Hres.
  cbv zeta in Hres. rewrite Hres. clear Hres.
  do 3 eexists. split; [reflexivity|].
  match goal with
  | |- context [checkWinCondition io ?r1] => set (r1' := r1)
  end.
  rewrite checkWinCondition_result.
  assert (Ha : aliveCount (if aliveCount r1' <=? 1
                           then set_gameState r1' finished else r1')
               = aliveCount r1')
    by (destruct (aliveCount r1' <=? 1); reflexivity).
  assert (Hau : audience io (if aliveCount r1' <=? 1
                             then set_gameState r1' finished else r1')
                = audience io r1')
    by (destruct (aliveCount r1' <=? 1); reflexivity).
  rewrite Ha, Hau. split.
  - destruct (aliveCount r1' <=? 1); reflexivity.
  - unfold wire. rewrite map_app, broadcastToRoom_audience, map_map. f_equal.
    apply checkWinCondition_wire.
Qed.

(** Player 1 stands on the bomb of [standingOnBomb]: 100 becomes 75. *)
Lemma explodeBomb_damage_once_witness :
  exists p',
    JSMap.get 1 (players (fst (fst (explodeBomb RootServer ["s1"; "s2"] 7000 noRandom
                                                standingOnBomb (4000, 2)))))
    = Some p'
    /\ p_health p' = 75 /\ p_isAlive p' = true.
Proof.
  destruct (@explodeBomb_damage_once RootServer ["s1"; "s2"] 7000 noRandom
              standingOnBomb (4000, 2) _ 1 _ eq_refl eq_refl)
    as (p' & Hg & Hh & Ha & _).
  exists p'. split; [exact Hg|]. split; [exact Hh | exact Ha].
Defined.

(** Both players of [standingOnBomb] survive: the room keeps playing. *)
Lemma explodeBomb_game_end_witness :
  exists r' out ts,
    explodeBomb RootServer ["s1"; "s2"] 7000 noRandom standingOnBomb (4000, 2)
    = (r', out, ts)
    /\ gameState r' = playing
    /\ wire out = [("s1", "bombExploded"); ("s2", "bombExploded")].
Proof.
  destruct (@explodeBomb_game_end RootServer ["s1"; "s2"] 7000 noRandom
              standingOnBomb (4000, 2) _ eq_refl)
    as (r' & out & ts & He & Hg & Hw).
  exists r', out, ts. split; [exact He|].
  assert (Hr : r' = fst (fst (explodeBomb RootServer ["s1"; "s2"] 7000 noRandom
                                          standingOnBomb (4000, 2))))
    by (rewrite He; reflexivity).
  split.
  - rewrite Hg. rewrite Hr. reflexivity.
  - rewrite Hw. rewrite Hr. reflexivity.
Defined.

(** ** placeBomb *)

(** X7: [placeBomb] accepts exactly when the player is seated, alive,
    below capacity, and no live bomb lies within 32 of the snapped cell on
    both axes. An accepted bomb has the id (now, player), sits on the
    snapped cell with the owner's blast power, is stored under its id,
    raises the owner's bomb count by one and sets one 3000 ms fuse; a
    refused one changes nothing and sets no timer. *)
Theorem placeBomb_outcome :
  forall (r : GameRoom) (playerId x y now : Z),
    match placeBomb r playerId x y now with
    | (Some bomb, r', ts) =>
        (exists player,
            JSMap.get playerId (players r) = Some player
            /\ p_isAlive player = true
            /\ p_bombCount player < p_bombCapacity player
            /\ b_power bomb = p_bombPower player
            /\ JSMap.get playerId (players r')
               = Some (with_bombCount player (p_bombCount player + 1)))
        /\ (forall b, In b (JSMap.values (bombs r)) ->
                      32 <= Z.abs (b_x b - snapToGrid x)
                      \/ 32 <= Z.abs (b_y b - snapToGrid y))
        /\ b_id bomb = (now, playerId) /\ b_owner bomb = playerId
        /\ b_x bomb = snapToGrid x /\ b_y bomb = snapToGrid y
        /\ JSMap.get (now, playerId) (bombs r') = Some bomb
        /\ ts = [ExplodeAfter 3000 (now, playerId)]
    | (None, r', ts) =>
        r' = r /\ ts = []
        /\ (JSMap.get playerId (players r) = None
            \/ (exists player, JSMap.get playerId (players r) = Some player
                               /\ (p_isAlive player = false
                                   \/ p_bombCapacity player <= p_bombCount player))
            \/ (exists b, In b (JSMap.values (bombs r))
                          /\ Z.abs (b_x b - snapToGrid x) < 32
                          /\ Z.abs (b_y b - snapToGrid y) < 32))
    end.
Proof.
  intros r playerId x y now. unfold placeBomb.
  destruct (JSMap.get playerId (players r)) as [player|] eqn:Hg;
    [|repeat split; auto].
  destruct (negb (p_isAlive player) || (p_bombCount player >=? p_bombCapacity player))
    eqn:Hguard.
  - repeat split. right; left. exists player. split; [reflexivity|].
    apply orb_true_iff in Hguard. destruct Hguard as [Hd | Hc].
    + left. now apply negb_true_iff.
    + right. apply Z.geb_le in Hc. exact Hc.
  - apply orb_false_iff in Hguard. destruct Hguard as (Ha & Hc).
    apply negb_false_iff in Ha.
    destruct (existsb _ (JSMap.values (bombs r))) eqn:Hex.
    + repeat split. right; right. apply existsb_exists in Hex.
      destruct Hex as (b & Hin & Hb). exists b.
      apply andb_true_iff in Hb. rewrite !Z.ltb_lt in Hb. tauto.
    + split; [|split; [|repeat split]].
      * exists player. split; [reflexivity|]. split; [exact Ha|].
        split; [rewrite Z.geb_leb in Hc; apply Z.leb_gt in Hc; lia|].
        split; [reflexivity|]. cbn [players set_players].
        now rewrite get_mutate, Hg.
      * intros b Hin.
        destruct ((Z.abs (b_x b - snapToGrid x) <? 32)
                  && (Z.abs (b_y b - snapToGrid y) <? 32)) eqn:E.
        -- assert (Ht : existsb
                           (fun bomb => (Z.abs (b_x bomb - snapToGrid x) <? 32)
                                        && (Z.abs (b_y bomb - snapToGrid y) <? 32))
                           (JSMap.values (bombs r)) = true)
             by (apply existsb_exists; exists b; split; assumption).
           congruence.
        -- apply andb_false_iff in E. rewrite !Z.ltb_ge in E. exact E.
      * cbn [bombs set_players set_bombs]. apply get_set_same.
Qed.

Section SetFacts.
Context {K V : Type} {EK : EqKey K} {EKok : EqKeyOK K}.

Lemma get_set_other : forall (k k' : K) (v : V) (m : list (K * V)),
    k' <> k -> JSMap.get k' (JSMap.set k v m) = JSMap.get k' m.
Proof.
  intros k k' v m Hne; induction m as [|[k1 v1] m IH]; simpl.
  - now rewrite (keqb_neq Hne).
  - destruct (keqb k k1) eqn:E; simpl.
    + apply keqb_spec in E; subst k1. now rewrite (keqb_neq Hne).
    + destruct (keqb k' k1); [reflexivity | exact IH].
Qed.
End SetFacts.

(** X8: a bomb accepted by [placeBomb] and then detonated: the one
    timer set is its own fuse; the detonation removes it and leaves the
    other bombs as they were before the placement; every [bombExploded]
    emitted carries its id and a blast that starts at the snapped cell;
    the owner's bomb count is the count before the placement run through
    the increment and the server's decrement. *)
Theorem placeBomb_then_explode :
  forall (v : variant) (io : list SocketId) (rnd : nat -> Z) (r : GameRoom)
         (playerId x y now later : Z) (bomb : Bomb) (r1 : GameRoom)
         (ts : list RoomTimer),
    placeBomb r playerId x y now = (Some bomb, r1, ts) ->
    ts = [ExplodeAfter 3000 (b_id bomb)]
    /\ exists r2 out ts2,
        explodeBomb v io later rnd r1 (b_id bomb) = (r2, out, ts2)
        /\ JSMap.get (b_id bomb) (bombs r2) = None
        /\ (forall id, id <> b_id bomb ->
                       JSMap.get id (bombs r2) = JSMap.get id (bombs r))
        /\ (forall s id areas destroyed ps us,
               In (s, EvBombExploded id areas destroyed ps us) out ->
               id = b_id bomb
               /\ hd_error areas = Some (snapToGrid x, snapToGrid y))
        /\ option_map p_bombCount (JSMap.get playerId (players r2))
           = option_map (fun p => decrementBombCount v (p_bombCount p + 1))
                        (JSMap.get playerId (players r)).
Proof.
  intros v io rnd r playerId x y now later bomb r1 ts Hp.
  unfold placeBomb in Hp.
  destruct (JSMap.get playerId (players r)) as [player|] eqn:Hg; [|discriminate].
  destruct (negb (p_isAlive player) || (p_bombCount player >=? p_bombCapacity player));
    [discriminate|].
  destruct (existsb _ _); [discriminate|].
  injection Hp as <- <- <-. cbn [b_id]. split; [reflexivity|].
  match goal with
  | |- context [explodeBomb v io later rnd ?r1 ?id] =>
      set (room1 := r1); set (bombId := id)
  end.
  assert (Hb : JSMap.get bombId (bombs room1)
               = Some {| b_id := bombId; b_x := snapToGrid x; b_y := snapToGrid y;
                         b_owner := playerId; b_power := p_bombPower player;
                         b_fuseTime := 3000; b_placedAt := now |})
    by (apply get_set_same).
  pose proof (explodeBomb_result v io later rnd room1 bombId Hb) as Hres.
  cbv zeta in Hres. cbn [b_x b_y b_power b_owner] in Hres.
  rewrite Hres. clear Hres. do 3 eexists. split; [reflexivity|].
  rewrite checkWinCondition_result.
  match goal with
  | |- context [if ?c then set_gameState ?r1 finished else ?r1] =>
      replace (bombs (if c then set_gameState r1 finished else r1))
        with (bombs r1) by (destruct c; reflexivity);
      replace (players (if c then set_gameState r1 finished else r1))
        with (players r1) by (destruct c; reflexivity)
  end.
  cbn [bombs players]. split; [apply get_delete_same|]. split; [|split].
  - intros id Hne. rewrite get_delete_other by assumption.
    unfold room1. cbn [bombs set_players set_bombs]. now apply get_set_other.
  - intros s id areas destroyed ps us Hin. apply in_app_or in Hin.
    destruct Hin as [Hin | Hin].
    + apply broadcastToRoom_event in Hin. cbn [snd] in Hin.
      injection Hin as -> -> _ _ _. split; [reflexivity|].
      rewrite calculateExplosion_rays. reflexivity.
    + exfalso. unfold checkWinCondition in Hin.
      destruct (_ <=? 1) in Hin; [|contradiction].
      apply broadcastToRoom_event in Hin. discriminate.
  - rewrite get_mutate_all. unfold room1. cbn [players set_players].
    rewrite !get_mutate, Hg.
    cbn [option_map]. rewrite damage_bombCount. reflexivity.
Qed.

(** A bomb dropped at (500, 400) lands on (512, 384) and goes off. *)
Lemma placeBomb_then_explode_witness :
  let r := sampleRoom playing [(1, samplePlayer 1 "s1" 64 64 100 true)] [] [] in
  exists bomb r1 r2 out ts2,
    placeBomb r 1 500 400 4000 = (Some bomb, r1, [ExplodeAfter 3000 (4000, 1)])
    /\ (b_x bomb, b_y bomb) = (512, 384)
    /\ explodeBomb RootServer ["s1"] 7000 noRandom r1 (4000, 1) = (r2, out, ts2)
    /\ JSMap.get (4000, 1) (bombs r2) = None
    /\ option_map p_bombCount (JSMap.get 1 (players r2)) = Some 0.
Proof.
  intros r.
  destruct (@placeBomb_then_explode RootServer ["s1"] noRandom r 1 500 400 4000 7000
              _ _ _ eq_refl)
    as (_ & r2 & out & ts2 & He & Hgone & _ & _ & Hc).
  do 2 eexists. exists r2, out, ts2.
  split; [reflexivity|]. split; [reflexivity|].
  split; [exact He|]. split; [exact Hgone | exact Hc].
Defined.

Section KeyFacts.
Context {K V : Type} {EK : EqKey K} {EKok : EqKeyOK K}.
Implicit Types (m : list (K * V)).

Lemma keys_set_incl : forall k v m k',
    In k' (JSMap.keys (JSMap.set k v m)) -> k' = k \/ In k' (JSMap.keys m).
Proof.
  intros k v m k'; induction m as [|[k1 v1] m IH]; simpl.
  - intros [<- | []]; auto.
  - destruct (keqb k k1) eqn:E; simpl.
    + apply keqb_spec in E; subst. tauto.
    + intros [<- | Hin]; auto. destruct (IH Hin); auto.
Qed.

Lemma NoDup_keys_set : forall k v m,
    NoDup (JSMap.keys m) -> NoDup (JSMap.keys (JSMap.set k v m)).
Proof.
  intros k v m; induction m as [|[k1 v1] m IH]; simpl; intros Hn.
  - constructor; [intros []|constructor].
  - inversion Hn as [|? ? Hnin Hn']; subst.
    destruct (keqb k k1) eqn:E; simpl.
    + apply keqb_spec in E; subst. constructor; assumption.
    + constructor; [|auto]. intros Hin. apply keys_set_incl in Hin.
      destruct Hin as [-> | Hin]; [|contradiction].
      rewrite keqb_refl in E. discriminate.
Qed.

Lemma NoDup_keys_delete : forall k m,
    NoDup (JSMap.keys m) -> NoDup (JSMap.keys (JSMap.delete k m)).
Proof.
  intros k m; induction m as [|[k1 v1] m IH]; simpl; intros Hn; [constructor|].
  inversion Hn as [|? ? Hnin Hn']; subst.
  destruct (keqb k k1); simpl; [auto|].
  constructor; [|auto]. intros Hin. apply Hnin.
  unfold JSMap.keys, JSMap.delete in Hin. apply in_map_iff in Hin.
  destruct Hin as (e & <- & He). apply filter_In in He.
  apply in_map. tauto.
Qed.

Lemma keys_mutate_any : forall k f m,
    JSMap.keys (JSMap.mutate k f m) = JSMap.keys m.
Proof.
  intros k f m. unfold JSMap.keys, JSMap.mutate. rewrite map_map.
  apply map_ext. intros [k1 v1]; simpl. now destruct (keqb k k1).
Qed.

Lemma keys_mutate_all : forall f m,
    JSMap.keys (JSMap.mutate_all f m) = JSMap.keys m.
Proof.
  intros f m. unfold JSMap.keys, JSMap.mutate_all. rewrite map_map.
  apply map_ext. intros [k1 v1]; reflexivity.
Qed.

Lemma NoDup_keys_In_eq : forall k v v' m,
    NoDup (JSMap.keys m) -> In (k, v) m -> In (k, v') m -> v = v'.
Proof.
  intros k v v' m; induction m as [|[k1 v1] m IH]; simpl; [contradiction|].
  intros Hn. inversion Hn as [|? ? Hnin Hn']; subst.
  intros [E1 | H1] [E2 | H2].
  - congruence.
  - inversion E1; subst. exfalso. apply Hnin.
    change k with (fst (k, v')). now apply in_map.
  - inversion E2; subst. exfalso. apply Hnin.
    change k with (fst (k, v)). now apply in_map.
  - auto.
Qed.

Lemma length_set_le : forall k v m,
    (List.length (JSMap.set k v m) <= S (List.length m))%nat.
Proof.
  intros k v m; induction m as [|[k1 v1] m IH]; simpl; [lia|].
  destruct (keqb k k1); simpl; lia.
Qed.
End KeyFacts.

Section PairFacts.
Context {K V : Type} {EK : EqKey K} {EKok : EqKeyOK K}.
Variable Q : K * V -> Prop.
Implicit Types (m : list (K * V)).

Lemma Forall_set_pair : forall k v m,
    Q (k, v) -> Forall Q m -> Forall Q (JSMap.set k v m).
Proof.
  intros k v m Hv Hm; induction Hm as [|[k1 v1] m H1 Hm IH]; simpl.
  - constructor; [exact Hv | constructor].
  - destruct (keqb k k1); constructor; auto.
Qed.

Lemma Forall_delete_pair : forall k m,
    Forall Q m -> Forall Q (JSMap.delete k m).
Proof.
  intros k m Hm. unfold JSMap.delete. rewrite Forall_forall in *.
  intros e He. apply filter_In in He. apply Hm. tauto.
Qed.

Lemma Forall_mutate_pair : forall k f m,
    (forall e, Q e -> Q (fst e, f (snd e))) ->
    Forall Q m -> Forall Q (JSMap.mutate k f m).
Proof.
  intros k f m Hf Hm. unfold JSMap.mutate.
  induction Hm as [|[k1 v1] m H1 Hm IH]; simpl; constructor; auto.
  destruct (keqb k k1); simpl; auto. apply (Hf (k1, v1)). exact H1.
Qed.

Lemma Forall_mutate_all_pair : forall f m,
    (forall e, Q e -> Q (fst e, f (snd e))) ->
    Forall Q m -> Forall Q (JSMap.mutate_all f m).
Proof.
  intros f m Hf Hm. unfold JSMap.mutate_all.
  induction Hm as [|[k1 v1] m H1 Hm IH]; simpl; constructor; auto.
  apply (Hf (k1, v1)). exact H1.
Qed.

(** Under unique keys, [mutate] touches the one object that [get] returns. *)
Lemma Forall_mutate_guarded : forall k f m v,
    NoDup (JSMap.keys m) ->
    JSMap.get k m = Some v ->
    Q (k, f v) ->
    Forall Q m -> Forall Q (JSMap.mutate k f m).
Proof.
  intros k f m v Hn Hg Hv Hm. apply get_In in Hg.
  unfold JSMap.mutate. rewrite Forall_forall in *. intros e He.
  apply in_map_iff in He. destruct He as ([k1 v1] & <- & Hin). simpl.
  destruct (keqb k k1) eqn:E; [|auto].
  apply keqb_spec in E; subst k1.
  assert (Ev : v1 = v) by (eapply NoDup_keys_In_eq; eassumption).
  subst v1. exact Hv.
Qed.

End PairFacts.

(** ** The block layout *)

Lemma layout_In : forall rnd cells k blk,
    In blk (layout rnd k cells) ->
    In (k_x blk, k_y blk) cells /\ tooClose (k_x blk) (k_y blk) = false.
Proof.
  intros rnd cells; induction cells as [|[x y] cells IH]; intros k blk; simpl;
    [contradiction|].
  destruct (tooClose x y) eqn:Ht.
  - intros Hin. destruct (IH _ _ Hin). auto.
  - destruct (random rnd k <? 600).
    + intros [<- | Hin]; simpl; [auto|]. destruct (IH _ _ Hin). auto.
    + intros Hin. destruct (IH _ _ Hin). auto.
Qed.

Lemma layout_NoDup : forall rnd cells k,
    NoDup cells -> NoDup (layout rnd k cells).
Proof.
  intros rnd cells; induction cells as [|[x y] cells IH]; intros k Hn; simpl;
    [constructor|].
  inversion Hn as [|? ? Hnin Hn']; subst.
  destruct (tooClose x y); [auto|].
  destruct (random rnd k <? 600); [|auto].
  constructor; [|auto]. intros Hin. apply layout_In in Hin. simpl in Hin. tauto.
Qed.

Lemma grid_cells_NoDup : NoDup grid_cells.
Proof.
  assert (E : nodup cell_eq_dec grid_cells = grid_cells) by (vm_compute; reflexivity).
  rewrite <- E. apply NoDup_nodup.
Qed.

Lemma grid_cells_range : forall x y,
    In (x, y) grid_cells ->
    100 <= x <= 868 /\ 100 <= y <= 612
    /\ (x - 100) mod 64 = 0 /\ (y - 100) mod 64 = 0.
Proof.
  assert (H : forallb (fun c => (100 <=? fst c) && (fst c <=? 868)
                                && (100 <=? snd c) && (snd c <=? 612)
                                && ((fst c - 100) mod 64 =? 0)
                                && ((snd c - 100) mod 64 =? 0)) grid_cells = true)
    by (vm_compute; reflexivity).
  rewrite forallb_forall in H. intros x y Hin. specialize (H _ Hin). simpl in H.
  rewrite !andb_true_iff, !Z.leb_le, !Z.eqb_eq in H. tauto.
Qed.

Lemma newGameRoom_sound : forall v rnd rid maxP, roomSound v (newGameRoom rnd rid maxP).
Proof.
  intros v rnd rid maxP. unfold roomSound, seatsSound, bombsSound, arenaSound; simpl.
  repeat split; try constructor; try (unfold JSMap.size; simpl; lia).
  - apply Forall_forall. intros blk Hin. apply layout_In in Hin. exact Hin.
  - apply layout_NoDup. apply grid_cells_NoDup.
Qed.

(** ** Invariants of a room *)

Lemma explodeBomb_fields : forall v io now rnd r bombId bomb r' out ts,
    JSMap.get bombId (bombs r) = Some bomb ->
    explodeBomb v io now rnd r bombId = (r', out, ts) ->
    let areas := calculateExplosion (destructibleBlocks r)
                                    (b_x bomb) (b_y bomb) (b_power bomb) in
    let res := destroyBlocks rnd now areas 0 (destructibleBlocks r) (powerUps r) in
    players r'
    = JSMap.mutate_all (damage areas)
        (JSMap.mutate (b_owner bomb)
           (fun owner =>
              with_bombCount owner (decrementBombCount v (p_bombCount owner)))
           (players r))
    /\ bombs r' = JSMap.delete bombId (bombs r)
    /\ destructibleBlocks r' = fst (fst res)
    /\ powerUps r' = snd res
    /\ maxPlayers r' = maxPlayers r
    /\ roomId r' = roomId r
    /\ gameStartTime r' = gameStartTime r
    /\ gameState r' = (if aliveCount r' <=? 1 then finished else gameState r).
Proof.
  intros v io now rnd r bombId bomb r' out ts Hb He areas res.
  pose proof (@explodeBomb_result v io now rnd r bombId bomb Hb) as Hres.
  cbv zeta in Hres. rewrite Hres in He. clear Hres.
  injection He as <- _ _. rewrite checkWinCondition_result.
  fold areas. fold res.
  match goal with
  | |- context [aliveCount ?r1 <=? 1] =>
      assert (Ha : aliveCount (if aliveCount r1 <=? 1
                               then set_gameState r1 finished else r1)
                   = aliveCount r1)
        by (destruct (aliveCount r1 <=? 1); reflexivity);
      rewrite Ha; destruct (aliveCount r1 <=? 1)
  end; simpl; auto 10.
Qed.

Lemma spawnPositions_inside : forall n sx sy,
    nth_error spawnPositions n = Some (sx, sy) ->
    (n < 4)%nat /\ 32 <= sx <= 1024 - 32 /\ 32 <= sy <= 768 - 32.
Proof.
  intros n sx sy. destruct n as [|[|[|[|n]]]]; simpl; intros E;
    try (destruct n; discriminate); injection E as <- <-; repeat split; lia.
Qed.

Lemma room_move_seats : forall v r r',
    room_move v r r' -> seatsSound v r -> seatsSound v r'.
Proof.
  intros v r r' Hmv (Hnd & Hall & H4 & Hmax). unfold seatsSound.
  destruct Hmv as [r s name p r' Ha | r s k r' Hr | r now Hc
                   | r pid ux uy r' _ Hu | r pid x y now bomb r' ts _ Hp
                   | r pid puid r' _ Hc | io now rnd r bombId r' out ts He
                   | r s old p r' Hr | r now].
  - unfold addPlayer in Ha.
    destruct (JSMap.size (players r) >=? maxPlayers r) eqn:Hfull; [discriminate|].
    destruct (nth_error spawnPositions _) as [[sx sy]|] eqn:Hsp; [|discriminate].
    injection Ha as _ <-. simpl. apply Z.ge_le_iff in Hfull || idtac.
    apply spawnPositions_inside in Hsp. destruct Hsp as (Hn & Hx & Hy).
    unfold JSMap.size in *.
    rewrite Z.add_simpl_r, Nat2Z.id in Hn.
    pose proof (length_set_le (Z.of_nat (List.length (players r)) + 1)
                  {| p_id := Z.of_nat (List.length (players r)) + 1;
                     p_socket := s;
                     p_name := nameOr name (Z.of_nat (List.length (players r)) + 1);
                     p_x := sx; p_y := sy; p_health := 100; p_isAlive := true;
                     p_bombCapacity := 1; p_bombCount := 0;
                     p_bombPower := initialBombPower v;
                     p_powerUps := {| t_speed := 10; t_bombs := 0; t_power := 0 |} |}
                  (players r)) as Hle.
    split; [now apply NoDup_keys_set|]. split.
    + apply Forall_set_pair; [|exact Hall].
      unfold playerSound; simpl. repeat split; lia.
    + split; lia.
  - unfold removePlayer in Hr.
    destruct (findBySocket s (players r)) as [k0|]; [|discriminate].
    injection Hr as _ <-. simpl.
    pose proof (length_delete_le k0 (players r)) as Hle. unfold JSMap.size in *.
    split; [now apply NoDup_keys_delete|].
    split; [now apply Forall_delete_pair|]. split; lia.
  - simpl. auto.
  - unfold updatePlayer in Hu.
    destruct (JSMap.get pid (players r)) as [p|]; [|discriminate].
    destruct (p_isAlive p); [|discriminate].
    injection Hu as <-. simpl. unfold JSMap.size in *.
    rewrite keys_mutate_any. unfold JSMap.mutate at 2 3. rewrite length_map.
    split; [exact Hnd|]. split; [|auto].
    apply Forall_mutate_pair; [|exact Hall].
    intros e He. unfold playerSound in *; simpl. repeat split; try tauto; lia.
  - unfold placeBomb in Hp.
    destruct (JSMap.get pid (players r)) as [p|] eqn:Hg; [|discriminate].
    destruct (negb (p_isAlive p) || (p_bombCount p >=? p_bombCapacity p)) eqn:Hguard;
      [discriminate|].
    destruct (existsb _ _); [discriminate|].
    injection Hp as _ <- _. simpl. unfold JSMap.size in *.
    rewrite keys_mutate_any. unfold JSMap.mutate at 2 3. rewrite length_map.
    split; [exact Hnd|]. split; [|auto].
    apply orb_false_iff in Hguard. destruct Hguard as (_ & Hcap).
    eapply Forall_mutate_guarded; [exact Hnd | exact Hg | | exact Hall].
    rewrite Forall_forall in Hall. specialize (Hall _ (get_In _ _ Hg)).
    unfold playerSound in *; simpl in *. repeat split; try tauto; lia.
  - unfold collectPowerUp in Hc.
    destruct (JSMap.get puid (powerUps r)) as [pu|]; [|discriminate].
    destruct (JSMap.get pid (players r)) as [p|]; [|discriminate].
    destruct (negb (p_isAlive p)); [discriminate|].
    injection Hc as <-. simpl. unfold JSMap.size in *.
    rewrite keys_mutate_any. unfold JSMap.mutate at 2 3. rewrite length_map.
    split; [exact Hnd|]. split; [|auto].
    apply Forall_mutate_pair; [|exact Hall].
    intros e He. unfold playerSound in *.
    destruct He as (Hid & Hk & Hpos & Hcnt & (Hcap & Htb) & (Hpow & Htp) & Hsp).
    destruct (u_type pu); cbn [applyPowerUp with_upgrades with_health fst snd
      p_id p_x p_y p_bombCount p_bombCapacity p_bombPower p_powerUps
      t_speed t_bombs t_power]; repeat split; try tauto; lia.
  - destruct (JSMap.get bombId (bombs r)) as [bomb|] eqn:Hb.
    + destruct (@explodeBomb_fields v io now rnd r bombId bomb r' out ts Hb He)
        as (Hps & _ & _ & _ & Hmx & _).
      rewrite Hps, Hmx. unfold JSMap.size in *.
      rewrite keys_mutate_all, keys_mutate_any.
      unfold JSMap.mutate_all at 2 3, JSMap.mutate at 2 3. rewrite !length_map.
      split; [exact Hnd|]. split; [|auto].
      apply Forall_mutate_all_pair.
      * intros e He'. unfold playerSound, damage in *.
        destruct (negb (p_isAlive (snd e))); [destruct e; exact He'|].
        destruct (within40 _ _ _); [|destruct e; exact He']. simpl. tauto.
      * apply Forall_mutate_pair; [|exact Hall].
        intros e He'. unfold playerSound in *; simpl.
        repeat split; try tauto. destruct v; simpl; lia.
    + rewrite (@explodeBomb_absent v io now rnd r bombId Hb) in He.
      injection He as <- _ _. auto.
  - unfold Standalone.rejoinTransitioningPlayer in Hr.
    destruct (Standalone.findSlot old (players r)) as [k|]; [|discriminate].
    destruct (JSMap.get k _); [|discriminate].
    injection Hr as _ <-. simpl. unfold JSMap.size in *.
    rewrite keys_mutate_any. unfold JSMap.mutate at 2 3. rewrite length_map.
    split; [exact Hnd|]. split; [|auto].
    apply Forall_mutate_pair; [|exact Hall].
    intros e He. unfold playerSound in *; simpl. tauto.
  - simpl. auto.
Qed.

Lemma sameCell_sym : forall a b, sameCell a b = sameCell b a.
Proof.
  intros a b. unfold sameCell.
  rewrite <- (Z.abs_opp (b_x a - b_x b)), <- (Z.abs_opp (b_y a - b_y b)).
  now rewrite !Z.opp_sub_distr, !Z.add_opp_l.
Qed.

Lemma FOP_filter : forall (A : Type) (R : A -> A -> Prop) (f : A -> bool) l,
    ForallOrdPairs R l -> ForallOrdPairs R (filter f l).
Proof.
  intros A R f l H; induction H as [|a l Ha Hl IH]; simpl; [constructor|].
  destruct (f a); [|exact IH]. constructor; [|exact IH].
  rewrite Forall_forall in *. intros x Hx. apply filter_In in Hx. apply Ha. tauto.
Qed.

Lemma FOP_set_bomb : forall (k : BombId) (b : Bomb) (m : list (BombId * Bomb)),
    Forall (fun e => sameCell (snd e) b = false) m ->
    ForallOrdPairs (fun e1 e2 => sameCell (snd e1) (snd e2) = false) m ->
    ForallOrdPairs (fun e1 e2 => sameCell (snd e1) (snd e2) = false)
                   (JSMap.set k b m).
Proof.
  intros k b m Hfar H; induction H as [|[k1 b1] m H1 Hm IH]; simpl.
  - constructor; constructor.
  - inversion Hfar as [|? ? Hb1 Hfar']; subst. simpl in Hb1.
    destruct (pair_eqb k k1).
    + constructor; [|exact Hm].
      rewrite Forall_forall in *. intros e He. simpl.
      rewrite sameCell_sym. now apply Hfar'.
    + constructor; [|now apply IH].
      apply Forall_set_pair; [simpl; exact Hb1 | exact H1].
Qed.

Lemma room_move_bombs : forall v r r',
    room_move v r r' -> bombsSound r -> bombsSound r'.
Proof.
  intros v r r' Hmv Hs.
  destruct Hmv as [r s name p r' Ha | r s k r' Hr | r now Hc
                   | r pid ux uy r' _ Hu | r pid x y now bomb r' ts _ Hp
                   | r pid puid r' _ Hc | io now rnd r bombId r' out ts He
                   | r s old p r' Hr | r now].
  - unfold addPlayer in Ha.
    destruct (JSMap.size (players r) >=? maxPlayers r); [discriminate|].
    destruct (nth_error spawnPositions _) as [[sx sy]|]; [|discriminate].
    injection Ha as _ <-. exact Hs.
  - unfold removePlayer in Hr.
    destruct (findBySocket s (players r)); [|discriminate].
    injection Hr as _ <-. exact Hs.
  - exact Hs.
  - unfold updatePlayer in Hu.
    destruct (JSMap.get pid (players r)) as [p|]; [|discriminate].
    destruct (p_isAlive p); [|discriminate].
    injection Hu as <-. exact Hs.
  - unfold placeBomb in Hp.
    destruct (JSMap.get pid (players r)) as [p|] eqn:Hg; [|discriminate].
    destruct (negb (p_isAlive p) || (p_bombCount p >=? p_bombCapacity p));
      [discriminate|].
    destruct (existsb _ _) eqn:Hex; [discriminate|].
    injection Hp as _ <- _. destruct Hs as (Hnd & Hall & Hfop).
    unfold bombsSound; simpl.
    split; [now apply NoDup_keys_set|]. split.
    + apply Forall_set_pair; [|exact Hall].
      unfold bombSound; cbn [fst snd b_id b_x b_y b_placedAt b_owner b_fuseTime].
      repeat split.
      destruct (snapToGrid_multiple x) as (i & Hi).
      destruct (snapToGrid_multiple y) as (j & Hj).
      exists i, j. now rewrite Hi, Hj.
    + apply FOP_set_bomb; [|exact Hfop].
      apply Forall_forall. intros e He.
      assert (Hv : In (snd e) (JSMap.values (bombs r))) by (now apply in_map).
      unfold sameCell; simpl.
      destruct ((Z.abs (b_x (snd e) - snapToGrid x) <? 32)
                && (Z.abs (b_y (snd e) - snapToGrid y) <? 32)) eqn:E;
        [|reflexivity].
      assert (Ht : existsb (fun bomb => (Z.abs (b_x bomb - snapToGrid x) <? 32)
                                        && (Z.abs (b_y bomb - snapToGrid y) <? 32))
                           (JSMap.values (bombs r)) = true)
        by (apply existsb_exists; exists (snd e); split; assumption).
      congruence.
  - unfold collectPowerUp in Hc.
    destruct (JSMap.get puid (powerUps r)) as [pu|]; [|discriminate].
    destruct (JSMap.get pid (players r)) as [p|]; [|discriminate].
    destruct (negb (p_isAlive p)); [discriminate|].
    injection Hc as <-. exact Hs.
  - destruct (JSMap.get bombId (bombs r)) as [bomb|] eqn:Hb.
    + destruct (@explodeBomb_fields v io now rnd r bombId bomb r' out ts Hb He)
        as (_ & Hbs & _).
      destruct Hs as (Hnd & Hall & Hfop). unfold bombsSound. rewrite Hbs.
      split; [now apply NoDup_keys_delete|].
      split; [now apply Forall_delete_pair|].
      unfold JSMap.delete. now apply FOP_filter.
    + rewrite (@explodeBomb_absent v io now rnd r bombId Hb) in He.
      injection He as <- _ _. exact Hs.
  - unfold Standalone.rejoinTransitioningPlayer in Hr.
    destruct (Standalone.findSlot old (players r)) as [k|]; [|discriminate].
    destruct (JSMap.get k _); [|discriminate].
    injection Hr as _ <-. exact Hs.
  - exact Hs.
Qed.

Lemma room_move_arena : forall v r r',
    room_move v r r' -> arenaSound r -> arenaSound r'.
Proof.
  intros v r r' Hmv Hs.
  destruct Hmv as [r s name p r' Ha | r s k r' Hr | r now Hc
                   | r pid ux uy r' _ Hu | r pid x y now bomb r' ts _ Hp
                   | r pid puid r' _ Hc | io now rnd r bombId r' out ts He
                   | r s old p r' Hr | r now].
  - unfold addPlayer in Ha.
    destruct (JSMap.size (players r) >=? maxPlayers r); [discriminate|].
    destruct (nth_error spawnPositions _) as [[sx sy]|]; [|discriminate].
    injection Ha as _ <-. exact Hs.
  - unfold removePlayer in Hr.
    destruct (findBySocket s (players r)); [|discriminate].
    injection Hr as _ <-. exact Hs.
  - exact Hs.
  - unfold updatePlayer in Hu.
    destruct (JSMap.get pid (players r)) as [p|]; [|discriminate].
    destruct (p_isAlive p); [|discriminate].
    injection Hu as <-. exact Hs.
  - unfold placeBomb in Hp.
    destruct (JSMap.get pid (players r)) as [p|] eqn:Hg; [|discriminate].
    destruct (negb (p_isAlive p) || (p_bombCount p >=? p_bombCapacity p));
      [discriminate|].
    destruct (existsb _ _) eqn:Hex; [discriminate|].
    injection Hp as _ <- _. exact Hs.
  - unfold collectPowerUp in Hc.
    destruct (JSMap.get puid (powerUps r)) as [pu|]; [|discriminate].
    destruct (JSMap.get pid (players r)) as [p|]; [|discriminate].
    destruct (negb (p_isAlive p)); [discriminate|].
    injection Hc as <-. destruct Hs as (Hb & Hn & Hu). unfold arenaSound; simpl.
    split; [exact Hb|]. split; [exact Hn|]. now apply Forall_delete_pair.
  - destruct (JSMap.get bombId (bombs r)) as [bomb|] eqn:Hb.
    + destruct (@explodeBomb_fields v io now rnd r bombId bomb r' out ts Hb He)
        as (_ & _ & Hblk & Hus & _).
      destruct Hs as (Hel & Hn & Hu). unfold arenaSound. rewrite Hblk, Hus.
      rewrite (proj1 (destroyBlocks_split _ _ _ _ _ _)).
      split; [|split].
      * rewrite Forall_forall in *. intros blk Hin. apply filter_In in Hin.
        apply Hel. tauto.
      * now apply NoDup_filter.
      * rewrite Forall_forall in *. intros e Hin.
        apply destroyBlocks_powerUps in Hin.
        destruct Hin as [Hold | (blk & Hin & _ & Hx & Hy & _ & Hid)]; [auto|].
        split; [exact Hid|]. rewrite Hx, Hy. now apply Hel.
    + rewrite (@explodeBomb_absent v io now rnd r bombId Hb) in He.
      injection He as <- _ _. exact Hs.
  - unfold Standalone.rejoinTransitioningPlayer in Hr.
    destruct (Standalone.findSlot old (players r)) as [k|]; [|discriminate].
    destruct (JSMap.get k _); [|discriminate].
    injection Hr as _ <-. exact Hs.
  - destruct Hs as (Hb & Hn & Hu). unfold arenaSound; simpl.
    split; [exact Hb|]. split; [exact Hn|].
    rewrite Forall_forall in *. intros e Hin. apply filter_In in Hin.
    apply Hu. tauto.
Qed.

Lemma moves_sound : forall v r r',
    moves v r r' -> roomSound v r -> roomSound v r'.
Proof.
  intros v r r' Hm; induction Hm as [|r r' r'' _ IH Hmv]; [auto|].
  intros Hs. destruct (IH Hs) as (H1 & H2 & H3).
  split; [eapply room_move_seats; eauto|].
  split; [eapply room_move_bombs; eauto | eapply room_move_arena; eauto].
Qed.

Lemma evolves_sound : forall v h h',
    evolves v h h' -> Forall (roomSound v) h -> Forall (roomSound v) h'.
Proof.
  intros v h h' [A B] Hok. apply Forall_forall. intros r' Hin.
  apply In_nth_error in Hin. destruct Hin as (ref & Hr').
  destruct (nth_error h ref) as [r|] eqn:Hr.
  - destruct (A _ _ Hr) as (r'' & Hr'' & Hm).
    assert (r'' = r') by congruence; subst.
    eapply moves_sound; [exact Hm|].
    rewrite Forall_forall in Hok. apply Hok. eapply nth_error_In; eauto.
  - destruct (B _ _ Hr' Hr) as (rnd & rid & maxP & Hm).
    eapply moves_sound; [exact Hm|]. apply newGameRoom_sound.
Qed.

Lemma run_sound : forall v trace w w' out,
    run v w trace = Some (w', out) ->
    Forall (roomSound v) (heap w) -> Forall (roomSound v) (heap w').
Proof.
  intros v trace; induction trace as [|tn trace IH]; intros w w' out; simpl.
  - intros [= <- _]. auto.
  - destruct (step v w tn) as [[w1 out1]|] eqn:Hs; [|discriminate].
    destruct (run v w1 trace) as [[w2 out2]|] eqn:Hr; [|discriminate].
    intros [= <- _] Hok. eapply IH; [exact Hr|].
    eapply evolves_sound; [|exact Hok]. eapply step_evolves; eauto.
Qed.

Lemma reachable_sound : forall v w r,
    reachable v w -> In r (heap w) -> roomSound v r.
Proof.
  intros v w r (trace & out & Hrun) Hin.
  assert (Hok : Forall (roomSound v) (heap w)).
  { eapply run_sound; [exact Hrun|]. destruct v; constructor. }
  rewrite Forall_forall in Hok. auto.
Qed.

(** ** What holds in every reachable state *)

(** X9: in every reachable state of either server a room seats at most
    four players and at most [maxPlayers] (none when that is negative),
    under distinct slot numbers between 1 and 4, each player stored under
    its own id. *)
Theorem seats_within_capacity :
  forall (v : variant) (w : World) (r : GameRoom),
    reachable v w -> In r (heap w) ->
    JSMap.size (players r) <= 4
    /\ JSMap.size (players r) <= Z.max 0 (maxPlayers r)
    /\ NoDup (JSMap.keys (players r))
    /\ (forall k p, In (k, p) (players r) -> p_id p = k /\ 1 <= k <= 4).
Proof.
  intros v w r Hw Hr.
  destruct (@reachable_sound v w r Hw Hr) as ((Hnd & Hall & H4 & Hmax) & _).
  repeat split; try assumption;
    rewrite Forall_forall in Hall; destruct (Hall _ H) as (Hid & Hk & _);
    simpl in *; lia.
Qed.

(** The room of [blastWorld]. *)
Lemma seats_within_capacity_witness :
  stateAfter RootServer trace_blast = Some blastWorld
  /\ JSMap.size (players (nth O (heap blastWorld) noRoom)) <= 4
  /\ JSMap.keys (players (nth O (heap blastWorld) noRoom)) = [1; 2].
Proof.
  assert (Hst : stateAfter RootServer trace_blast = Some blastWorld)
    by (vm_compute; reflexivity).
  split; [exact Hst|].
  destruct (@seats_within_capacity RootServer blastWorld
              (nth O (heap blastWorld) noRoom)
              (reachable_stateAfter _ _ Hst) (or_introl eq_refl))
    as (H4 & _).
  split; [exact H4 | reflexivity].
Defined.

(** X10: in every reachable state of either server every seated player
    stands inside the 32-pixel margin of the 1024 x 768 arena. *)
Theorem players_inside_margin :
  forall (v : variant) (w : World) (r : GameRoom) (k : Z) (p : Player),
    reachable v w -> In r (heap w) -> In (k, p) (players r) ->
    32 <= p_x p <= 1024 - 32 /\ 32 <= p_y p <= 768 - 32.
Proof.
  intros v w r k p Hw Hr Hp.
  destruct (@reachable_sound v w r Hw Hr) as ((_ & Hall & _) & _).
  rewrite Forall_forall in Hall. destruct (Hall _ Hp) as (_ & _ & Hpos & _).
  exact Hpos.
Qed.

(** B in [blastWorld], standing on (512, 384). *)
Lemma players_inside_margin_witness :
  let r := nth O (heap blastWorld) noRoom in
  let p := nth 1 (JSMap.values (players r)) noPlayer in
  (p_x p, p_y p) = (512, 384)
  /\ 32 <= p_x p <= 1024 - 32 /\ 32 <= p_y p <= 768 - 32.
Proof.
  intros r p. split; [reflexivity|].
  assert (Hst : stateAfter RootServer trace_blast = Some blastWorld)
    by (vm_compute; reflexivity).
  exact (@players_inside_margin RootServer blastWorld r 2 p
           (reachable_stateAfter _ _ Hst) (or_introl eq_refl)
           (or_intror (or_introl eq_refl))).
Defined.

(** X11: in every reachable state of either server a player's bomb
    count is at most the player's capacity, and the capacity is at least
    1. *)
Theorem live_bombs_within_capacity :
  forall (v : variant) (w : World) (r : GameRoom) (k : Z) (p : Player),
    reachable v w -> In r (heap w) -> In (k, p) (players r) ->
    p_bombCount p <= p_bombCapacity p /\ 1 <= p_bombCapacity p.
Proof.
  intros v w r k p Hw Hr Hp.
  destruct (@reachable_sound v w r Hw Hr) as ((_ & Hall & _) & _).
  rewrite Forall_forall in Hall.
  destruct (Hall _ Hp) as (_ & _ & _ & Hc & (Hcap & Htb) & _).
  cbn [fst snd] in *. split; lia.
Qed.

(** A in [twoFusesWorld], with one live bomb. *)
Lemma live_bombs_within_capacity_witness :
  let r := nth O (heap twoFusesWorld) noRoom in
  let p := nth 0 (JSMap.values (players r)) noPlayer in
  stateAfter RootServer (firstn 9 trace_game_over) = Some twoFusesWorld
  /\ (p_bombCount p, p_bombCapacity p) = (1, 1)
  /\ p_bombCount p <= p_bombCapacity p /\ 1 <= p_bombCapacity p.
Proof.
  intros r p.
  assert (Hst : stateAfter RootServer (firstn 9 trace_game_over) = Some twoFusesWorld)
    by (vm_compute; reflexivity).
  split; [exact Hst|]. split; [reflexivity|].
  exact (@live_bombs_within_capacity RootServer twoFusesWorld r 1 p
           (reachable_stateAfter _ _ Hst) (or_introl eq_refl) (or_introl eq_refl)).
Defined.

(** X12: in every reachable state of either server a player's capacity
    is 1 plus the bombs tally, the blast power is the server's initial
    power (3 or 5) plus the power tally, both tallies are non-negative,
    and the speed multiplier (in tenths) is between 10 and 20. *)
Theorem upgrades_match_tallies :
  forall (v : variant) (w : World) (r : GameRoom) (k : Z) (p : Player),
    reachable v w -> In r (heap w) -> In (k, p) (players r) ->
    p_bombCapacity p = 1 + t_bombs (p_powerUps p)
    /\ p_bombPower p = initialBombPower v + t_power (p_powerUps p)
    /\ 0 <= t_bombs (p_powerUps p) /\ 0 <= t_power (p_powerUps p)
    /\ 10 <= t_speed (p_powerUps p) <= 20.
Proof.
  intros v w r k p Hw Hr Hp.
  destruct (@reachable_sound v w r Hw Hr) as ((_ & Hall & _) & _).
  rewrite Forall_forall in Hall.
  destruct (Hall _ Hp) as (_ & _ & _ & _ & (Hcap & Htb) & (Hpow & Htp) & Hsp).
  cbn [fst snd] in *. auto.
Qed.

(** B in [blastWorld]. *)
Lemma upgrades_match_tallies_witness :
  let r := nth O (heap blastWorld) noRoom in
  let p := nth 1 (JSMap.values (players r)) noPlayer in
  p_bombCapacity p = 1 + t_bombs (p_powerUps p)
  /\ p_bombPower p = 3 + t_power (p_powerUps p)
  /\ 0 <= t_bombs (p_powerUps p) /\ 0 <= t_power (p_powerUps p)
  /\ 10 <= t_speed (p_powerUps p) <= 20.
Proof.
  intros r p.
  assert (Hst : stateAfter RootServer trace_blast = Some blastWorld)
    by (vm_compute; reflexivity).
  exact (@upgrades_match_tallies RootServer blastWorld r 2 p
           (reachable_stateAfter _ _ Hst) (or_introl eq_refl)
           (or_intror (or_introl eq_refl))).
Defined.

(** X13: in every reachable state of either server two live bombs of a
    room with different ids lie on different cells; a live bomb is stored
    under its id, the id is the pair of its placement time and owner, and
    its coordinates are multiples of 64. *)
Theorem live_bombs_on_distinct_cells :
  forall (v : variant) (w : World) (r : GameRoom)
         (id1 id2 : BombId) (b1 b2 : Bomb),
    reachable v w -> In r (heap w) ->
    In (id1, b1) (bombs r) -> In (id2, b2) (bombs r) -> id1 <> id2 ->
    (b_x b1, b_y b1) <> (b_x b2, b_y b2)
    /\ b_id b1 = id1
    /\ id1 = (b_placedAt b1, b_owner b1)
    /\ (exists i j, b_x b1 = 64 * i /\ b_y b1 = 64 * j).
Proof.
  intros v w r id1 id2 b1 b2 Hw Hr H1 H2 Hne.
  destruct (@reachable_sound v w r Hw Hr) as (_ & (Hnd & Hall & Hfop) & _).
  split.
  - assert (Hfar : sameCell b1 b2 = false).
    { destruct (ForallOrdPairs_In Hfop _ _ H1 H2) as [E | [E | E]].
      - congruence.
      - exact E.
      - simpl in E. now rewrite sameCell_sym. }
    intros E. injection E as Ex Ey. unfold sameCell in Hfar.
    rewrite Ex, Ey, !Z.sub_diag in Hfar. discriminate.
  - rewrite Forall_forall in Hall. destruct (Hall _ H1) as (Hid & Hk & Hgrid & _).
    simpl in *. auto.
Qed.

(** The two bombs of [twoFusesWorld]. *)
Lemma live_bombs_on_distinct_cells_witness :
  let r := nth O (heap twoFusesWorld) noRoom in
  JSMap.keys (bombs r) = [(4000, 1); (4500, 2)]
  /\ exists b1 b2,
      In ((4000, 1), b1) (bombs r) /\ In ((4500, 2), b2) (bombs r)
      /\ (b_x b1, b_y b1) <> (b_x b2, b_y b2).
Proof.
  intros r. split; [reflexivity|].
  assert (Hst : stateAfter RootServer (firstn 9 trace_game_over) = Some twoFusesWorld)
    by (vm_compute; reflexivity).
  exists (snd (nth 0 (bombs r) ((0, 0), sampleBomb (0, 0) 0 0))),
         (snd (nth 1 (bombs r) ((0, 0), sampleBomb (0, 0) 0 0))).
  assert (H1 : In ((4000, 1), snd (nth 0 (bombs r) ((0, 0), sampleBomb (0, 0) 0 0)))
                  (bombs r)) by (left; reflexivity).
  assert (H2 : In ((4500, 2), snd (nth 1 (bombs r) ((0, 0), sampleBomb (0, 0) 0 0)))
                  (bombs r)) by (right; left; reflexivity).
  split; [exact H1|]. split; [exact H2|].
  refine (proj1 (@live_bombs_on_distinct_cells RootServer twoFusesWorld r
                   (4000, 1) (4500, 2) _ _
                   (reachable_stateAfter _ _ Hst) (or_introl eq_refl) H1 H2 _)).
  discriminate.
Defined.

(** X14: in every reachable state of either server the destructible
    blocks of a room are distinct cells of the 64-grid that starts at
    100 (x up to 868, y up to 612), none too close to a corner or a
    landmark; and every power-up is stored under its id and lies on such
    a cell. *)
Theorem blocks_on_eligible_cells :
  forall (v : variant) (w : World) (r : GameRoom),
    reachable v w -> In r (heap w) ->
    NoDup (destructibleBlocks r)
    /\ (forall blk, In blk (destructibleBlocks r) ->
                    100 <= k_x blk <= 868 /\ 100 <= k_y blk <= 612
                    /\ (k_x blk - 100) mod 64 = 0 /\ (k_y blk - 100) mod 64 = 0
                    /\ tooClose (k_x blk) (k_y blk) = false)
    /\ (forall id u, In (id, u) (powerUps r) ->
                     u_id u = id
                     /\ In (u_x u, u_y u) grid_cells
                     /\ tooClose (u_x u) (u_y u) = false).
Proof.
  intros v w r Hw Hr.
  destruct (@reachable_sound v w r Hw Hr) as (_ & _ & (Hel & Hn & Hu)).
  split; [exact Hn|]. split.
  - intros blk Hin. rewrite Forall_forall in Hel.
    destruct (Hel _ Hin) as (Hg & Ht).
    pose proof (grid_cells_range Hg). tauto.
  - intros id u Hin. rewrite Forall_forall in Hu.
    destruct (Hu _ Hin) as (Hid & Hg & Ht). simpl in *. auto.
Qed.

(** The 76 blocks of the room of [blastWorld]. *)
Lemma blocks_on_eligible_cells_witness :
  let r := nth O (heap blastWorld) noRoom in
  List.length (destructibleBlocks r) = 76%nat
  /\ NoDup (destructibleBlocks r)
  /\ (forall blk, In blk (destructibleBlocks r) ->
                  100 <= k_x blk <= 868 /\ 100 <= k_y blk <= 612).
Proof.
  intros r. split; [reflexivity|].
  assert (Hst : stateAfter RootServer trace_blast = Some blastWorld)
    by (vm_compute; reflexivity).
  destruct (@blocks_on_eligible_cells RootServer blastWorld r
              (reachable_stateAfter _ _ Hst) (or_introl eq_refl))
    as (Hn & Hb & _).
  split; [exact Hn|]. intros blk Hin. destruct (Hb blk Hin) as (Hx & Hy & _).
  split; assumption.
Defined.

(** ** Refused joins *)

(** X15: server.js, a [joinRoom] from a connection that is not yet
    bound: when the room id is not registered the sender gets the error
    [Room not found], when the room already seats [maxPlayers] players it
    gets [Room is full]; in both cases nothing else is emitted and the
    state is unchanged. *)
Theorem Root_joinRoom_refused :
  forall (w : World) (s : SocketId) (now : Z) (data : JoinData),
    JSMap.get s (playerSockets w) = None ->
    match JSMap.get (jd_roomId data) (gameRooms w) with
    | None =>
        Root.onJoinRoom w s now data = Normal (w, [(s, EvError "Room not found")])
    | Some ref =>
        forall room,
          nth_error (heap w) ref = Some room ->
          maxPlayers room <= JSMap.size (players room) ->
          Root.onJoinRoom w s now data = Normal (w, [(s, EvError "Room is full")])
    end.
Proof.
  intros w s now data Hs. unfold Root.onJoinRoom. rewrite Hs.
  destruct (JSMap.get (jd_roomId data) (gameRooms w)) as [ref|]; [|reflexivity].
  intros room Hh Hfull. rewrite Hh. unfold addPlayer.
  assert (E : (JSMap.size (players room) >=? maxPlayers room) = true)
    by (apply Z.geb_le; exact Hfull).
  now rewrite E.
Qed.

(** A fifth connection and the full room of [fullRoomWorld]. *)
Lemma Root_joinRoom_refused_witness :
  stateAfter RootServer (trace_four None) = Some fullRoomWorld
  /\ Root.onJoinRoom fullRoomWorld "s5" 1400 (named (0, 0) "E")
     = Normal (fullRoomWorld, [("s5", EvError "Room not found")])
  /\ Root.onJoinRoom fullRoomWorld "s5" 1400 (named firstRoom "E")
     = Normal (fullRoomWorld, [("s5", EvError "Room is full")]).
Proof.
  split; [vm_compute; reflexivity|]. split.
  - exact (@Root_joinRoom_refused fullRoomWorld "s5" 1400 (named (0, 0) "E") eq_refl).
  - refine (@Root_joinRoom_refused fullRoomWorld "s5" 1400 (named firstRoom "E")
              eq_refl (nth O (heap fullRoomWorld) noRoom) eq_refl _).
    vm_compute. discriminate.
Defined.

(** X16: a room with four or more seated players and a larger
    [maxPlayers] cannot seat the next one: [addPlayer] throws on the
    missing spawn position. In server.js the [joinRoom] handler ends in
    that exception (the turn has no successor state); the standalone
    server catches it, answers [Failed to join room] and changes
    nothing. *)
Theorem fifth_seat_throws :
  forall (w : World) (s : SocketId) (now : Z) (data : JoinData)
         (ref : nat) (room : GameRoom),
    JSMap.get (jd_roomId data) (gameRooms w) = Some ref ->
    nth_error (heap w) ref = Some room ->
    4 <= JSMap.size (players room) < maxPlayers room ->
    (forall v, addPlayer v room s (jd_name data) = Throw)
    /\ (JSMap.get s (playerSockets w) = None ->
        Root.onJoinRoom w s now data = Throw
        /\ forall rnd, step RootServer w
                            {| at_time := now; randoms := rnd;
                               what := Recv s (MJoinRoom data) |} = None)
    /\ (find (Standalone.matchesJoin data) (transitioningPlayers w) = None ->
        Standalone.onJoinRoom w s now data
        = (w, [(s, EvError "Failed to join room")])).
Proof.
  intros w s now data ref room Hg Hh Hsz.
  assert (Ha : forall v, addPlayer v room s (jd_name data) = Throw).
  { intros v. unfold addPlayer.
    assert (E : (JSMap.size (players room) >=? maxPlayers room) = false)
      by (rewrite Z.geb_leb; apply Z.leb_gt; lia).
    rewrite E.
    assert (En : nth_error spawnPositions
                   (Z.to_nat (JSMap.size (players room) + 1 - 1)) = None).
    { apply nth_error_None. simpl. lia. }
    now rewrite En. }
  split; [exact Ha|]. split.
  - intros Hs.
    assert (Hj : Root.onJoinRoom w s now data = Throw)
      by (unfold Root.onJoinRoom; now rewrite Hs, Hg, Hh, Ha).
    split; [exact Hj|]. intros rnd. unfold step. cbn [at_time what randoms].
    destruct (now <? clock w); [reflexivity|].
    destruct (isOpen _ s); [|reflexivity].
    unfold onMessage, Root.onJoinRoom. cbn [playerSockets gameRooms heap set_clock].
    now rewrite Hs, Hg, Hh, Ha.
  - intros Hf. unfold Standalone.onJoinRoom. now rewrite Hg, Hh, Hf, Ha.
Qed.

(** A fifth connection and the room of [bigRoomWorld], created for five. *)
Lemma fifth_seat_throws_witness :
  stateAfter RootServer (trace_four (Some 5)) = Some bigRoomWorld
  /\ Root.onJoinRoom bigRoomWorld "s5" 1400 (named firstRoom "E") = Throw
  /\ stateAfter RootServer
       (trace_four (Some 5) ++ [turn 1400 (Recv "s5" (MJoinRoom (named firstRoom "E")))])
     = None.
Proof.
  split; [vm_compute; reflexivity|].
  assert (Hsz : 4 <= JSMap.size (players (nth O (heap bigRoomWorld) noRoom))
                < maxPlayers (nth O (heap bigRoomWorld) noRoom))
    by (vm_compute; split; [discriminate | reflexivity]).
  destruct (@fifth_seat_throws bigRoomWorld "s5" 1400 (named firstRoom "E") O
              (nth O (heap bigRoomWorld) noRoom) eq_refl eq_refl Hsz)
    as (_ & Hroot & _).
  split; [exact (proj1 (Hroot eq_refl))|].
  vm_compute. reflexivity.
Defined.

(** ** createRoom *)

Lemma store_snoc : forall (h : list GameRoom) r r',
    store (List.length h) r' (h ++ [r]) = h ++ [r'].
Proof. intros h r r'; induction h as [|a h IH]; simpl; [reflexivity | now rewrite IH]. Qed.

Lemma addPlayer_newGameRoom : forall v rnd rid maxP s name,
    addPlayer v (newGameRoom rnd rid maxP) s name
    = if 1 <=? maxP
      then let p := {| p_id := 1; p_socket := s; p_name := nameOr name 1;
                       p_x := 64; p_y := 64; p_health := 100; p_isAlive := true;
                       p_bombCapacity := 1; p_bombCount := 0;
                       p_bombPower := initialBombPower v;
                       p_powerUps := {| t_speed := 10; t_bombs := 0; t_power := 0 |} |} in
           Normal (Some p, set_players (newGameRoom rnd rid maxP) [(1, p)])
      else Normal (None, newGameRoom rnd rid maxP).
Proof.
  intros v rnd rid maxP s name. unfold addPlayer.
  change (players (newGameRoom rnd rid maxP)) with (@nil (Z * Player)).
  change (maxPlayers (newGameRoom rnd rid maxP)) with maxP.
  change (JSMap.size (@nil (Z * Player))) with 0.
  rewrite Z.geb_leb.
  destruct (1 <=? maxP) eqn:Hm.
  - assert (E : (maxP <=? 0) = false) by (apply Z.leb_gt; apply Z.leb_le in Hm; lia).
    rewrite E. reflexivity.
  - assert (E : (maxP <=? 0) = true) by (apply Z.leb_le; apply Z.leb_gt in Hm; lia).
    rewrite E. reflexivity.
Qed.

(** X17: [createRoom] never throws. It registers a fresh room object
    under the id (now, first random), waiting, without bombs or
    power-ups, with [maxPlayers] as sent (4 when absent or 0), and sets no
    timer. When [maxPlayers] is at least 1 the creator takes slot 1 at
    (64, 64) with health 100, the connection is bound to (room, 1)
    whatever it was bound to before, and [roomCreated] is the only
    event; otherwise the room stays empty, no binding changes and
    nothing is emitted. *)
Theorem createRoom_outcome :
  forall (v : variant) (w : World) (s : SocketId) (now : Z) (rnd : nat -> Z)
         (data : JoinData),
    let rid := (now, rnd O) in
    exists w' out room,
      onCreateRoom v w s now rnd data = Normal (w', out)
      /\ heap w' = heap w ++ [room]
      /\ JSMap.get rid (gameRooms w') = Some (List.length (heap w))
      /\ timers w' = timers w
      /\ roomId room = rid
      /\ maxPlayers room = orElse (jd_maxPlayers data) 4
      /\ gameState room = waiting
      /\ bombs room = [] /\ powerUps room = []
      /\ destructibleBlocks room = initializeDestructibleBlocks (fun k => rnd (S k))
      /\ if 1 <=? orElse (jd_maxPlayers data) 4
         then exists p,
             players room = [(1, p)]
             /\ p_socket p = s /\ (p_x p, p_y p) = (64, 64)
             /\ p_health p = 100 /\ p_isAlive p = true
             /\ JSMap.get s (playerSockets w') = Some (rid, 1)
             /\ out = [(s, EvRoomCreated rid 1 (getGameState room))]
         else players room = []
              /\ playerSockets w' = playerSockets w /\ out = [].
Proof.
  intros v w s now rnd data rid. unfold onCreateRoom. fold rid.
  rewrite addPlayer_newGameRoom.
  destruct (1 <=? orElse (jd_maxPlayers data) 4) eqn:Hm; cbv zeta.
  - do 3 eexists. split; [reflexivity|].
    cbn [heap gameRooms timers playerSockets set_heap set_gameRooms
         set_playerSockets socketJoin set_io].
    split; [apply store_snoc|].
    split; [apply get_set_same|].
    split; [reflexivity|].
    do 6 (split; [reflexivity|]).
    eexists. split; [reflexivity|].
    do 4 (split; [reflexivity|]).
    split; [apply get_set_same | reflexivity].
  - do 3 eexists. split; [reflexivity|].
    cbn [heap gameRooms timers playerSockets set_heap set_gameRooms].
    split; [reflexivity|]. split; [apply get_set_same|].
    repeat split.
Qed.

(** ** disconnect, server.js *)

(** X18: server.js, the disconnect of a connection bound to a
    registered room in which it has a seat: the first slot bound to it is
    emptied, [playerLeft] with that slot number goes to the open
    connections still seated, the binding is removed, no timer changes;
    the room is unregistered exactly when it is now empty and not
    playing, so a playing room that empties stays registered. *)
Theorem Root_onDisconnect_outcome :
  forall (w : World) (s : SocketId) (rid : RoomId) (pid : Z) (ref : nat)
         (room : GameRoom) (k : Z),
    JSMap.get s (playerSockets w) = Some (rid, pid) ->
    JSMap.get rid (gameRooms w) = Some ref ->
    nth_error (heap w) ref = Some room ->
    findBySocket s (players room) = Some k ->
    let w' := fst (Root.onDisconnect w s) in
    let room' := set_players room (JSMap.delete k (players room)) in
    JSMap.get s (playerSockets w') = None
    /\ timers w' = timers w
    /\ heap w' = store ref room' (heap w)
    /\ JSMap.get rid (gameRooms w')
       = (if (JSMap.size (players room') =? 0)
             && negb (Phase_eqb (gameState room) playing)
          then None else Some ref)
    /\ snd (Root.onDisconnect w s)
       = broadcastToRoom (io w) room' (EvPlayerLeft k (getGameState room')).
Proof.
  intros w s rid pid ref room k Hs Hg Hh Hf w' room'. subst w'.
  unfold Root.onDisconnect. rewrite Hs, Hg, Hh. unfold removePlayer. rewrite Hf.
  fold room'. change (gameState room') with (gameState room).
  destruct ((JSMap.size (players room') =? 0)
            && negb (Phase_eqb (gameState room) playing));
    cbn [fst snd playerSockets timers heap gameRooms set_playerSockets
         set_gameRooms set_heap];
    (split; [apply get_delete_same|]); repeat split;
    [apply get_delete_same | exact Hg].
Qed.

(** The last player leaves the playing room of [lastPlayerWorld]: the room stays registered, empty. *)
Lemma Root_onDisconnect_outcome_witness :
  phases lastPlayerWorld = [playing]
  /\ JSMap.get firstRoom
       (gameRooms (fst (Root.onDisconnect lastPlayerWorld "s1"))) = Some O
  /\ JSMap.get "s1" (playerSockets (fst (Root.onDisconnect lastPlayerWorld "s1")))
     = None
  /\ option_map (fun r => JSMap.size (players r))
       (nth_error (heap (fst (Root.onDisconnect lastPlayerWorld "s1"))) O)
     = Some 0.
Proof.
  split; [reflexivity|].
  destruct (@Root_onDisconnect_outcome lastPlayerWorld "s1" firstRoom 1 O
              (nth O (heap lastPlayerWorld) noRoom) 1
              eq_refl eq_refl eq_refl eq_refl) as (A & _ & H & B & _).
  split; [exact B|]. split; [exact A|]. rewrite H. reflexivity.
Defined.

(** ** A game starts once *)

Lemma room_move_started : forall v r r',
    room_move v r r' -> gameState r <> waiting ->
    gameStartTime r' = gameStartTime r.
Proof.
  intros v r r' Hmv Hnw.
  destruct Hmv as [r s name p r' Ha | r s k r' Hr | r now Hc
                   | r pid ux uy r' _ Hu | r pid x y now bomb r' ts _ Hp
                   | r pid puid r' _ Hc | io now rnd r bombId r' out ts He
                   | r s old p r' Hr | r now].
  - unfold addPlayer in Ha.
    destruct (JSMap.size (players r) >=? maxPlayers r); [discriminate|].
    destruct (nth_error spawnPositions _) as [[sx sy]|]; [|discriminate].
    injection Ha as _ <-. reflexivity.
  - unfold removePlayer in Hr.
    destruct (findBySocket s (players r)); [|discriminate].
    injection Hr as _ <-. reflexivity.
  - unfold canStartGame in Hc. apply andb_true_iff in Hc.
    destruct Hc as (_ & Hc). apply Phase_eqb_eq in Hc. contradiction.
  - unfold updatePlayer in Hu.
    destruct (JSMap.get pid (players r)) as [p|]; [|discriminate].
    destruct (p_isAlive p); [|discriminate].
    injection Hu as <-. reflexivity.
  - unfold placeBomb in Hp.
    destruct (JSMap.get pid (players r)) as [p|]; [|discriminate].
    destruct (negb (p_isAlive p) || (p_bombCount p >=? p_bombCapacity p));
      [discriminate|].
    destruct (existsb _ _); [discriminate|].
    injection Hp as _ <- _. reflexivity.
  - unfold collectPowerUp in Hc.
    destruct (JSMap.get puid (powerUps r)) as [pu|]; [|discriminate].
    destruct (JSMap.get pid (players r)) as [p|]; [|discriminate].
    destruct (negb (p_isAlive p)); [discriminate|].
    injection Hc as <-. reflexivity.
  - destruct (JSMap.get bombId (bombs r)) as [bomb|] eqn:Hb.
    + pose proof (@explodeBomb_fields v io now rnd r bombId bomb r' out ts Hb He) as Hf.
      cbv zeta in Hf. destruct Hf as (_ & _ & _ & _ & _ & _ & Hf & _). exact Hf.
    + rewrite (@explodeBomb_absent v io now rnd r bombId Hb) in He.
      injection He as <- _ _. reflexivity.
  - unfold Standalone.rejoinTransitioningPlayer in Hr.
    destruct (Standalone.findSlot old (players r)) as [k|]; [|discriminate].
    destruct (JSMap.get k _); [|discriminate].
    injection Hr as _ <-. reflexivity.
  - reflexivity.
Qed.

Lemma moves_started : forall v r r',
    moves v r r' -> gameState r <> waiting ->
    gameState r' <> waiting /\ gameStartTime r' = gameStartTime r.
Proof.
  intros v r r' Hm Hnw; induction Hm as [r|r r' r'' _ IH Hmv]; [auto|].
  destruct (IH Hnw) as (Hnw' & Ht). split.
  - pose proof (room_move_phase Hmv) as Hle.
    destruct (gameState r'), (gameState r''); simpl in Hle; congruence.
  - rewrite <- Ht. eapply room_move_started; eauto.
Qed.

Lemma run_evolves : forall v trace w w' out,
    run v w trace = Some (w', out) -> evolves v (heap w) (heap w').
Proof.
  intros v trace; induction trace as [|tn trace IH]; intros w w' out; simpl.
  - intros [= <- _]. apply evolves_refl.
  - destruct (step v w tn) as [[w1 out1]|] eqn:Hs; [|discriminate].
    destruct (run v w1 trace) as [[w2 out2]|] eqn:Hr; [|discriminate].
    intros [= <- _]. eapply evolves_trans; [eapply step_evolves; eauto | eauto].
Qed.

(** X20: a room that has left the waiting phase never starts again: over
    any sequence of turns of either server it stays out of waiting,
    [canStartGame] is false, and [gameStartTime] keeps its value. *)
Theorem game_starts_once :
  forall (v : variant) (w : World) (trace : list Turn) (w' : World)
         (out : list Emit) (ref : nat) (room : GameRoom),
    run v w trace = Some (w', out) ->
    nth_error (heap w) ref = Some room ->
    gameState room <> waiting ->
    exists room',
      nth_error (heap w') ref = Some room'
      /\ gameState room' <> waiting
      /\ canStartGame room' = false
      /\ gameStartTime room' = gameStartTime room.
Proof.
  intros v w trace w' out ref room Hrun Hh Hnw.
  destruct (run_evolves _ _ _ Hrun) as [A _].
  destruct (A _ _ Hh) as (room' & Hh' & Hm).
  destruct (moves_started Hm Hnw) as (Hnw' & Ht).
  exists room'. repeat split; trivial.
  unfold canStartGame. destruct (gameState room'); try contradiction;
    simpl; apply andb_false_r.
Qed.

(** The room of [twoFusesWorld] over the rest of [trace_game_over]. *)
Lemma game_starts_once_witness :
  option_map gameStartTime (nth_error (heap twoFusesWorld) O) = Some (Some 3100)
  /\ exists w' out room',
      run RootServer twoFusesWorld (skipn 9 trace_game_over) = Some (w', out)
      /\ nth_error (heap w') O = Some room'
      /\ canStartGame room' = false
      /\ gameStartTime room' = Some 3100.
Proof.
  split; [reflexivity|].
  destruct (run RootServer twoFusesWorld (skipn 9 trace_game_over))
    as [[w' out]|] eqn:Hrun; [|vm_compute in Hrun; discriminate].
  assert (Hnw : gameState (nth O (heap twoFusesWorld) noRoom) <> waiting)
    by (vm_compute; discriminate).
  destruct (@game_starts_once RootServer twoFusesWorld (skipn 9 trace_game_over)
              w' out O (nth O (heap twoFusesWorld) noRoom) Hrun eq_refl Hnw)
    as (room' & Hh & _ & Hc & Ht).
  exists w', out, room'. repeat split; trivial.
Defined.

(** ** Every live bomb has its fuse pending *)

Lemma bombsWithin_refl : forall h, bombsWithin h h.
Proof. intros h ref room id Hh Hin. eauto. Qed.

Lemma bombsWithin_trans : forall h1 h2 h3,
    bombsWithin h1 h2 -> bombsWithin h2 h3 -> bombsWithin h1 h3.
Proof.
  intros h1 h2 h3 H12 H23 ref room id Hh Hin.
  destruct (H23 _ _ _ Hh Hin) as (r2 & Hh2 & Hin2). eauto.
Qed.

Lemma bombsWithin_store : forall h ref room room',
    nth_error h ref = Some room ->
    incl (JSMap.keys (bombs room')) (JSMap.keys (bombs room)) ->
    bombsWithin h (store ref room' h).
Proof.
  intros h ref room room' Hh Hincl ref0 r0 id Hh0 Hin.
  destruct (Nat.eq_dec ref ref0) as [<-|Hne].
  - erewrite nth_error_store_same in Hh0 by exact Hh. injection Hh0 as <-.
    exists room. auto.
  - rewrite nth_error_store_other in Hh0 by assumption. eauto.
Qed.

Lemma bombsWithin_snoc : forall h r,
    bombs r = [] -> bombsWithin h (h ++ [r]).
Proof.
  intros h r Hb ref r0 id Hh Hin.
  destruct (Nat.lt_ge_cases ref (List.length h)) as [Hlt|Hge].
  - rewrite nth_error_app1 in Hh by assumption. eauto.
  - rewrite nth_error_app2 in Hh by assumption.
    destruct (ref - List.length h)%nat as [|k]; simpl in Hh.
    + injection Hh as <-. rewrite Hb in Hin. contradiction.
    + destruct k; discriminate.
Qed.

Lemma quiet_refl : forall w, quiet w w.
Proof. intros w. split; [apply bombsWithin_refl | apply incl_refl]. Qed.

Lemma quiet_trans : forall w1 w2 w3, quiet w1 w2 -> quiet w2 w3 -> quiet w1 w3.
Proof.
  intros w1 w2 w3 [A1 B1] [A2 B2]. split.
  - eapply bombsWithin_trans; eauto.
  - eapply incl_tran; eauto.
Qed.

Lemma quiet_fuses : forall w w', quiet w w' -> fusesPending w -> fusesPending w'.
Proof.
  intros w w' [A B] Hf ref room' id Hh Hin.
  destruct (A _ _ _ Hh Hin) as (room & Hh0 & Hin0). apply B. eauto.
Qed.

(** The methods that leave the bombs of the room alone. *)
Lemma addPlayer_bombs : forall v r s name p r',
    addPlayer v r s name = Normal (Some p, r') -> bombs r' = bombs r.
Proof.
  intros v r s name p r' Ha. unfold addPlayer in Ha.
  destruct (JSMap.size (players r) >=? maxPlayers r); [discriminate|].
  destruct (nth_error spawnPositions _) as [[sx sy]|]; [|discriminate].
  injection Ha as _ <-. reflexivity.
Qed.

Lemma removePlayer_bombs : forall r s k r',
    removePlayer r s = (k, r') -> bombs r' = bombs r.
Proof.
  intros r s k r' Hr. unfold removePlayer in Hr.
  destruct (findBySocket s (players r)); injection Hr as _ <-; reflexivity.
Qed.

Lemma updatePlayer_bombs : forall r pid ux uy b r',
    updatePlayer r pid ux uy = (b, r') -> bombs r' = bombs r.
Proof.
  intros r pid ux uy b r' Hu. unfold updatePlayer in Hu.
  destruct (JSMap.get pid (players r)) as [p|];
    [destruct (p_isAlive p)|]; injection Hu as _ <-; reflexivity.
Qed.

Lemma collectPowerUp_bombs : forall r pid puid b r',
    collectPowerUp r pid puid = (b, r') -> bombs r' = bombs r.
Proof.
  intros r pid puid b r' Hc. unfold collectPowerUp in Hc.
  destruct (JSMap.get puid (powerUps r)) as [pu|];
    [destruct (JSMap.get pid (players r)) as [p|];
     [destruct (negb (p_isAlive p))|]|];
    injection Hc as _ <-; reflexivity.
Qed.

Lemma rejoin_bombs : forall r s old p r',
    Standalone.rejoinTransitioningPlayer r s old = Some (p, r') ->
    bombs r' = bombs r.
Proof.
  intros r s old p r' Hr. unfold Standalone.rejoinTransitioningPlayer in Hr.
  destruct (Standalone.findSlot old (players r)) as [k|]; [|discriminate].
  destruct (JSMap.get k _); [|discriminate].
  injection Hr as _ <-. reflexivity.
Qed.

Lemma incl_eq : forall (A : Type) (l l' : list A), l = l' -> incl l l'.
Proof. intros A l l' ->. apply incl_refl. Qed.

Ltac quiet_store Hh lem :=
  split;
  [ cbn [heap timers set_heap set_timers set_playerSockets set_gameRooms
         set_transitioning set_io socketJoin setTimeout];
    eapply bombsWithin_store; [exact Hh | apply incl_eq; f_equal; eapply lem; eassumption]
  | cbn [heap timers set_heap set_timers set_playerSockets set_gameRooms
         set_transitioning set_io socketJoin setTimeout];
    first [apply incl_refl | apply incl_appl, incl_refl] ].

Ltac quiet_same :=
  split;
  cbn [fst heap timers set_heap set_timers set_playerSockets set_gameRooms
       set_transitioning set_io socketJoin setTimeout];
  [ apply bombsWithin_refl
  | first [apply incl_refl | apply incl_appl, incl_refl] ].

Lemma onPlayerMove_quiet : forall w s x y, quiet w (fst (onPlayerMove w s x y)).
Proof.
  intros w s x y. unfold onPlayerMove.
  destruct (playingRoomOf w s) as [[[[rid pid] ref] room]|] eqn:Hp;
    [|apply quiet_refl].
  apply playingRoomOf_sound in Hp. destruct Hp as (_ & _ & Hh & Hg).
  destruct (updatePlayer room pid x y) as [[] room'] eqn:Hu;
    [|apply quiet_refl].
  cbn [fst]. quiet_store Hh updatePlayer_bombs.
Qed.

Lemma onCollectPowerUp_quiet : forall w s powerUpId,
    quiet w (fst (onCollectPowerUp w s powerUpId)).
Proof.
  intros w s powerUpId. unfold onCollectPowerUp.
  destruct (playingRoomOf w s) as [[[[rid pid] ref] room]|] eqn:Hp;
    [|apply quiet_refl].
  apply playingRoomOf_sound in Hp. destruct Hp as (_ & _ & Hh & Hg).
  destruct (collectPowerUp room pid powerUpId) as [[] room'] eqn:Hu;
    [|apply quiet_refl].
  cbn [fst]. quiet_store Hh collectPowerUp_bombs.
Qed.

Lemma onCreateRoom_quiet : forall v w s now rnd data w' out,
    onCreateRoom v w s now rnd data = Normal (w', out) -> quiet w w'.
Proof.
  intros v w s now rnd data w' out Hc. unfold onCreateRoom in Hc.
  rewrite addPlayer_newGameRoom in Hc.
  destruct (1 <=? orElse (jd_maxPlayers data) 4); cbv zeta in Hc;
    injection Hc as <- _; split;
    cbn [heap timers set_heap set_timers set_playerSockets set_gameRooms
         set_io socketJoin];
    try apply incl_refl.
  - rewrite store_snoc. apply bombsWithin_snoc. reflexivity.
  - apply bombsWithin_snoc. reflexivity.
Qed.

Lemma Root_onJoinRoom_quiet : forall w s now data w' out,
    Root.onJoinRoom w s now data = Normal (w', out) -> quiet w w'.
Proof.
  intros w s now data w' out. unfold Root.onJoinRoom.
  destruct (JSMap.get s (playerSockets w));
    [intros [= <- _]; apply quiet_refl|].
  destruct (JSMap.get (jd_roomId data) (gameRooms w)) as [ref|];
    [|intros [= <- _]; apply quiet_refl].
  destruct (nth_error (heap w) ref) as [room|] eqn:Hh;
    [|intros [= <- _]; apply quiet_refl].
  destruct (addPlayer RootServer room s (jd_name data))
    as [[[player|] room']|] eqn:Ha;
    [| intros [= <- _]; apply quiet_refl | discriminate].
  destruct (canStartGame room'); intros [= <- _];
    quiet_store Hh addPlayer_bombs.
Qed.

Lemma Root_onDisconnect_quiet : forall w s,
    quiet w (fst (Root.onDisconnect w s)).
Proof.
  intros w s. unfold Root.onDisconnect.
  destruct (JSMap.get s (playerSockets w)) as [[rid pid]|]; [|apply quiet_refl].
  destruct (JSMap.get rid (gameRooms w)) as [ref|]; [|quiet_same].
  destruct (nth_error (heap w) ref) as [room|] eqn:Hh; [|quiet_same].
  destruct (removePlayer room s) as [[k|] room'] eqn:Hr; [|quiet_same].
  break_if; cbn [fst]; quiet_store Hh removePlayer_bombs.
Qed.

Lemma Standalone_onJoinRoom_quiet : forall w s now data,
    quiet w (fst (Standalone.onJoinRoom w s now data)).
Proof.
  intros w s now data. unfold Standalone.onJoinRoom.
  destruct (JSMap.get (jd_roomId data) (gameRooms w)) as [ref|];
    [|apply quiet_refl].
  destruct (nth_error (heap w) ref) as [room|] eqn:Hh; [|apply quiet_refl].
  destruct (find (Standalone.matchesJoin data) (transitioningPlayers w))
    as [[old td]|].
  - destruct (Standalone.rejoinTransitioningPlayer room s td)
      as [[player room']|] eqn:Hr.
    + cbn [fst]. quiet_store Hh rejoin_bombs.
    + destruct (addPlayer StandaloneServer room s (jd_name data))
        as [[[player|] room']|] eqn:Ha; try apply quiet_refl.
      destruct (canStartGame room'); cbn [fst]; quiet_store Hh addPlayer_bombs.
  - destruct (addPlayer StandaloneServer room s (jd_name data))
      as [[[player|] room']|] eqn:Ha; try apply quiet_refl.
    destruct (canStartGame room'); cbn [fst]; quiet_store Hh addPlayer_bombs.
Qed.

Lemma removeFrom_quiet : forall w rid s,
    quiet w (fst (Standalone.removeFrom w rid s)).
Proof.
  intros w rid s. unfold Standalone.removeFrom.
  destruct (JSMap.get rid (gameRooms w)) as [ref|]; [|apply quiet_refl].
  destruct (nth_error (heap w) ref) as [room|] eqn:Hh; [|apply quiet_refl].
  destruct (removePlayer room s) as [[k|] room'] eqn:Hr; [|apply quiet_refl].
  break_if; cbn [fst]; quiet_store Hh removePlayer_bombs.
Qed.

Lemma Standalone_onDisconnect_quiet : forall w s now,
    quiet w (fst (Standalone.onDisconnect w s now)).
Proof.
  intros w s now. unfold Standalone.onDisconnect.
  destruct (JSMap.get s (playerSockets w)) as [[rid pid]|]; [|apply quiet_refl].
  destruct (JSMap.get rid (gameRooms w)) as [ref|]; [|quiet_same].
  destruct (JSMap.get s (transitioningPlayers w)); [quiet_same|].
  pose proof (removeFrom_quiet w rid s) as He.
  destruct (Standalone.removeFrom w rid s) as [w1 out]. cbn [fst] in *.
  eapply quiet_trans; [exact He | quiet_same].
Qed.

Lemma sweep_bombsWithin : forall now (g : list (RoomId * nat)) h,
    bombsWithin h
      (fold_left
         (fun h e =>
            match nth_error h (snd e) with
            | Some room => store (snd e) (Standalone.cleanupOldPowerUps now room) h
            | None => h
            end) g h).
Proof.
  intros now g; induction g as [|[rid ref] g IH]; intros h; simpl.
  - apply bombsWithin_refl.
  - eapply bombsWithin_trans; [|apply IH].
    destruct (nth_error h ref) as [room|] eqn:Hh; [|apply bombsWithin_refl].
    eapply bombsWithin_store; [exact Hh | apply incl_refl].
Qed.

(** The timers other than a fuse. *)
Lemma Root_onTimer_quiet : forall w now rnd cb,
    (forall ref bombId, cb <> CbExplode ref bombId) ->
    quiet w (fst (Root.onTimer w now rnd cb)).
Proof.
  intros w now rnd cb Hcb. unfold Root.onTimer.
  destruct cb as [ref bombId | ref | ref gs | ref | s rid pid | ];
    try apply quiet_refl; [exfalso; eapply Hcb; reflexivity | | |];
    (destruct (nth_error (heap w) ref) as [room|] eqn:Hh; [|apply quiet_refl]).
  - destruct (canStartGame room) eqn:Hc; [|apply quiet_refl].
    cbn [fst]. split;
      cbn [heap timers set_heap set_timers setTimeout].
    + eapply bombsWithin_store; [exact Hh | apply incl_refl].
    + rewrite <- app_assoc. apply incl_appl, incl_refl.
  - apply quiet_refl.
  - destruct (Phase_eqb (gameState room) playing); [|apply quiet_refl].
    split; cbn; [apply bombsWithin_refl | apply incl_appl, incl_refl].
Qed.

Lemma Standalone_onTimer_quiet : forall w now rnd cb,
    (forall ref bombId, cb <> CbExplode ref bombId) ->
    quiet w (fst (Standalone.onTimer w now rnd cb)).
Proof.
  intros w now rnd cb Hcb. unfold Standalone.onTimer.
  destruct cb as [ref bombId | ref | ref gs | ref | s rid pid | ];
    try apply quiet_refl; [exfalso; eapply Hcb; reflexivity | | |].
  - destruct (nth_error (heap w) ref) as [room|] eqn:Hh; [|apply quiet_refl].
    destruct (canStartGame room) eqn:Hc; [|apply quiet_refl].
    cbn [fst]. split; cbn [heap timers set_heap set_timers set_transitioning].
    + eapply bombsWithin_store; [exact Hh | apply incl_refl].
    + apply incl_refl.
  - destruct (JSMap.has s (transitioningPlayers w)); [|apply quiet_refl].
    apply (removeFrom_quiet
             (set_transitioning w (JSMap.delete s (transitioningPlayers w))) rid s).
  - cbn [fst]. split;
      cbn [heap timers set_heap set_timers set_transitioning setTimeout].
    + apply sweep_bombsWithin.
    + apply incl_appl, incl_refl.
Qed.

(** Lighting a fuse. *)
Lemma onPlaceBomb_fuses : forall w s now x y,
    fusesPending w -> fusesPending (fst (onPlaceBomb w s now x y)).
Proof.
  intros w s now x y Hf. unfold onPlaceBomb.
  destruct (playingRoomOf w s) as [[[[rid pid] ref] room]|] eqn:Hp; [|exact Hf].
  apply playingRoomOf_sound in Hp. destruct Hp as (_ & _ & Hh & Hg).
  destruct (placeBomb room pid x y now) as [[[bomb|] room'] ts] eqn:Hu; [|exact Hf].
  unfold placeBomb in Hu.
  destruct (JSMap.get pid (players room)) as [p|]; [|discriminate].
  destruct (negb (p_isAlive p) || (p_bombCount p >=? p_bombCapacity p));
    [discriminate|].
  destruct (existsb _ _); [discriminate|].
  injection Hu as _ <- <-. cbn [fst].
  intros ref0 r0 id Hh0 Hin.
  cbn [schedule heap timers set_heap set_timers map] in *.
  apply in_or_app.
  destruct (Nat.eq_dec ref ref0) as [<-|Hne].
  - erewrite nth_error_store_same in Hh0 by exact Hh. injection Hh0 as <-.
    cbn [bombs set_players set_bombs] in Hin.
    apply keys_set_incl in Hin. destruct Hin as [-> | Hin].
    + right. left. reflexivity.
    + left. eauto.
  - rewrite nth_error_store_other in Hh0 by assumption. left. eauto.
Qed.

(** A fuse going off. *)
Lemma get_None_keys : forall (k : BombId) (m : list (BombId * Bomb)),
    JSMap.get k m = None -> ~ In k (JSMap.keys m).
Proof.
  intros k m Hg Hin. unfold JSMap.keys in Hin.
  apply in_map_iff in Hin. destruct Hin as ([k1 v1] & E & Hin). simpl in E. subst k1.
  destruct (In_get _ _ _ Hin) as (v2 & Hv2). congruence.
Qed.

Lemma explodeBomb_live : forall v io now rnd r bombId r' out ts,
    explodeBomb v io now rnd r bombId = (r', out, ts) ->
    forall id, In id (JSMap.keys (bombs r')) ->
               In id (JSMap.keys (bombs r)) /\ id <> bombId.
Proof.
  intros v io now rnd r bombId r' out ts He id Hin.
  destruct (JSMap.get bombId (bombs r)) as [bomb|] eqn:Hb.
  - destruct (@explodeBomb_present v io now rnd r bombId bomb Hb)
      as (r1 & out1 & Heq & _ & Hbs & _).
    rewrite Heq in He. injection He as <- _ _. rewrite Hbs in Hin.
    now apply keys_delete.
  - rewrite (@explodeBomb_absent v io now rnd r bombId Hb) in He.
    injection He as <- _ _. split; [exact Hin|].
    intros ->. exact (get_None_keys _ _ Hb Hin).
Qed.

Lemma explode_fuses : forall v w n due ref bombId now rnd room room' out ts,
    fusesPending w ->
    nth_error (timers w) n = Some (due, CbExplode ref bombId) ->
    nth_error (heap w) ref = Some room ->
    explodeBomb v (io w) now rnd room bombId = (room', out, ts) ->
    fusesPending
      (schedule (set_heap (set_timers w (remove_nth n (timers w)))
                          (store ref room' (heap w))) now ref ts).
Proof.
  intros v w n due ref bombId now rnd room room' out ts Hf Hn Hh He
         ref0 r0 id Hh0 Hin.
  cbn [schedule heap timers set_heap set_timers] in *.
  apply in_or_app. left.
  destruct (Nat.eq_dec ref ref0) as [<-|Hne].
  - erewrite nth_error_store_same in Hh0 by exact Hh. injection Hh0 as <-.
    destruct (explodeBomb_live _ _ _ _ _ _ He _ Hin) as (Hin0 & Hne).
    eapply In_remove_nth; [exact Hn | eapply Hf; eauto | congruence].
  - rewrite nth_error_store_other in Hh0 by assumption.
    eapply In_remove_nth; [exact Hn | eapply Hf; eauto | congruence].
Qed.

Lemma drop_timer_fuses : forall w n due cb,
    fusesPending w ->
    nth_error (timers w) n = Some (due, cb) ->
    (forall ref bombId room,
        cb = CbExplode ref bombId -> nth_error (heap w) ref = Some room -> False) ->
    fusesPending (set_timers w (remove_nth n (timers w))).
Proof.
  intros w n due cb Hf Hn Hcb ref r id Hh Hin.
  cbn [heap timers set_timers] in *.
  eapply In_remove_nth; [exact Hn | eapply Hf; eauto |].
  intros [= _ E]. eapply Hcb; [symmetry; exact E | exact Hh].
Qed.

Lemma fire_fuses : forall v w n due cb now rnd,
    fusesPending w ->
    nth_error (timers w) n = Some (due, cb) ->
    let w1 := set_timers w (remove_nth n (timers w)) in
    fusesPending (fst (match v with
                       | RootServer => Root.onTimer w1 now rnd cb
                       | StandaloneServer => Standalone.onTimer w1 now rnd cb
                       end)).
Proof.
  intros v w n due cb now rnd Hf Hn w1.
  assert (Hex : forall ref bombId, cb = CbExplode ref bombId ->
                  fusesPending
                    (fst (match nth_error (heap w1) ref with
                          | None => (w1, [])
                          | Some room =>
                              let '(room', out, ts) :=
                                explodeBomb v (io w1) now rnd room bombId in
                              (schedule (set_heap w1 (store ref room' (heap w1)))
                                        now ref ts, out)
                          end))).
  { intros ref bombId ->. subst w1. cbn [heap io set_timers].
    destruct (nth_error (heap w) ref) as [room|] eqn:Hh.
    - destruct (explodeBomb v (io w) now rnd room bombId) as [[room' out] ts] eqn:He.
      cbn [fst]. eapply explode_fuses; eauto.
    - cbn [fst]. eapply drop_timer_fuses; [exact Hf | exact Hn |].
      intros ref0 id0 room [= <- _] Hh0. congruence. }
  destruct cb as [ref bombId | ref | ref gs | ref | s rid pid | ].
  1: { specialize (Hex ref bombId eq_refl). destruct v; exact Hex. }
  all: assert (Hw1 : fusesPending w1)
    by (eapply drop_timer_fuses; [exact Hf | exact Hn | discriminate]).
  all: destruct v;
    [ eapply quiet_fuses; [apply Root_onTimer_quiet; discriminate | exact Hw1]
    | eapply quiet_fuses; [apply Standalone_onTimer_quiet; discriminate | exact Hw1] ].
Qed.

Lemma fuses_ext : forall w w',
    heap w' = heap w -> timers w' = timers w -> fusesPending w -> fusesPending w'.
Proof.
  intros w w' Hh Ht Hf ref room id Hr Hin. rewrite Hh in Hr. rewrite Ht. eauto.
Qed.

Lemma step_fuses : forall v w tn w' out,
    step v w tn = Some (w', out) -> fusesPending w -> fusesPending w'.
Proof.
  intros v w tn w' out Hstep Hf0.
  assert (Hf : fusesPending (set_clock w (at_time tn)))
    by (eapply fuses_ext; [| |exact Hf0]; reflexivity).
  clear Hf0. unfold step in Hstep.
  destruct (at_time tn <? clock w); [discriminate|].
  set (w0 := set_clock w (at_time tn)) in *.
  destruct (what tn) as [s | s m | s | n].
  - destruct (isOpen (io w0) s || isOpen (closed w0) s); [discriminate|].
    injection Hstep as <- _.
    eapply fuses_ext; [| |exact Hf]; reflexivity.
  - destruct (isOpen (io w0) s); [|discriminate].
    destruct (onMessage v w0 s (at_time tn) (randoms tn) m)
      as [[w1 out1]|] eqn:Hm; [|discriminate].
    injection Hstep as <- _. unfold onMessage in Hm.
    destruct m as [data | data | x y | x y | powerUpId | ts].
    + eapply quiet_fuses; [eapply onCreateRoom_quiet; exact Hm | exact Hf].
    + destruct v.
      * eapply quiet_fuses; [eapply Root_onJoinRoom_quiet; exact Hm | exact Hf].
      * injection Hm as Hm.
        pose proof (Standalone_onJoinRoom_quiet w0 s (at_time tn) data) as He.
        rewrite Hm in He. eapply quiet_fuses; eauto.
    + injection Hm as Hm.
      pose proof (onPlayerMove_quiet w0 s x y) as He.
      rewrite Hm in He. eapply quiet_fuses; eauto.
    + injection Hm as Hm.
      pose proof (@onPlaceBomb_fuses w0 s (at_time tn) x y Hf) as He.
      rewrite Hm in He. exact He.
    + injection Hm as Hm.
      pose proof (onCollectPowerUp_quiet w0 s powerUpId) as He.
      rewrite Hm in He. eapply quiet_fuses; eauto.
    + injection Hm as <- _. exact Hf.
  - destruct (isOpen (io w0) s); [|discriminate]. injection Hstep as Hd.
    match type of Hd with
    | context [Root.onDisconnect ?w1 _] =>
        assert (Hw1 : fusesPending w1)
          by (eapply fuses_ext; [| |exact Hf]; reflexivity);
        pose proof (Root_onDisconnect_quiet w1 s) as HeR;
        pose proof (Standalone_onDisconnect_quiet w1 s (at_time tn)) as HeS
    end.
    destruct v; rewrite Hd in *; cbn [fst] in *; eapply quiet_fuses; eauto.
  - destruct (nth_error (timers w0) n) as [[due cb]|] eqn:Hn; [|discriminate].
    destruct (due <=? at_time tn); [|discriminate]. injection Hstep as Hd.
    pose proof (@fire_fuses v w0 n due cb (at_time tn) (randoms tn) Hf Hn) as He.
    cbv zeta in He. change w' with (fst (w', out)). rewrite <- Hd. exact He.
Qed.

Lemma run_fuses : forall v trace w w' out,
    run v w trace = Some (w', out) -> fusesPending w -> fusesPending w'.
Proof.
  intros v trace; induction trace as [|tn trace IH]; intros w w' out; simpl.
  - intros [= <- _]. auto.
  - destruct (step v w tn) as [[w1 out1]|] eqn:Hs; [|discriminate].
    destruct (run v w1 trace) as [[w2 out2]|] eqn:Hr; [|discriminate].
    intros [= <- _] Hok. eapply IH; [exact Hr|]. eapply step_fuses; eauto.
Qed.

(** X21: in every reachable state of either server, a live bomb is
    stored under the id (placement time, owner) and the timer set for it
    by [placeBomb], due at placement time plus fuse time for this room
    object and this id, is still pending. *)
Theorem live_bomb_has_fuse :
  forall (v : variant) (w : World) (ref : nat) (room : GameRoom)
         (bombId : BombId) (bomb : Bomb),
    reachable v w ->
    nth_error (heap w) ref = Some room ->
    JSMap.get bombId (bombs room) = Some bomb ->
    bombId = (b_placedAt bomb, b_owner bomb)
    /\ In (b_placedAt bomb + b_fuseTime bomb, CbExplode ref bombId) (timers w).
Proof.
  intros v w ref room bombId bomb Hw Hh Hb.
  assert (Hs : roomSound v room)
    by (eapply reachable_sound; [exact Hw | eapply nth_error_In; exact Hh]).
  destruct Hs as (_ & (_ & Hbs & _) & _).
  apply get_In in Hb. rewrite Forall_forall in Hbs.
  destruct (Hbs _ Hb) as (_ & Hkey & _ & Hfuse). cbn [fst snd] in *.
  split; [exact Hkey|]. rewrite Hfuse.
  destruct Hw as (trace & out & Hrun).
  assert (Hf : fusesPending w).
  { eapply run_fuses; [exact Hrun|]. intros r0 room0 id0 Hr0. destruct r0; discriminate. }
  replace (b_placedAt bomb) with (fst bombId) by (rewrite Hkey; reflexivity).
  eapply Hf; [exact Hh|].
  change bombId with (fst (bombId, bomb)). unfold JSMap.keys. now apply in_map.
Qed.

(** The two fuses of [twoFusesWorld]. *)
Lemma live_bomb_has_fuse_witness :
  stateAfter RootServer (firstn 9 trace_game_over) = Some twoFusesWorld
  /\ In (4000 + 3000, CbExplode O (4000, 1)) (timers twoFusesWorld)
  /\ In (4500 + 3000, CbExplode O (4500, 2)) (timers twoFusesWorld).
Proof.
  assert (Hw : stateAfter RootServer (firstn 9 trace_game_over) = Some twoFusesWorld)
    by (vm_compute; reflexivity).
  split; [exact Hw|]. apply reachable_stateAfter in Hw.
  split.
  - exact (proj2 (@live_bomb_has_fuse RootServer twoFusesWorld O
                    (nth O (heap twoFusesWorld) noRoom) (4000, 1)
                    (nth O (JSMap.values (bombs (nth O (heap twoFusesWorld) noRoom)))
                         (sampleBomb (0, 0) 0 0))
                    Hw eq_refl eq_refl)).
  - exact (proj2 (@live_bomb_has_fuse RootServer twoFusesWorld O
                    (nth O (heap twoFusesWorld) noRoom) (4500, 2)
                    (nth 1 (JSMap.values (bombs (nth O (heap twoFusesWorld) noRoom)))
                         (sampleBomb (0, 0) 0 0))
                    Hw eq_refl eq_refl)).
Defined.

(** ** playerMove *)

Lemma socketTo_In : forall w s rid ev s' ev',
    In (s', ev') (socketTo w s rid ev)
    <-> ev' = ev /\ s' <> s /\ In (s', rid) (ioRooms w).
Proof.
  intros w s rid ev s' ev'. unfold socketTo. rewrite in_flat_map. split.
  - intros ([s0 rid0] & Hin & He). cbn [fst snd] in He.
    destruct (pair_eqb rid0 rid) eqn:Er; [|contradiction].
    destruct (String.eqb s0 s) eqn:Es; [contradiction|].
    destruct He as [[= <- <-] | []].
    change (pair_eqb rid0 rid) with (keqb rid0 rid) in Er.
    apply keqb_spec in Er. subst rid0.
    apply String.eqb_neq in Es. auto.
  - intros (-> & Hne & Hin). exists (s', rid). split; [exact Hin|].
    cbn [fst snd]. change (pair_eqb rid rid) with (keqb rid rid).
    rewrite keqb_refl. apply String.eqb_neq in Hne. rewrite Hne. now left.
Qed.

(** X22: [playerMove] from a connection whose room is playing, for a
    seated player. A dead player's move changes nothing and emits
    nothing. A living player's position becomes the target clamped to the
    margin, a missing or zero coordinate keeping the current one; no
    other slot changes; and [playerMoved] goes to the other connections
    of the room's channel, never to the sender, carrying the coordinates
    as sent, not as clamped. *)
Theorem playerMove_outcome :
  forall (w : World) (s : SocketId) (x y : option Z) (rid : RoomId)
         (pid : Z) (ref : nat) (room : GameRoom) (p : Player),
    playingRoomOf w s = Some (rid, pid, ref, room) ->
    JSMap.get pid (players room) = Some p ->
    exists room',
      onPlayerMove w s x y
      = (if p_isAlive p then set_heap w (store ref room' (heap w)) else w,
         if p_isAlive p then socketTo w s rid (EvPlayerMoved pid x y) else [])
      /\ JSMap.get pid (players room')
         = Some (with_pos p
                   (Z.max 32 (Z.min (1024 - 32) (orElse x (p_x p))))
                   (Z.max 32 (Z.min (768 - 32) (orElse y (p_y p)))))
      /\ (forall k, k <> pid ->
                    JSMap.get k (players room') = JSMap.get k (players room))
      /\ forall s' ev, In (s', ev) (snd (onPlayerMove w s x y)) ->
                       ev = EvPlayerMoved pid x y /\ s' <> s
                       /\ In (s', rid) (ioRooms w).
Proof.
  intros w s x y rid pid ref room p Hp Hg.
  unfold onPlayerMove. rewrite Hp. unfold updatePlayer. rewrite Hg.
  eexists (set_players room (JSMap.mutate pid _ (players room))).
  split; [|split; [|split]].
  - destruct (p_isAlive p); reflexivity.
  - cbn [players set_players]. rewrite get_mutate, Hg. reflexivity.
  - intros k Hne. cbn [players set_players].
    apply get_mutate_other. congruence.
  - intros s' ev Hin. destruct (p_isAlive p); cbn [snd] in Hin; [|contradiction].
    now apply socketTo_In in Hin.
Qed.

(** A asks for (5000, 0) in [twoFusesWorld]: stored (992, 64), relayed as sent. *)
Lemma playerMove_outcome_witness :
  exists room',
    onPlayerMove twoFusesWorld "s1" (Some 5000) (Some 0)
    = (set_heap twoFusesWorld (store O room' (heap twoFusesWorld)),
       [("s2", EvPlayerMoved 1 (Some 5000) (Some 0))])
    /\ option_map (fun p => (p_x p, p_y p)) (JSMap.get 1 (players room'))
       = Some (992, 64).
Proof.
  destruct (@playerMove_outcome twoFusesWorld "s1" (Some 5000) (Some 0)
              firstRoom 1 O (nth O (heap twoFusesWorld) noRoom)
              (nth O (JSMap.values (players (nth O (heap twoFusesWorld) noRoom)))
                   noPlayer)
              eq_refl eq_refl) as (room' & Heq & Hg & _).
  exists room'. split; [exact Heq|]. rewrite Hg. reflexivity.
Defined.

(** ** The game start of the standalone server *)

Section MarkTransitioning.
Variables (now : Z) (r : GameRoom) (L : list Player).

Lemma markTransitioning_fold : forall l tp s,
    incl l L ->
    filed now r L s tp \/ (exists q, In q l /\ p_socket q = s) ->
    filed now r L s (fold_left (fun tp player =>
                          JSMap.set (p_socket player) (recordOf now r player) tp)
                       l tp).
Proof.
  intros l; induction l as [|a l IH]; intros tp s Hincl H; simpl.
  - destruct H as [H | (q & [] & _)]. exact H.
  - apply IH; [intros q Hq; apply Hincl; now right|].
    destruct (string_dec (p_socket a) s) as [E | Hne].
    + left. exists a. split; [apply Hincl; now left|]. split; [exact E|].
      rewrite <- E. apply get_set_same.
    + destruct H as [(q & Hq & Hs & Hget) | (q & [-> | Hq] & Hs)].
      * left. exists q. split; [exact Hq|]. split; [exact Hs|].
        rewrite get_set_other by congruence. exact Hget.
      * contradiction.
      * right. eauto.
Qed.

Lemma markTransitioning_other : forall l tp s,
    (forall q, In q l -> p_socket q <> s) ->
    JSMap.get s (fold_left (fun tp player =>
                              JSMap.set (p_socket player) (recordOf now r player) tp)
                           l tp)
    = JSMap.get s tp.
Proof.
  intros l; induction l as [|a l IH]; intros tp s H; simpl; [reflexivity|].
  rewrite IH by (intros q Hq; apply H; now right).
  apply get_set_other. intros E. eapply H; [now left | eauto].
Qed.
End MarkTransitioning.

(** X23: the standalone server, the auto-start timer firing on a room
    that can start: the room object becomes [startGame] of itself,
    [gameStarted] with its snapshot is broadcast, no timer is set, every
    seated connection gets a transition record (room id, slot number and
    name of a player seated with that connection, start time now), and
    the records of other connections are untouched. *)
Theorem autoStart_files_transition_records :
  forall (w : World) (now : Z) (rnd : nat -> Z) (ref : nat) (room : GameRoom),
    nth_error (heap w) ref = Some room ->
    canStartGame room = true ->
    let w' := fst (Standalone.onTimer w now rnd (CbAutoStart ref)) in
    nth_error (heap w') ref = Some (startGame now room)
    /\ snd (Standalone.onTimer w now rnd (CbAutoStart ref))
       = broadcastToRoom (io w) (startGame now room)
           (EvGameStarted (getGameState (startGame now room)))
    /\ timers w' = timers w
    /\ (forall p, In p (JSMap.values (players room)) ->
                  exists q, In q (JSMap.values (players room))
                            /\ p_socket q = p_socket p
                            /\ JSMap.get (p_socket p) (transitioningPlayers w')
                               = Some (recordOf now room q))
    /\ (forall s, (forall q, In q (JSMap.values (players room)) -> p_socket q <> s) ->
                  JSMap.get s (transitioningPlayers w')
                  = JSMap.get s (transitioningPlayers w)).
Proof.
  intros w now rnd ref room Hh Hc w'. subst w'.
  unfold Standalone.onTimer. rewrite Hh, Hc.
  cbn [fst snd heap timers transitioningPlayers set_heap set_transitioning].
  split; [eapply nth_error_store_same; exact Hh|].
  split; [reflexivity|]. split; [reflexivity|].
  unfold Standalone.markTransitioning. cbn [players startGame roomId].
  split.
  - intros p Hp.
    apply (@markTransitioning_fold now room (JSMap.values (players room))
             (JSMap.values (players room)) (transitioningPlayers w) (p_socket p)
             (incl_refl _)).
    right. eauto.
  - intros s Hs. apply (@markTransitioning_other now room); exact Hs.
Qed.

(** The auto-start of [lobbyWorld] files B's record. *)
Lemma autoStart_files_transition_records_witness :
  phases lobbyWorld = [waiting]
  /\ JSMap.get "s2"
       (transitioningPlayers
          (fst (Standalone.onTimer lobbyWorld 3100 noRandom (CbAutoStart O))))
     = Some {| td_roomId := firstRoom; td_playerId := 2;
               td_playerName := "B"; td_transitionStart := 3100 |}.
Proof.
  split; [reflexivity|].
  destruct (@autoStart_files_transition_records lobbyWorld 3100 noRandom O
              (nth O (heap lobbyWorld) noRoom) eq_refl eq_refl)
    as (_ & _ & _ & Hrec & _).
  destruct (Hrec (nth 1 (JSMap.values (players (nth O (heap lobbyWorld) noRoom)))
                      noPlayer))
    as (q & Hq & Hs & Hget); [right; left; reflexivity|].
  destruct Hq as [<- | [<- | []]]; [discriminate Hs | exact Hget].
Defined.

(** ** Detonation: blocks and power-ups *)

(** X24: the detonation of a live bomb keeps exactly the blocks not hit
    by the blast, in order; every [bombExploded] emitted lists exactly the
    blocks hit and the power-up table after the blast; and every power-up
    in that table was there before or lies on a block the blast hit,
    stamped with the time of the blast. *)
Theorem explodeBomb_blocks_and_drops :
  forall (v : variant) (io : list SocketId) (now : Z) (rnd : nat -> Z)
         (r : GameRoom) (bombId : BombId) (bomb : Bomb)
         (r' : GameRoom) (out : list Emit) (ts : list RoomTimer),
    JSMap.get bombId (bombs r) = Some bomb ->
    explodeBomb v io now rnd r bombId = (r', out, ts) ->
    let areas := calculateExplosion (destructibleBlocks r)
                                    (b_x bomb) (b_y bomb) (b_power bomb) in
    destructibleBlocks r'
    = filter (fun blk => negb (hits areas blk)) (destructibleBlocks r)
    /\ (forall s id ar destroyed ps us,
           In (s, EvBombExploded id ar destroyed ps us) out ->
           destroyed = filter (hits areas) (destructibleBlocks r)
           /\ us = JSMap.values (powerUps r'))
    /\ (forall e, In e (powerUps r') ->
                  In e (powerUps r)
                  \/ exists blk, In blk (destructibleBlocks r)
                                 /\ hits areas blk = true
                                 /\ u_x (snd e) = k_x blk /\ u_y (snd e) = k_y blk
                                 /\ u_spawnedAt (snd e) = now).
Proof.
  intros v io now rnd r bombId bomb r' out ts Hb He areas.
  pose proof (@explodeBomb_fields v io now rnd r bombId bomb r' out ts Hb He) as Hf.
  cbv zeta in Hf. fold areas in Hf.
  destruct Hf as (_ & _ & Hblk & Hus & _).
  destruct (destroyBlocks_split rnd now areas (destructibleBlocks r) 0 (powerUps r))
    as (Hkept & Hdest).
  split; [rewrite Hblk; exact Hkept|]. split.
  - intros s id ar destroyed ps us Hin.
    pose proof (@explodeBomb_result v io now rnd r bombId bomb Hb) as Hres.
    cbv zeta in Hres. fold areas in Hres. rewrite Hres in He. clear Hres.
    injection He as _ Hout _. rewrite <- Hout in Hin.
    apply in_app_or in Hin. destruct Hin as [Hin | Hin].
    + apply broadcastToRoom_event in Hin. cbn [snd] in Hin.
      injection Hin as _ _ -> _ ->. split; [exact Hdest|].
      now rewrite Hus.
    + exfalso. unfold checkWinCondition in Hin.
      destruct (_ <=? 1) in Hin; [|contradiction].
      apply broadcastToRoom_event in Hin. discriminate.
  - intros e Hin. rewrite Hus in Hin.
    apply destroyBlocks_powerUps in Hin.
    destruct Hin as [Hin | (blk & Hblk' & Hh & Hx & Hy & Ht & _)]; [now left|].
    right. exists blk. auto 10.
Qed.

(** The bomb of [blockArena] destroys the block at (484, 356). *)
Lemma explodeBomb_blocks_and_drops_witness :
  exists r' out ts,
    explodeBomb RootServer [] 7000 noRandom blockArena (4000, 1) = (r', out, ts)
    /\ In {| k_x := 484; k_y := 356 |} (destructibleBlocks blockArena)
    /\ ~ In {| k_x := 484; k_y := 356 |} (destructibleBlocks r').
Proof.
  destruct (explodeBomb RootServer [] 7000 noRandom blockArena (4000, 1))
    as [[r' out] ts] eqn:He.
  exists r', out, ts. split; [reflexivity|].
  split; [vm_compute; auto 100|].
  destruct (@explodeBomb_blocks_and_drops RootServer [] 7000 noRandom blockArena
              (4000, 1) (sampleBomb (4000, 1) 512 384) r' out ts eq_refl He)
    as (Hblk & _).
  rewrite Hblk. intros Hin. apply filter_In in Hin. destruct Hin as (_ & Hh).
  vm_compute in Hh. discriminate.
Defined.

(** ** The grace timer of the standalone server *)

Lemma Forall_store : forall (P : GameRoom -> Prop) h ref r,
    Forall P h -> P r -> Forall P (store ref r h).
Proof.
  intros P h; induction h as [|a h IH]; intros [|ref] r Hh Hr; simpl;
    try constructor; inversion Hh; subst; auto.
Qed.

Lemma Forall_nth_error : forall (P : GameRoom -> Prop) h ref r,
    Forall P h -> nth_error h ref = Some r -> P r.
Proof.
  intros P h ref r Hh Hr. rewrite Forall_forall in Hh.
  apply Hh. eapply nth_error_In; eauto.
Qed.

Lemma get_delete_None : forall (V : Type) (k k' : SocketId) (m : list (SocketId * V)),
    JSMap.get k m = None -> JSMap.get k (JSMap.delete k' m) = None.
Proof.
  intros V k k' m Hg. destruct (string_dec k k') as [->|Hne].
  - apply get_delete_same.
  - rewrite get_delete_other by congruence. exact Hg.
Qed.

Lemma get_filter_None : forall (V : Type) (k : SocketId) f (m : list (SocketId * V)),
    JSMap.get k m = None -> JSMap.get k (filter f m) = None.
Proof.
  intros V k f m; induction m as [|[k1 v1] m IH]; simpl; [reflexivity|].
  destruct (String.eqb k k1) eqn:E; [discriminate|]. intros Hg.
  destruct (f (k1, v1)); simpl; [rewrite E|]; auto.
Qed.

(** The methods of the room seat nobody with [old], unless called for
    it. *)
Lemma addPlayer_seatFree : forall v old r s name p r',
    addPlayer v r s name = Normal (Some p, r') ->
    s <> old -> seatFree old r -> seatFree old r'.
Proof.
  intros v old r s name p r' Ha Hne Hr. unfold addPlayer in Ha.
  destruct (JSMap.size (players r) >=? maxPlayers r); [discriminate|].
  destruct (nth_error spawnPositions _) as [[sx sy]|]; [|discriminate].
  injection Ha as _ <-. unfold seatFree. cbn [players set_players].
  apply (Forall_set (fun p => p_socket p <> old)); [exact Hne | exact Hr].
Qed.

Lemma removePlayer_seatFree : forall old r s k r',
    removePlayer r s = (k, r') -> seatFree old r -> seatFree old r'.
Proof.
  intros old r s k r' Hr Hs. unfold removePlayer in Hr.
  destruct (findBySocket s (players r)); injection Hr as _ <-; [|exact Hs].
  unfold seatFree. cbn [players set_players].
  apply (Forall_delete (fun p => p_socket p <> old)). exact Hs.
Qed.

Lemma updatePlayer_seatFree : forall old r pid ux uy b r',
    updatePlayer r pid ux uy = (b, r') -> seatFree old r -> seatFree old r'.
Proof.
  intros old r pid ux uy b r' Hu Hs. unfold updatePlayer in Hu.
  destruct (JSMap.get pid (players r)) as [p|];
    [destruct (p_isAlive p)|]; injection Hu as _ <-; try exact Hs.
  unfold seatFree. cbn [players set_players].
  apply (Forall_mutate (fun p => p_socket p <> old)); [|exact Hs]. auto.
Qed.

Lemma placeBomb_seatFree : forall old r pid x y now b r' ts,
    placeBomb r pid x y now = (b, r', ts) -> seatFree old r -> seatFree old r'.
Proof.
  intros old r pid x y now b r' ts Hp Hs. unfold placeBomb in Hp.
  destruct (JSMap.get pid (players r)) as [p|];
    [|injection Hp as _ <- _; exact Hs].
  destruct (negb (p_isAlive p) || (p_bombCount p >=? p_bombCapacity p));
    [injection Hp as _ <- _; exact Hs|].
  destruct (existsb _ _); injection Hp as _ <- _; [exact Hs|].
  unfold seatFree. cbn [players set_players set_bombs].
  apply (Forall_mutate (fun p => p_socket p <> old)); [|exact Hs]. auto.
Qed.

Lemma collectPowerUp_seatFree : forall old r pid puid b r',
    collectPowerUp r pid puid = (b, r') -> seatFree old r -> seatFree old r'.
Proof.
  intros old r pid puid b r' Hc Hs. unfold collectPowerUp in Hc.
  destruct (JSMap.get puid (powerUps r)) as [pu|];
    [destruct (JSMap.get pid (players r)) as [p|];
     [destruct (negb (p_isAlive p))|]|];
    injection Hc as _ <-; try exact Hs.
  unfold seatFree. cbn [players set_players set_powerUps].
  apply (Forall_mutate (fun p => p_socket p <> old)); [|exact Hs].
  intros q Hq. destruct (u_type pu); exact Hq.
Qed.

Lemma explodeBomb_seatFree : forall v old io now rnd r bombId r' out ts,
    explodeBomb v io now rnd r bombId = (r', out, ts) ->
    seatFree old r -> seatFree old r'.
Proof.
  intros v old io now rnd r bombId r' out ts He Hs.
  destruct (JSMap.get bombId (bombs r)) as [bomb|] eqn:Hb.
  - destruct (@explodeBomb_present v io now rnd r bombId bomb Hb)
      as (r1 & out1 & Heq & Hps & _).
    rewrite Heq in He. injection He as <- _ _.
    unfold seatFree. rewrite Hps.
    apply (Forall_mutate_all (fun p => p_socket p <> old)).
    + intros q Hq. unfold damage.
      destruct (negb (p_isAlive q)); [exact Hq|].
      destruct (within40 _ _ _); exact Hq.
    + apply (Forall_mutate (fun p => p_socket p <> old)); [|exact Hs]. auto.
  - rewrite (@explodeBomb_absent v io now rnd r bombId Hb) in He.
    injection He as <- _ _. exact Hs.
Qed.

Lemma rejoin_seatFree : forall old r s td p r',
    Standalone.rejoinTransitioningPlayer r s td = Some (p, r') ->
    s <> old -> seatFree old r -> seatFree old r'.
Proof.
  intros old r s td p r' Hr Hne Hs.
  unfold Standalone.rejoinTransitioningPlayer in Hr.
  destruct (Standalone.findSlot td (players r)) as [k|]; [|discriminate].
  destruct (JSMap.get k _); [|discriminate].
  injection Hr as _ <-. unfold seatFree. cbn [players set_players].
  apply (Forall_mutate (fun p => p_socket p <> old)); [|exact Hs].
  intros q _. exact Hne.
Qed.

(** The handlers and timers of the standalone server keep an ended
    connection gone. *)
Ltac gone_goal :=
  unfold gone;
  cbn [closed io heap transitioningPlayers set_heap set_timers
       set_playerSockets set_gameRooms set_transitioning set_io set_clock
       socketJoin setTimeout schedule fst].

Ltac gone_same H :=
  let Hc := fresh "Hc" in let Hi := fresh "Hi" in
  let Hh := fresh "Hh" in let Ht := fresh "Ht" in
  destruct H as (Hc & Hi & Hh & Ht); gone_goal; repeat split; assumption.

Ltac gone_store H Hroom lem :=
  let Hc := fresh "Hc" in let Hi := fresh "Hi" in
  let Hh := fresh "Hh" in let Ht := fresh "Ht" in
  destruct H as (Hc & Hi & Hh & Ht); gone_goal; repeat split; try assumption;
  apply Forall_store; [exact Hh|];
  eapply lem; try eassumption; eapply Forall_nth_error; [exact Hh | exact Hroom].

Lemma onCreateRoom_gone : forall v old w s now rnd data w' out,
    onCreateRoom v w s now rnd data = Normal (w', out) ->
    s <> old -> gone old w -> gone old w'.
Proof.
  intros v old w s now rnd data w' out Hc Hne (Hcl & Hi & Hh & Ht).
  unfold onCreateRoom in Hc. rewrite addPlayer_newGameRoom in Hc.
  destruct (1 <=? orElse (jd_maxPlayers data) 4); cbv zeta in Hc;
    injection Hc as <- _; gone_goal; repeat split; try assumption.
  - rewrite store_snoc. apply Forall_app. split; [exact Hh|].
    constructor; [|constructor]. unfold seatFree. cbn [players set_players].
    constructor; [exact Hne | constructor].
  - apply Forall_app. split; [exact Hh|].
    constructor; [|constructor]. constructor.
Qed.

Lemma Standalone_onJoinRoom_gone : forall old w s now data,
    s <> old -> gone old w ->
    gone old (fst (Standalone.onJoinRoom w s now data)).
Proof.
  intros old w s now data Hne Hg. unfold Standalone.onJoinRoom.
  destruct (JSMap.get (jd_roomId data) (gameRooms w)) as [ref|]; [|exact Hg].
  destruct (nth_error (heap w) ref) as [room|] eqn:Hroom; [|exact Hg].
  assert (Hadd : gone old
                   (fst (match addPlayer StandaloneServer room s (jd_name data) with
                         | Throw => (w, [(s, EvError "Failed to join room")])
                         | Normal (None, _) => (w, [(s, EvError "Room is full")])
                         | Normal (Some player, room') =>
                             let w1 := set_heap w (store ref room' (heap w)) in
                             let w2 := socketJoin w1 s (jd_roomId data) in
                             let w3 := set_playerSockets w2
                                         (JSMap.set s (jd_roomId data, p_id player)
                                                    (playerSockets w2)) in
                             let out1 :=
                               (s, EvRoomJoined (p_id player) (getGameState room')
                                                (Some false))
                               :: broadcastToRoom (io w) room'
                                    (EvPlayerJoined player (getGameState room')) in
                             let w4 := if canStartGame room'
                                       then setTimeout w3 (now + 2000) (CbAutoStart ref)
                                       else w3 in
                             let out2 :=
                               if Phase_eqb (gameState room') playing
                               then broadcastToRoom (io w) room'
                                      (EvGameStateUpdate (getGameState room'))
                               else [] in
                             (w4, out1 ++ out2)
                         end))).
  { destruct (addPlayer StandaloneServer room s (jd_name data))
      as [[[player|] room']|] eqn:Ha; try exact Hg.
    cbv zeta. destruct (canStartGame room'); gone_store Hg Hroom addPlayer_seatFree. }
  destruct (find (Standalone.matchesJoin data) (transitioningPlayers w))
    as [[old0 td]|]; [|exact Hadd].
  destruct (Standalone.rejoinTransitioningPlayer room s td)
    as [[player room']|] eqn:Hr; [|exact Hadd].
  destruct Hg as (Hc & Hi & Hh & Ht). gone_goal. repeat split; try assumption.
  - apply Forall_store; [exact Hh|].
    eapply rejoin_seatFree; [exact Hr | exact Hne |].
    eapply Forall_nth_error; [exact Hh | exact Hroom].
  - apply get_delete_None. exact Ht.
Qed.

Lemma onPlayerMove_gone : forall old w s x y,
    gone old w -> gone old (fst (onPlayerMove w s x y)).
Proof.
  intros old w s x y Hg. unfold onPlayerMove.
  destruct (playingRoomOf w s) as [[[[rid pid] ref] room]|] eqn:Hp; [|exact Hg].
  apply playingRoomOf_sound in Hp. destruct Hp as (_ & _ & Hroom & _).
  destruct (updatePlayer room pid x y) as [[] room'] eqn:Hu; [|exact Hg].
  gone_store Hg Hroom updatePlayer_seatFree.
Qed.

Lemma onPlaceBomb_gone : forall old w s now x y,
    gone old w -> gone old (fst (onPlaceBomb w s now x y)).
Proof.
  intros old w s now x y Hg. unfold onPlaceBomb.
  destruct (playingRoomOf w s) as [[[[rid pid] ref] room]|] eqn:Hp; [|exact Hg].
  apply playingRoomOf_sound in Hp. destruct Hp as (_ & _ & Hroom & _).
  destruct (placeBomb room pid x y now) as [[[bomb|] room'] ts] eqn:Hu; [|exact Hg].
  gone_store Hg Hroom placeBomb_seatFree.
Qed.

Lemma onCollectPowerUp_gone : forall old w s powerUpId,
    gone old w -> gone old (fst (onCollectPowerUp w s powerUpId)).
Proof.
  intros old w s powerUpId Hg. unfold onCollectPowerUp.
  destruct (playingRoomOf w s) as [[[[rid pid] ref] room]|] eqn:Hp; [|exact Hg].
  apply playingRoomOf_sound in Hp. destruct Hp as (_ & _ & Hroom & _).
  destruct (collectPowerUp room pid powerUpId) as [[] room'] eqn:Hu; [|exact Hg].
  gone_store Hg Hroom collectPowerUp_seatFree.
Qed.

Lemma removeFrom_gone : forall old w rid s,
    gone old w -> gone old (fst (Standalone.removeFrom w rid s)).
Proof.
  intros old w rid s Hg. unfold Standalone.removeFrom.
  destruct (JSMap.get rid (gameRooms w)) as [ref|]; [|exact Hg].
  destruct (nth_error (heap w) ref) as [room|] eqn:Hroom; [|exact Hg].
  destruct (removePlayer room s) as [[k|] room'] eqn:Hr; [|exact Hg].
  break_if; gone_store Hg Hroom removePlayer_seatFree.
Qed.

Lemma Standalone_onDisconnect_gone : forall old w s now,
    gone old w -> gone old (fst (Standalone.onDisconnect w s now)).
Proof.
  intros old w s now Hg. unfold Standalone.onDisconnect.
  destruct (JSMap.get s (playerSockets w)) as [[rid pid]|]; [|exact Hg].
  destruct (JSMap.get rid (gameRooms w)) as [ref|]; [|gone_same Hg].
  destruct (JSMap.get s (transitioningPlayers w)); [gone_same Hg|].
  pose proof (@removeFrom_gone old w rid s Hg) as He.
  destruct (Standalone.removeFrom w rid s) as [w1 out]. cbn [fst] in *.
  gone_same He.
Qed.

Lemma sweep_seatFree : forall old now (g : list (RoomId * nat)) h,
    Forall (seatFree old) h ->
    Forall (seatFree old)
      (fold_left
         (fun h e =>
            match nth_error h (snd e) with
            | Some room => store (snd e) (Standalone.cleanupOldPowerUps now room) h
            | None => h
            end) g h).
Proof.
  intros old now g; induction g as [|[rid ref] g IH]; intros h Hh; simpl;
    [exact Hh|].
  apply IH. destruct (nth_error h ref) as [room|] eqn:Hroom; [|exact Hh].
  apply Forall_store; [exact Hh|].
  exact (Forall_nth_error _ Hh Hroom).
Qed.

Lemma Standalone_onTimer_gone : forall old w now rnd cb,
    gone old w -> gone old (fst (Standalone.onTimer w now rnd cb)).
Proof.
  intros old w now rnd cb Hg. unfold Standalone.onTimer.
  destruct cb as [ref bombId | ref | ref gs | ref | s rid pid | ];
    try exact Hg.
  - destruct (nth_error (heap w) ref) as [room|] eqn:Hroom; [|exact Hg].
    destruct (explodeBomb StandaloneServer (io w) now rnd room bombId)
      as [[room' out] ts] eqn:He.
    gone_store Hg Hroom explodeBomb_seatFree.
  - destruct (nth_error (heap w) ref) as [room|] eqn:Hroom; [|exact Hg].
    destruct (canStartGame room); [|exact Hg].
    destruct Hg as (Hc & Hi & Hh & Ht).
    assert (Hs : seatFree old room) by exact (Forall_nth_error _ Hh Hroom).
    gone_goal. repeat split; try assumption.
    + apply Forall_store; [exact Hh | exact Hs].
    + rewrite <- Ht. unfold Standalone.markTransitioning.
      cbn [players startGame roomId].
      apply (@markTransitioning_other now room).
      intros q Hq. unfold seatFree in Hs. rewrite Forall_forall in Hs.
      unfold JSMap.values in Hq. apply in_map_iff in Hq.
      destruct Hq as (e & <- & He). exact (Hs e He).
  - destruct (JSMap.has s (transitioningPlayers w)); [|exact Hg].
    apply removeFrom_gone.
    destruct Hg as (Hc & Hi & Hh & Ht). gone_goal. repeat split; try assumption.
    apply get_delete_None. exact Ht.
  - destruct Hg as (Hc & Hi & Hh & Ht). gone_goal. repeat split; try assumption.
    + apply sweep_seatFree. exact Hh.
    + apply get_filter_None. exact Ht.
Qed.

Lemma isOpen_neq : forall io s old,
    isOpen io s = true -> isOpen io old = false -> s <> old.
Proof. intros io s old Hs Ho ->. congruence. Qed.

Lemma step_gone : forall old w tn w' out,
    step StandaloneServer w tn = Some (w', out) -> gone old w -> gone old w'.
Proof.
  intros old w tn w' out Hstep Hg0.
  assert (Hg : gone old (set_clock w (at_time tn))) by exact Hg0.
  clear Hg0. unfold step in Hstep.
  destruct (at_time tn <? clock w); [discriminate|].
  set (w0 := set_clock w (at_time tn)) in *.
  destruct (what tn) as [s | s m | s | n].
  - destruct (isOpen (io w0) s || isOpen (closed w0) s) eqn:Ho; [discriminate|].
    injection Hstep as <- _. apply orb_false_iff in Ho. destruct Ho as (_ & Hcs).
    destruct Hg as (Hc & Hi & Hh & Ht).
    assert (Hne : s <> old) by (intros ->; congruence).
    gone_goal. repeat split; try assumption.
    unfold isOpen. rewrite existsb_app. apply orb_false_iff. split; [exact Hi|].
    simpl. rewrite orb_false_r. apply String.eqb_neq. congruence.
  - destruct (isOpen (io w0) s) eqn:Ho; [|discriminate].
    assert (Hne : s <> old)
      by (eapply isOpen_neq; [exact Ho | exact (proj1 (proj2 Hg))]).
    destruct (onMessage StandaloneServer w0 s (at_time tn) (randoms tn) m)
      as [[w1 out1]|] eqn:Hm; [|discriminate].
    injection Hstep as <- _. unfold onMessage in Hm.
    destruct m as [data | data | x y | x y | powerUpId | ts].
    + eapply onCreateRoom_gone; eauto.
    + injection Hm as Hm.
      pose proof (@Standalone_onJoinRoom_gone old w0 s (at_time tn) data Hne Hg) as He.
      rewrite Hm in He. exact He.
    + injection Hm as Hm.
      pose proof (@onPlayerMove_gone old w0 s x y Hg) as He.
      rewrite Hm in He. exact He.
    + injection Hm as Hm.
      pose proof (@onPlaceBomb_gone old w0 s (at_time tn) x y Hg) as He.
      rewrite Hm in He. exact He.
    + injection Hm as Hm.
      pose proof (@onCollectPowerUp_gone old w0 s powerUpId Hg) as He.
      rewrite Hm in He. exact He.
    + injection Hm as <- _. exact Hg.
  - destruct (isOpen (io w0) s) eqn:Ho; [|discriminate]. injection Hstep as Hd.
    change w' with (fst (w', out)). rewrite <- Hd.
    apply Standalone_onDisconnect_gone.
    destruct Hg as (Hc & Hi & Hh & Ht). gone_goal. repeat split; try assumption.
    + unfold isOpen. cbn [existsb]. apply orb_true_iff. right. exact Hc.
    + apply not_true_is_false. intros Hex. unfold isOpen in Hex.
      apply existsb_exists in Hex. destruct Hex as (x & Hin & Hx).
      apply filter_In in Hin. destruct Hin as (Hin & _).
      assert (Hex' : isOpen (io w0) old = true)
        by (unfold isOpen; apply existsb_exists; eauto).
      assert (E : true = false) by exact (eq_trans (eq_sym Hex') Hi).
      discriminate E.
  - destruct (nth_error (timers w0) n) as [[due cb]|] eqn:Hn; [|discriminate].
    destruct (due <=? at_time tn); [|discriminate]. injection Hstep as Hd.
    change w' with (fst (w', out)). rewrite <- Hd.
    apply Standalone_onTimer_gone. gone_same Hg.
Qed.

Lemma run_gone : forall old trace w w' out,
    run StandaloneServer w trace = Some (w', out) -> gone old w -> gone old w'.
Proof.
  intros old trace; induction trace as [|tn trace IH]; intros w w' out; simpl.
  - intros [= <- _]. auto.
  - destruct (step StandaloneServer w tn) as [[w1 out1]|] eqn:Hs; [|discriminate].
    destruct (run StandaloneServer w1 trace) as [[w2 out2]|] eqn:Hr; [|discriminate].
    intros [= <- _] Hok. eapply IH; [exact Hr|]. eapply step_gone; eauto.
Qed.

(** X19: the standalone server, after a join that resumes a slot, when
    the old connection of the record has ended and holds no seat besides
    the resumed one: over any further turns the old connection has no
    transition record and no seat, so its grace timer, whenever it fires
    and whatever room and slot it names, changes nothing and emits
    nothing. *)
Theorem rejoin_disarms_grace_timer :
  forall (w : World) (s : SocketId) (now : Z) (data : JoinData)
         (ref : nat) (room : GameRoom) (oldSocketId : SocketId)
         (transData : TransitionData) (playerId : Z),
    JSMap.get (jd_roomId data) (gameRooms w) = Some ref ->
    nth_error (heap w) ref = Some room ->
    find (Standalone.matchesJoin data) (transitioningPlayers w)
    = Some (oldSocketId, transData) ->
    Standalone.findSlot transData (players room) = Some playerId ->
    isOpen (io w) s = true ->
    isOpen (closed w) oldSocketId = true ->
    isOpen (io w) oldSocketId = false ->
    (forall ref' room' k p,
        nth_error (heap w) ref' = Some room' -> In (k, p) (players room') ->
        p_socket p = oldSocketId -> ref' = ref /\ k = playerId) ->
    forall (trace : list Turn) (w2 : World) (out : list Emit),
      run StandaloneServer (fst (Standalone.onJoinRoom w s now data)) trace
      = Some (w2, out) ->
      JSMap.has oldSocketId (transitioningPlayers w2) = false
      /\ (forall r k p, In r (heap w2) -> In (k, p) (players r) ->
                        p_socket p <> oldSocketId)
      /\ forall later rnd rid pid,
          Standalone.onTimer w2 later rnd (CbCleanup oldSocketId rid pid)
          = (w2, []).
Proof.
  intros w s now data ref room old td playerId Hg Hroom Hf Hslot Hs Hcl Hio
         Honly trace w2 out Hrun.
  assert (Hne : s <> old) by (eapply isOpen_neq; eauto).
  assert (H1 : gone old (fst (Standalone.onJoinRoom w s now data))).
  { destruct (findSlot_get _ _ Hslot) as (p0 & Hp0).
    unfold Standalone.onJoinRoom. rewrite Hg, Hroom, Hf.
    unfold Standalone.rejoinTransitioningPlayer. rewrite Hslot.
    rewrite get_mutate, Hp0. cbn [option_map].
    gone_goal. repeat split; try assumption.
    - apply Forall_forall. intros r Hin.
      apply In_nth_error in Hin. destruct Hin as (ref' & Hr').
      destruct (Nat.eq_dec ref ref') as [<-|Hneq].
      + erewrite nth_error_store_same in Hr' by exact Hroom.
        injection Hr' as <-. unfold seatFree. cbn [players set_players].
        apply Forall_forall. intros [k q] Hin.
        unfold JSMap.mutate in Hin. apply in_map_iff in Hin.
        destruct Hin as ([k0 q0] & E & Hin0). cbn [fst snd] in E.
        destruct (keqb playerId k0) eqn:Ek; injection E as <- <-; cbn [snd].
        * exact Hne.
        * intros Hq. destruct (Honly _ _ _ _ Hroom Hin0 Hq) as (_ & ->).
          rewrite keqb_refl in Ek. discriminate.
      + rewrite nth_error_store_other in Hr' by assumption.
        unfold seatFree. apply Forall_forall. intros [k q] Hin Hq.
        cbn [snd] in Hq. destruct (Honly _ _ _ _ Hr' Hin Hq) as (E & _).
        congruence.
    - apply get_delete_same. }
  destruct (run_gone _ Hrun H1) as (_ & _ & Hh2 & Ht2).
  assert (Hhas : JSMap.has old (transitioningPlayers w2) = false)
    by (unfold JSMap.has; now rewrite Ht2).
  split; [exact Hhas|]. split.
  - intros r k p Hr Hin. rewrite Forall_forall in Hh2.
    specialize (Hh2 r Hr). unfold seatFree in Hh2. rewrite Forall_forall in Hh2.
    exact (Hh2 (k, p) Hin).
  - intros later rnd rid pid. unfold Standalone.onTimer. now rewrite Hhas.
Qed.

(** A resumes in [droppedWorld]; the periodic sweep runs; the grace timer
    of [s1] then does nothing. *)
Lemma rejoin_disarms_grace_timer_witness :
  timers droppedWorld = [(30000, CbSweep); (35000, CbCleanup "s1" firstRoom 1)]
  /\ exists w2 out,
      run StandaloneServer
          (fst (Standalone.onJoinRoom droppedWorld "s3" 6000 (named firstRoom "A")))
          [turn 30000 (Fire 0)]
      = Some (w2, out)
      /\ Standalone.onTimer w2 35000 noRandom (CbCleanup "s1" firstRoom 1)
         = (w2, []).
Proof.
  split; [reflexivity|].
  destruct (run StandaloneServer
                (fst (Standalone.onJoinRoom droppedWorld "s3" 6000
                                            (named firstRoom "A")))
                [turn 30000 (Fire 0)])
    as [[w2 out]|] eqn:Hrun; [|vm_compute in Hrun; discriminate].
  exists w2, out. split; [reflexivity|].
  assert (Honly : forall ref' room' k p,
             nth_error (heap droppedWorld) ref' = Some room' ->
             In (k, p) (players room') ->
             p_socket p = "s1" -> ref' = O /\ k = 1).
  { intros [|[|ref']] room' k p Hr; simpl in Hr; try discriminate.
    injection Hr as <-. simpl.
    intros [[= <- <-] | [[= <- <-] | []]] Hs; [auto | discriminate]. }
  exact (proj2 (proj2
           (@rejoin_disarms_grace_timer droppedWorld "s3" 6000
              (named firstRoom "A") O (nth O (heap droppedWorld) noRoom) "s1"
              {| td_roomId := firstRoom; td_playerId := 1;
                 td_playerName := "A"; td_transitionStart := 3100 |}
              1 eq_refl eq_refl eq_refl eq_refl eq_refl eq_refl eq_refl Honly
              [turn 30000 (Fire 0)] w2 out Hrun))
           35000 noRandom firstRoom 1).
Defined.

(** The seat condition is needed. On [trace_two_rooms] A's old connection
    still holds a seat in the second room when C resumes A's seat in the
    first; the second game files a record for it again, and the grace
    timer removes that seat. *)
Lemma grace_timer_removes_other_seat :
  option_map seating (stateAfter StandaloneServer trace_two_rooms)
  = Some [[(1, "s3", "A"); (2, "s2", "B")]; [(1, "s1", "A"); (2, "s4", "D")]]
  /\ emittedBy StandaloneServer trace_two_rooms (turn 35000 (Fire 1))
     = Some [("s4", "playerLeft")]
  /\ option_map seating
       (stateAfter StandaloneServer (trace_two_rooms ++ [turn 35000 (Fire 1)]))
     = Some [[(1, "s3", "A"); (2, "s2", "B")]; [(2, "s4", "D")]].
Proof. vm_compute. repeat split. Qed.
